(** * LogDevice ldshell: the [nodes-config] command group

    A shallow embedding of
    [logdevice/ops/ldshell/autoload/commands/nodes_config.py]: the
    interactive edit loop of [NodesConfig.edit] with its no-change check and
    its version / timestamp reconciliation, the one-shot commands [show],
    [bootstrap] and [shrink], and the parts of the Python library they lean
    on ([difflib.unified_diff], [str.split], [dict] access, [==] on JSON
    values). *)

From Stdlib Require Import ZArith List String Ascii Bool Lia Sorted.
From Stdlib Require Import Floats.SpecFloat DecimalString.
From stdpp Require Import base list strings gmap.

Local Open Scope string_scope.
Local Open Scope nat_scope.
Local Open Scope list_scope.
Local Open Scope stdpp_scope.

(** ** [difflib]: the sequence matcher behind [unified_diff]

    The edit loop asks [difflib.unified_diff(nc_list, edited_nc_list,
    lineterm="")] twice per attempt.  The generator is embedded as the list
    of lines it yields, computed the way CPython's [difflib] does it:
    [SequenceMatcher(None, a, b)] with its default [autojunk=True],
    [find_longest_match], [get_matching_blocks], [get_opcodes],
    [get_grouped_opcodes(3)] and the formatting of the hunks. *)
Module difflib.

Inductive tag := Replace | Delete | Insert | Equal.

Definition tag_eqb (s t : tag) : bool :=
  match s, t with
  | Replace, Replace | Delete, Delete | Insert, Insert | Equal, Equal => true
  | _, _ => false
  end.

(** An opcode [(tag, i1, i2, j1, j2)] and a matching block [(i, j, k)]. *)
Definition opcode : Type := tag * nat * nat * nat * nat.
Definition block : Type := nat * nat * nat.

Section SequenceMatcher.
Variables a b : list string.

(** [b2j[elt]]: the indices of [elt] in [b], ascending. *)
Fixpoint indices (elt : string) (l : list string) (j : nat) : list nat :=
  match l with
  | [] => []
  | x :: l' =>
      if String.eqb elt x then j :: indices elt l' (S j)
      else indices elt l' (S j)
  end.

(** [__chain_b], [autojunk]: when [b] has at least 200 elements, those
    that occur more than [n // 100 + 1] times are purged from [b2j]. *)
Definition popular (elt : string) : bool :=
  (200 <=? length b) && (length b / 100 + 1 <? length (indices elt b 0)).

Definition b2j (elt : string) : list nat :=
  if popular elt then [] else indices elt b 0.

(** [isjunk] is [None]: no element of [b] is junk. *)
Definition isbjunk (elt : string) : bool := false.

(** [j2len.get(j - 1, 0)]; the key [-1] is never present. *)
Definition j2lenget (j2len : gmap nat nat) (j : nat) : nat :=
  match j with
  | O => 0
  | S j' => default 0 (j2len !! j')
  end.

(** The inner [for j in b2j.get(a[i], nothing)] of [find_longest_match]:
    [continue] below [blo], [break] at [bhi]. *)
Fixpoint scan_row (i blo bhi : nat) (j2len : gmap nat nat) (js : list nat)
    (newj2len : gmap nat nat) (best : block) : gmap nat nat * block :=
  match js with
  | [] => (newj2len, best)
  | j :: js' =>
      if j <? blo then scan_row i blo bhi j2len js' newj2len best
      else if bhi <=? j then (newj2len, best)
      else
        let k := S (j2lenget j2len j) in
        let '(_, _, bestsize) := best in
        scan_row i blo bhi j2len js' (<[j:=k]> newj2len)
          (if bestsize <? k then (i + 1 - k, j + 1 - k, k) else best)
  end.

(** The outer [for i in range(alo, ahi)]. *)
Fixpoint scan_rows (rows : list nat) (blo bhi : nat) (j2len : gmap nat nat)
    (best : block) : block :=
  match rows with
  | [] => best
  | i :: rows' =>
      let '(newj2len, best') :=
        scan_row i blo bhi j2len (b2j (nth i a "")) ∅ best in
      scan_rows rows' blo bhi newj2len best'
  end.

(** The [while] loops that grow the block at its low end and at its high
    end.  Each step moves [besti] down, or the end of the block up, by one,
    so the counter [n] (at least [besti], at least [ahi]) outlasts the
    loop; [junk] tells the first (non-junk) loop from the second (junk)
    one. *)
Fixpoint extend_low (junk : bool) (n alo blo : nat) (best : block) : block :=
  match n with
  | O => best
  | S n' =>
      let '(besti, bestj, bestsize) := best in
      if (alo <? besti) && (blo <? bestj)
         && Bool.eqb (isbjunk (nth (bestj - 1) b "")) junk
         && String.eqb (nth (besti - 1) a "") (nth (bestj - 1) b "")
      then extend_low junk n' alo blo (besti - 1, bestj - 1, S bestsize)
      else best
  end.

Fixpoint extend_high (junk : bool) (n ahi bhi : nat) (best : block) : block :=
  match n with
  | O => best
  | S n' =>
      let '(besti, bestj, bestsize) := best in
      if (besti + bestsize <? ahi) && (bestj + bestsize <? bhi)
         && Bool.eqb (isbjunk (nth (bestj + bestsize) b "")) junk
         && String.eqb (nth (besti + bestsize) a "") (nth (bestj + bestsize) b "")
      then extend_high junk n' ahi bhi (besti, bestj, S bestsize)
      else best
  end.

Definition find_longest_match (alo ahi blo bhi : nat) : block :=
  let best := scan_rows (seq alo (ahi - alo)) blo bhi ∅ (alo, blo, 0) in
  let best := extend_low false (fst (fst best)) alo blo best in
  let best := extend_high false ahi ahi bhi best in
  let best := extend_low true (fst (fst best)) alo blo best in
  let best := extend_high true ahi ahi bhi best in
  best.

(** The work list of [get_matching_blocks]; [queue.pop()] takes the
    element appended last.  Every pop that finds a block removes at
    least one element of [a] from the ranges still to be searched, so
    [2 * len(a) + 1] pops empty the list ([match_queue_fuel] below). *)
Fixpoint match_queue (fuel : nat) (queue : list (nat * nat * nat * nat))
    (matching_blocks : list block) : list block :=
  match fuel, queue with
  | _, [] => matching_blocks
  | O, _ => matching_blocks
  | S fuel', (alo, ahi, blo, bhi) :: queue' =>
      let '(i, j, k) := find_longest_match alo ahi blo bhi in
      if k =? 0 then match_queue fuel' queue' matching_blocks
      else
        let q1 := if (alo <? i) && (blo <? j)
                  then (alo, i, blo, j) :: queue' else queue' in
        let q2 := if (i + k <? ahi) && (j + k <? bhi)
                  then (i + k, ahi, j + k, bhi) :: q1 else q1 in
        match_queue fuel' q2 (matching_blocks ++ [(i, j, k)])
  end.

(** Tuples sort lexicographically. *)
Definition block_leb (x y : block) : bool :=
  let '(i1, j1, k1) := x in
  let '(i2, j2, k2) := y in
  (i1 <? i2) || ((i1 =? i2) && ((j1 <? j2) || ((j1 =? j2) && (k1 <=? k2)))).

Fixpoint insert_block (x : block) (l : list block) : list block :=
  match l with
  | [] => [x]
  | y :: l' => if block_leb x y then x :: l else y :: insert_block x l'
  end.

Definition sort_blocks (l : list block) : list block :=
  fold_right insert_block [] l.

(** Adjacent equal blocks are collapsed into one. *)
Fixpoint collapse (l : list block) (cur : block) : list block :=
  let '(i1, j1, k1) := cur in
  match l with
  | [] => if k1 =? 0 then [] else [cur]
  | (i2, j2, k2) :: l' =>
      if (i1 + k1 =? i2) && (j1 + k1 =? j2)
      then collapse l' (i1, j1, k1 + k2)
      else (if k1 =? 0 then [] else [cur]) ++ collapse l' (i2, j2, k2)
  end.

Definition get_matching_blocks : list block :=
  let la := length a in
  let lb := length b in
  let matching_blocks := match_queue (2 * la + 1) [(0, la, 0, lb)] [] in
  collapse (sort_blocks matching_blocks) (0, 0, 0) ++ [(la, lb, 0)].

Fixpoint opcodes_from (blocks : list block) (i j : nat) : list opcode :=
  match blocks with
  | [] => []
  | (ai, bj, size) :: blocks' =>
      (if (i <? ai) && (j <? bj) then [(Replace, i, ai, j, bj)]
       else if i <? ai then [(Delete, i, ai, j, bj)]
       else if j <? bj then [(Insert, i, ai, j, bj)]
       else [])
      ++ (if size =? 0 then [] else [(Equal, ai, ai + size, bj, bj + size)])
      ++ opcodes_from blocks' (ai + size) (bj + size)
  end.

Definition get_opcodes : list opcode := opcodes_from get_matching_blocks 0 0.

Definition is_equal (c : opcode) : bool :=
  let '(t, _, _, _, _) := c in tag_eqb t Equal.

(** [codes[0] = ...] and [codes[-1] = ...]: the leading and the trailing
    opcode are trimmed to [n] lines of context when they are [equal]. *)
Definition fix_first (n : nat) (codes : list opcode) : list opcode :=
  match codes with
  | (Equal, i1, i2, j1, j2) :: codes' =>
      (Equal, Nat.max i1 (i2 - n), i2, Nat.max j1 (j2 - n), j2) :: codes'
  | _ => codes
  end.

Fixpoint fix_last (n : nat) (codes : list opcode) : list opcode :=
  match codes with
  | [] => []
  | [(Equal, i1, i2, j1, j2)] =>
      [(Equal, i1, Nat.min i2 (i1 + n), j1, Nat.min j2 (j1 + n))]
  | c :: codes' => c :: fix_last n codes'
  end.

(** The loop of [get_grouped_opcodes] that cuts the opcodes at every long
    run without a change. *)
Fixpoint split_groups (n : nat) (codes : list opcode) (group : list opcode)
    : list (list opcode) :=
  match codes with
  | [] =>
      match group with
      | [] => []
      | [c] => if is_equal c then [] else [group]
      | _ => [group]
      end
  | (t, i1, i2, j1, j2) :: codes' =>
      if tag_eqb t Equal && (n + n <? i2 - i1)
      then (group ++ [(t, i1, Nat.min i2 (i1 + n), j1, Nat.min j2 (j1 + n))])
           :: split_groups n codes'
                [(t, Nat.max i1 (i2 - n), i2, Nat.max j1 (j2 - n), j2)]
      else split_groups n codes' (group ++ [(t, i1, i2, j1, j2)])
  end.

Definition get_grouped_opcodes (n : nat) : list (list opcode) :=
  let codes := get_opcodes in
  let codes := match codes with [] => [(Equal, 0, 1, 0, 1)] | _ => codes end in
  split_groups n (fix_last n (fix_first n codes)) [].

Definition str_of_nat (n : nat) : string :=
  NilZero.string_of_uint (Nat.to_uint n).

Definition _format_range_unified (start stop : nat) : string :=
  let beginning := start + 1 in
  let length := stop - start in
  if length =? 1 then str_of_nat beginning
  else
    str_of_nat (if length =? 0 then beginning - 1 else beginning)
    +:+ "," +:+ str_of_nat length.

(** [a[i1:i2]] *)
Definition slice (l : list string) (i1 i2 : nat) : list string :=
  take (i2 - i1) (drop i1 l).

Definition hunk_lines (c : opcode) : list string :=
  let '(t, i1, i2, j1, j2) := c in
  match t with
  | Equal => map (String.append " ") (slice a i1 i2)
  | Replace =>
      map (String.append "-") (slice a i1 i2)
      ++ map (String.append "+") (slice b j1 j2)
  | Delete => map (String.append "-") (slice a i1 i2)
  | Insert => map (String.append "+") (slice b j1 j2)
  end.

Definition group_lines (group : list opcode) : list string :=
  match group, last group with
  | (_, first1, _, first3, _) :: _, Some (_, _, last2, _, last4) =>
      ("@@ -" +:+ _format_range_unified first1 last2
         +:+ " +" +:+ _format_range_unified first3 last4 +:+ " @@")
      :: concat (map hunk_lines group)
  | _, _ => []
  end.

(** [unified_diff(a, b, lineterm="")]: file names and dates are empty,
    [n] is 3; the two header lines come before the first group. *)
Definition unified_diff : list string :=
  match get_grouped_opcodes 3 with
  | [] => []
  | groups => "--- " :: "+++ " :: concat (map group_lines groups)
  end.

End SequenceMatcher.

End difflib.

(** ** Python values

    What [json.loads] builds: [None], [bool], [int], [float] (IEEE binary64,
    as [spec_float]), [str], [list] and [dict].  A [dict] keeps its items in
    insertion order and its keys are unique. *)
#[local] Set Warnings "-register-all".
Inductive pyobj :=
| PyNone
| PyBool (b : bool)
| PyInt (z : Z)
| PyFloat (f : spec_float)
| PyStr (s : string)
| PyList (l : list pyobj)
| PyDict (d : list (string * pyobj)).

(** The exceptions of the module ([EditorError], [NodesConfigError],
    [NoChangesError], [NCMError]), those Python raises under it, and
    [Exception] for whatever else a library raises. *)
Inductive exn :=
| EditorError (msg : string)
| NodesConfigError (msg : string)
| NoChangesError (msg : string)
| NCMError (msg : string)
| JSONDecodeError (msg : string)
| KeyError (key : string)
| TypeError (msg : string)
| AttributeError (msg : string)
| ValueError (msg : string)
| OverflowError (msg : string)
| Exception (msg : string).

Inductive result (A : Type) :=
| Ok (x : A)
| Raise (e : exn).
Arguments Ok {A} x.
Arguments Raise {A} e.

(** [str(e)]; a [KeyError] shows the [repr] of its key. *)
Definition str_exn (e : exn) : string :=
  match e with
  | EditorError msg | NodesConfigError msg | NoChangesError msg | NCMError msg
  | JSONDecodeError msg | TypeError msg | AttributeError msg | ValueError msg
  | OverflowError msg | Exception msg => msg
  | KeyError key => "'" +:+ key +:+ "'"
  end.

(** [d.get(k)] and [d[k] = v] on the items of a [dict]. *)
Fixpoint dict_get (d : list (string * pyobj)) (k : string) : option pyobj :=
  match d with
  | [] => None
  | (k', v) :: d' => if String.eqb k' k then Some v else dict_get d' k
  end.

Fixpoint dict_set (d : list (string * pyobj)) (k : string) (v : pyobj)
    : list (string * pyobj) :=
  match d with
  | [] => [(k, v)]
  | (k', v') :: d' =>
      if String.eqb k' k then (k', v) :: d' else (k', v') :: dict_set d' k v
  end.

(** The integer a [float] is equal to, if it is one: Python compares an
    [int] with a [float] exactly. *)
Definition float_as_int (f : spec_float) : option Z :=
  match f with
  | S754_zero _ => Some 0%Z
  | S754_finite s m e =>
      if (0 <=? e)%Z then Some (cond_Zopp s (Zpos m * 2 ^ e))
      else if (Zpos m mod 2 ^ (- e) =? 0)%Z
           then Some (cond_Zopp s (Zpos m / 2 ^ (- e)))
           else None
  | _ => None
  end.

Definition float_eq_int (f : spec_float) (z : Z) : bool :=
  match float_as_int f with
  | Some z' => (z' =? z)%Z
  | None => false
  end.

(** Two items that are one object.  A container compares its items by
    identity before it compares them by [==] ([PyObject_RichCompareBool]).
    Objects built by two calls of [json.loads] share constants only, and of
    those a NaN alone differs from itself: every [NaN] read is the one
    object [json.decoder.NaN]. *)
Definition same_nan (x y : pyobj) : bool :=
  match x, y with
  | PyFloat S754_nan, PyFloat S754_nan => true
  | _, _ => false
  end.

(** [x == y] for two objects built by [json.loads].  [bool] is a subclass
    of [int]; numbers compare by value across [int] and [float]; a NaN
    equals nothing, itself included; containers compare item by item, by
    identity first. *)
Fixpoint py_eq (x y : pyobj) : bool :=
  match x, y with
  | PyNone, PyNone => true
  | PyBool p, PyBool q => Bool.eqb p q
  | PyBool p, PyInt z => (Z.b2z p =? z)%Z
  | PyBool p, PyFloat f => float_eq_int f (Z.b2z p)
  | PyInt z, PyBool q => (z =? Z.b2z q)%Z
  | PyInt z, PyInt w => (z =? w)%Z
  | PyInt z, PyFloat f => float_eq_int f z
  | PyFloat f, PyBool q => float_eq_int f (Z.b2z q)
  | PyFloat f, PyInt w => float_eq_int f w
  | PyFloat f, PyFloat g => SFeqb f g
  | PyStr s, PyStr t => String.eqb s t
  | PyList l, PyList m =>
      (fix all2 (l m : list pyobj) : bool :=
         match l, m with
         | [], [] => true
         | x' :: l', y' :: m' => (same_nan x' y' || py_eq x' y') && all2 l' m'
         | _, _ => false
         end) l m
  | PyDict d, PyDict e =>
      (length d =? length e)
      && (fix all (d : list (string * pyobj)) : bool :=
            match d with
            | [] => true
            | (k, v) :: d' =>
                match dict_get e k with
                | Some w => (same_nan v w || py_eq v w) && all d'
                | None => false
                end
            end) d
  | _, _ => false
  end.

(** [x == x], the same object on both sides: only a NaN differs from
    itself (a container looks at the identity of its items first). *)
Definition py_eq_self (x : pyobj) : bool :=
  match x with
  | PyFloat f => SFeqb f f
  | _ => true
  end.

Definition binary64_add : spec_float -> spec_float -> spec_float := SFadd 53 1024.
Definition binary64_mul : spec_float -> spec_float -> spec_float := SFmul 53 1024.
Definition float_of_int (z : Z) : spec_float := binary_normalize 53 1024 z 0 false.

(** [bool], [int] and [float]: the numbers. *)
Definition is_number (x : pyobj) : bool :=
  match x with
  | PyBool _ | PyInt _ | PyFloat _ => true
  | _ => false
  end.

(** [x + 1] *)
Definition py_add_1 (x : pyobj) : result pyobj :=
  match x with
  | PyBool b => Ok (PyInt (Z.b2z b + 1))
  | PyInt z => Ok (PyInt (z + 1))
  | PyFloat f => Ok (PyFloat (binary64_add f (float_of_int 1)))
  | _ => Raise (TypeError "unsupported operand type(s) for +")
  end.

(** [int(f)] truncates towards zero. *)
Definition py_int (f : spec_float) : result Z :=
  match f with
  | S754_zero _ => Ok 0%Z
  | S754_finite s m e =>
      Ok (cond_Zopp s (if (0 <=? e)%Z then Zpos m * 2 ^ e else Zpos m / 2 ^ (- e)))
  | S754_infinity _ => Raise (OverflowError "cannot convert float infinity to integer")
  | S754_nan => Raise (ValueError "cannot convert float NaN to integer")
  end.

(** [int(t * 1000)] for a clock reading [t = time.time()]. *)
Definition time_ms (t : spec_float) : result Z :=
  py_int (binary64_mul t (float_of_int 1000)).

Definition nl : string := String "010" EmptyString.

(** [s.split("\n")] *)
Fixpoint split_from (s : string) (cur : string) : list string :=
  match s with
  | EmptyString => [cur]
  | String c s' =>
      if Ascii.eqb c "010" then cur :: split_from s' EmptyString
      else split_from s' (cur +:+ String c EmptyString)
  end.

Definition split_nl (s : string) : list string := split_from s EmptyString.

(** ["\n".join(lines)] *)
Fixpoint join_nl (lines : list string) : string :=
  match lines with
  | [] => EmptyString
  | [line] => line
  | line :: lines' => line +:+ nl +:+ join_nl lines'
  end.

(** ** What reconciliation leaves behind

    The test [edited_nc.get(k, nc[k]) == nc[k]] on the items [d] of the
    edited document, and the items after lines 139 to 146, for a baseline
    version [v0] with [v0 + 1 = v1], a baseline timestamp [t0] and a clock
    that reads [now] milliseconds. *)
Definition same_as (d : list (string * pyobj)) (k : string) (v : pyobj) : bool :=
  match dict_get d k with
  | Some e => py_eq e v
  | None => py_eq_self v
  end.

Definition reconciled (v0 v1 t0 : pyobj) (now : Z) (d : list (string * pyobj))
    : list (string * pyobj) :=
  let d1 := if same_as d "version" v0 then dict_set d "version" v1 else d in
  if same_as d1 "last_timestamp" t0
  then dict_set d1 "last_timestamp" (PyInt now) else d1.

(** ** The commands

    The libraries the module calls are parameters: the [json] codec with the
    options the module always passes ([indent=4, sort_keys=True]), the
    binary codec of [ncm], [pygments.highlight], [str.upper] and the
    [LocationScope] enumeration of [logdevice.common.types].  A call that
    can raise returns a [result]. *)
Section Commands.

Variable json_loads : string -> result pyobj.
Variable json_dumps : pyobj -> string.
Variable nodes_configuration_to_json : string -> result string.
Variable json_to_nodes_configuration : string -> result string.
Variable highlight : string -> string.
Variable str_upper : string -> string.
Variable LocationScope : Type.
Variable LocationScope_getitem : string -> option LocationScope.
Variable LocationScope_eqb : LocationScope -> LocationScope -> bool.

(** What the commands do to the world, in the order they do it. *)
Inductive event :=
| build_client
| get_nodes_configuration
| run_editor (text : string)
| print (line : string)
| ask_prompt (answer : string)
| confirm_prompt (answer : bool)
| encode_nodes_configuration (json_str : string)
| overwrite_nodes_configuration (nc_bin : string)
| get_cluster_admin_client
| bootstrapCluster (metadata_replication_property : list (LocationScope * Z))
    (timeout : Z)
| removeNodes (node_indexes : list Z) (timeout : Z).

(** The answers of the world to one pass through the [while True] of
    [edit]: the editor's exit status and the temporary file it leaves, the
    clock, the operator's choice, the outcome of the write and the answer to
    "Try again?".  A pass reads only the answers it gets to. *)
Record attempt := {
  editor_returncode : Z;
  editor_saved : string;
  time_time : spec_float;
  choice : string;
  overwrite_result : result unit;
  try_again : bool
}.

(** The answers to the calls made once per command. *)
Record world := {
  client_result : result unit;
  fetch_result : result string;
  attempts : list attempt;
  admin_client_result : result unit;
  rpc_result : result unit
}.

(** The store of objects ([nc] and every [edited_nc] are references into
    it), the local variable [edited_text] of [edit], and the events so
    far. *)
Record state := {
  heap : list pyobj;
  edited_text : option string;
  trace : list event
}.

Definition M (A : Type) : Type := state -> result A * state.

Definition ret {A} (x : A) : M A := fun st => (Ok x, st).

Definition raise {A} (e : exn) : M A := fun st => (Raise e, st).

Definition bind {A B} (m : M A) (k : A -> M B) : M B :=
  fun st =>
    match m st with
    | (Ok x, st') => k x st'
    | (Raise e, st') => (Raise e, st')
    end.

(** [try: m  except Exception as e: h e] *)
Definition try_except {A} (m : M A) (h : exn -> M A) : M A :=
  fun st =>
    match m st with
    | (Ok x, st') => (Ok x, st')
    | (Raise e, st') => h e st'
    end.

Definition lift {A} (r : result A) : M A := fun st => (r, st).

Notation "x <- m ;; k" := (bind m (fun x => k))
  (at level 100, m at next level, right associativity).
Notation "m ;;; k" := (bind m (fun _ => k))
  (at level 100, right associativity).

Definition emit (e : event) : M unit :=
  fun st =>
    (Ok tt, {| heap := heap st; edited_text := edited_text st;
               trace := trace st ++ [e] |}).

Definition alloc (v : pyobj) : M nat :=
  fun st =>
    (Ok (length (heap st)),
     {| heap := heap st ++ [v]; edited_text := edited_text st;
        trace := trace st |}).

Definition read (l : nat) : M pyobj :=
  fun st => (Ok (default PyNone (heap st !! l)), st).

Definition write (l : nat) (v : pyobj) : M unit :=
  fun st =>
    (Ok tt, {| heap := <[l:=v]> (heap st); edited_text := edited_text st;
               trace := trace st |}).

Definition get_edited_text : M (option string) :=
  fun st => (Ok (edited_text st), st).

Definition set_edited_text (t : option string) : M unit :=
  fun st =>
    (Ok tt, {| heap := heap st; edited_text := t; trace := trace st |}).

Fixpoint print_all (lines : list string) : M unit :=
  match lines with
  | [] => ret tt
  | line :: lines' => emit (print line) ;;; print_all lines'
  end.

(** [o[k]] *)
Definition getitem (l : nat) (k : string) : M pyobj :=
  o <- read l ;;
  match o with
  | PyDict d =>
      match dict_get d k with
      | Some v => ret v
      | None => raise (KeyError k)
      end
  | _ => raise (TypeError "object is not subscriptable by a str")
  end.

(** [o[k] = v], for an [o] that is a [dict] *)
Definition setitem (l : nat) (k : string) (v : pyobj) : M unit :=
  o <- read l ;;
  match o with
  | PyDict d => write l (PyDict (dict_set d k v))
  | _ => raise (TypeError "object does not support item assignment")
  end.

(** [edited_nc.get(k, nc[k]) == nc[k]]: the attribute [get] is looked up
    first, then [nc[k]]; when the key is missing [get] hands back the very
    object [nc[k]]. *)
Definition get_eq (edited_nc nc : nat) (k : string) : M bool :=
  o <- read edited_nc ;;
  match o with
  | PyDict d =>
      v <- getitem nc k ;;
      match dict_get d k with
      | Some e => ret (py_eq e v)
      | None => ret (py_eq_self v)
      end
  | _ => raise (AttributeError "object has no attribute 'get'")
  end.

Definition _get_client (w : world) : M unit :=
  emit build_client ;;; lift (client_result w).

Definition _get_nodes_config (w : world) : M nat :=
  emit get_nodes_configuration ;;;
  ncm_bin <- lift (fetch_result w) ;;
  ncm_json_str <- lift (nodes_configuration_to_json ncm_bin) ;;
  nc <- lift (json_loads ncm_json_str) ;;
  alloc nc.

Definition _edit_text_with_editor (att : attempt) (text : string) : M string :=
  emit (run_editor text) ;;;
  if negb (editor_returncode att =? 0)%Z
  then raise (EditorError "Non-zero return code from editor")
  else ret (editor_saved att).

(** [show] *)
Definition show (w : world) : M (option Z) :=
  r <- try_except
         (_get_client w ;;; nc <- _get_nodes_config w ;; ret (inr nc))
         (fun e => emit (print (str_exn e)) ;;; ret (inl 1%Z)) ;;
  match r with
  | inl status => ret (Some status)
  | inr nc =>
      o <- read nc ;;
      emit (print (highlight (json_dumps o))) ;;;
      ret (Some 0%Z)
  end.

(** Lines 139 to 146 of [edit]: the version and the timestamp the operator
    left alone are moved on. *)
Definition reconcile (nc edited_nc : nat) (att : attempt) : M unit :=
  same <- get_eq edited_nc nc "version" ;;
  (if same : bool
   then v <- getitem nc "version" ;;
        v1 <- lift (py_add_1 v) ;;
        setitem edited_nc "version" v1
   else ret tt) ;;;
  same <- get_eq edited_nc nc "last_timestamp" ;;
  if same : bool
  then now <- lift (time_ms (time_time att)) ;;
       setitem edited_nc "last_timestamp" (PyInt now)
  else ret tt.

Inductive control := Continue | Break.

(** [next(diff, None) is None] *)
Definition next_is_None (diff : list string) : bool :=
  match diff with
  | [] => true
  | _ :: _ => false
  end.

(** Lines 126 to 137 of [edit]: the editor, the parser and the check that
    something was changed.  Hands on [edited_nc] and [nc_list]. *)
Definition validate (nc : nat) (formatted : string) (att : attempt)
    : M (nat * list string) :=
  previous <- get_edited_text ;;
  new_text <- _edit_text_with_editor att
                (match previous with None => formatted | Some t => t end) ;;
  set_edited_text (Some new_text) ;;;
  parsed <- lift (json_loads new_text) ;;
  edited_nc <- alloc parsed ;;
  o <- read nc ;;
  let nc_list := split_nl (json_dumps o) in
  e <- read edited_nc ;;
  let edited_nc_list := split_nl (json_dumps e) in
  let diff := difflib.unified_diff nc_list edited_nc_list in
  if next_is_None diff then raise (EditorError "No changes detected")
  else ret (edited_nc, nc_list).

(** Lines 148 to 177 of [edit]: the final diff, the choice of the
    operator, the encoding and the write. *)
Definition confirm_and_apply (nc_list : list string) (edited_nc : nat)
    (att : attempt) : M control :=
  e <- read edited_nc ;;
  let edited_nc_json_str := json_dumps e in
  let edited_nc_list := split_nl edited_nc_json_str in
  let diff := difflib.unified_diff nc_list edited_nc_list in
  emit (print "You're going to apply the following diff:") ;;;
  print_all diff ;;;
  emit (print (nl +:+ "What to do now?")) ;;;
  emit (print "[1] Apply") ;;;
  emit (print "[2] Edit") ;;;
  emit (print "[3] Cancel") ;;;
  emit (ask_prompt (choice att)) ;;;
  if String.eqb (choice att) "2" then ret Continue
  else if String.eqb (choice att) "3" then ret Break
  else
    nc_bin <- try_except
                (emit (encode_nodes_configuration edited_nc_json_str) ;;;
                 lift (json_to_nodes_configuration edited_nc_json_str))
                (fun e =>
                   raise (NCMError ("Error on serializing config: "
                                    +:+ str_exn e))) ;;
    try_except
      (emit (overwrite_nodes_configuration nc_bin) ;;;
       lift (overwrite_result att) ;;;
       ret Break)
      (fun e =>
         raise (NCMError ("Error on overwriting config: " +:+ str_exn e))).

(** The body of the [try] in the loop of [edit]. *)
Definition attempt_try (nc : nat) (formatted : string) (att : attempt)
    : M control :=
  v <- validate nc formatted att ;;
  reconcile nc (fst v) att ;;;
  confirm_and_apply (snd v) (fst v) att.

(** One pass through the loop, with its [except (EditorError,
    json.JSONDecodeError, NCMError)]. *)
Definition attempt_body (nc : nat) (formatted : string) (att : attempt)
    : M control :=
  try_except (attempt_try nc formatted att)
    (fun e =>
       match e with
       | EditorError _ | JSONDecodeError _ | NCMError _ =>
           emit (print (str_exn e)) ;;;
           emit (confirm_prompt (try_again att)) ;;;
           if negb (try_again att) then ret Break else ret Continue
       | _ => raise e
       end).

(** [while True]: one [attempt] of the script per pass.  [None] when the
    script ends while the loop is still asking for the next edit. *)
Fixpoint edit_loop (nc : nat) (formatted : string) (script : list attempt)
    : M (option unit) :=
  match script with
  | [] => ret None
  | att :: script' =>
      c <- attempt_body nc formatted att ;;
      match c with
      | Continue => edit_loop nc formatted script'
      | Break => ret (Some tt)
      end
  end.

(** [edit]: [Some status] when the command returns, [None] when the script
    of the world ends first. *)
Definition edit (w : world) : M (option (option Z)) :=
  r <- try_except
         (_get_client w ;;; nc <- _get_nodes_config w ;; ret (inr nc))
         (fun e => emit (print (str_exn e)) ;;; ret (inl 1%Z)) ;;
  match r with
  | inl status => ret (Some (Some status))
  | inr nc =>
      o <- read nc ;;
      let formatted := json_dumps o in
      set_edited_text None ;;;
      left <- edit_loop nc formatted (attempts w) ;;
      match left with
      | Some _ => ret (Some (Some 0%Z))
      | None => ret None
      end
  end.

(** [replication_property[scope] = factor] *)
Fixpoint scope_set (rp : list (LocationScope * Z)) (scope : LocationScope)
    (factor : Z) : list (LocationScope * Z) :=
  match rp with
  | [] => [(scope, factor)]
  | (s, f) :: rp' =>
      if LocationScope_eqb s scope then (s, factor) :: rp'
      else (s, f) :: scope_set rp' scope factor
  end.

(** The [for scope_str, factor in metadata_replicate_across.items()] of
    [bootstrap]; [inl 1] is its [return 1]. *)
Fixpoint scopes_loop (items : list (string * Z))
    (replication_property : list (LocationScope * Z))
    : M (Z + list (LocationScope * Z)) :=
  match items with
  | [] => ret (inr replication_property)
  | (scope_str, factor) :: items' =>
      match LocationScope_getitem (str_upper scope_str) with
      | Some scope =>
          scopes_loop items' (scope_set replication_property scope factor)
      | None =>
          emit (print (scope_str +:+ " is not a valid scope")) ;;;
          ret (inl 1%Z)
      end
  end.

(** [bootstrap]: the value returned, [None] being Python's [None]. *)
Definition bootstrap (w : world) (metadata_replicate_across : list (string * Z))
    : M (option Z) :=
  r <- scopes_loop metadata_replicate_across [] ;;
  match r with
  | inl status => ret (Some status)
  | inr replication_property =>
      emit get_cluster_admin_client ;;;
      lift (admin_client_result w) ;;;
      try_except
        (emit (bootstrapCluster replication_property 60) ;;;
         lift (rpc_result w) ;;;
         emit (print "Successfully bootstrapped the cluster") ;;;
         ret None)
        (fun e => emit (print (str_exn e)) ;;; ret (Some 1%Z))
  end.

(** [shrink] *)
Definition shrink (w : world) (node_indexes : list Z) : M (option Z) :=
  emit get_cluster_admin_client ;;;
  lift (admin_client_result w) ;;;
  try_except
    (emit (removeNodes node_indexes 60) ;;;
     lift (rpc_result w) ;;;
     emit (print "Successfully removed the nodes") ;;;
     ret None)
    (fun e => emit (print (str_exn e)) ;;; ret (Some 1%Z)).

Definition initial : state := {| heap := []; edited_text := None; trace := [] |}.

(** *** Summaries used to state what the commands do *)

(** The same answers, but another file left by the editor. *)
Definition with_saved (att : attempt) (saved : string) : attempt :=
  {| editor_returncode := editor_returncode att;
     editor_saved := saved;
     time_time := time_time att;
     choice := choice att;
     overwrite_result := overwrite_result att;
     try_again := try_again att |}.

(** What [_get_client] and [_get_nodes_config] end in. *)
Definition fetched (w : world) : result pyobj :=
  match client_result w with
  | Raise e => Raise e
  | Ok _ =>
      match fetch_result w with
      | Raise e => Raise e
      | Ok ncm_bin =>
          match nodes_configuration_to_json ncm_bin with
          | Raise e => Raise e
          | Ok ncm_json_str => json_loads ncm_json_str
          end
      end
  end.

(** The events of a fetch. *)
Definition fetch_events (w : world) : list event :=
  match client_result w with
  | Ok _ => [build_client; get_nodes_configuration]
  | Raise _ => [build_client]
  end.

(** The text the editor is opened on. *)
Definition seed_text (formatted : string) (st : state) : string :=
  match edited_text st with
  | None => formatted
  | Some t => t
  end.

(** A state with more events. *)
Definition logged (st : state) (evs : list event) : state :=
  {| heap := heap st; edited_text := edited_text st; trace := trace st ++ evs |}.

(** [json_str] is the serialization of a document reconciled against the
    baseline [base]. *)
Definition reconciled_against (base : pyobj) (json_str : string) : Prop :=
  exists d0 d v0 v1 t0 now,
    base = PyDict d0
    /\ dict_get d0 "version" = Some v0
    /\ dict_get d0 "last_timestamp" = Some t0
    /\ (same_as d "version" v0 = true -> py_add_1 v0 = Ok v1)
    /\ json_str = json_dumps (PyDict (reconciled v0 v1 t0 now d)).

(** The events of the loop: it never fetches, what it hands to the
    encoder was reconciled against [base], and what it writes is the
    encoding of such a document. *)
Definition loop_event (base : pyobj) (e : event) : Prop :=
  match e with
  | run_editor _ | print _ | ask_prompt _ | confirm_prompt _ => True
  | encode_nodes_configuration json_str => reconciled_against base json_str
  | overwrite_nodes_configuration nc_bin =>
      exists json_str,
        reconciled_against base json_str
        /\ json_to_nodes_configuration json_str = Ok nc_bin
  | _ => False
  end.

(** The events of a pass that hands nothing but [json_str] to the encoder
    and nothing but its encoding to the store. *)
Definition hands_over (json_str : string) (e : event) : Prop :=
  match e with
  | encode_nodes_configuration s => s = json_str
  | overwrite_nodes_configuration nc_bin =>
      json_to_nodes_configuration json_str = Ok nc_bin
  | _ => True
  end.

(** A computation that prints nothing and leaves [edited_text] alone. *)
Definition quiet {A} (m : M A) : Prop :=
  forall st r st',
    m st = (r, st') -> trace st' = trace st /\ edited_text st' = edited_text st.

(** The first scope name of the mapping that is not in the enumeration. *)
Fixpoint first_invalid_scope (items : list (string * Z)) : option string :=
  match items with
  | [] => None
  | (scope_str, _) :: items' =>
      match LocationScope_getitem (str_upper scope_str) with
      | Some _ => first_invalid_scope items'
      | None => Some scope_str
      end
  end.

(** Lines 152 to 160 of [edit]: the diff of the document about to be
    applied against the baseline, the menu, and the operator's answer. *)
Definition confirmation (nc_list : list string) (json_str c : string)
    : list event :=
  print "You're going to apply the following diff:"
  :: map print (difflib.unified_diff nc_list (split_nl json_str))
  ++ [print (nl +:+ "What to do now?"); print "[1] Apply"; print "[2] Edit";
      print "[3] Cancel"; ask_prompt c].

Definition no_write (e : event) : Prop :=
  match e with
  | overwrite_nodes_configuration _ => False
  | _ => True
  end.

(** Every write in [evs] is the encoding of a document whose diff against
    the baseline [base] was put before the operator just before, and was
    answered by something other than "2" and "3"; after the write comes
    nothing, or the report of its failure and the question "Try again?". *)
Definition confirmed_writes (base : pyobj) (evs : list event) : Prop :=
  forall pre nc_bin post,
    evs = pre ++ overwrite_nodes_configuration nc_bin :: post ->
    (exists pre' c json_str,
       pre = pre' ++ confirmation (split_nl (json_dumps base)) json_str c
                  ++ [encode_nodes_configuration json_str]
       /\ c <> "2" /\ c <> "3"
       /\ json_to_nodes_configuration json_str = Ok nc_bin)
    /\ (post = []
        \/ exists msg again post',
             post = print ("Error on overwriting config: " +:+ msg)
                    :: confirm_prompt again :: post').

Definition no_ask (e : event) : Prop :=
  match e with
  | ask_prompt _ => False
  | _ => True
  end.

(** Every answer to the menu in [evs] comes at the end of lines 152 to
    160 run on the lines of the baseline [base] and on a document
    reconciled against [base]: the diff the operator answers is a diff
    against [base]. *)
Definition shown_against (base : pyobj) (evs : list event) : Prop :=
  forall pre c post,
    evs = pre ++ ask_prompt c :: post ->
    exists pre' json_str,
      pre ++ [ask_prompt c]
      = pre' ++ confirmation (split_nl (json_dumps base)) json_str c
      /\ reconciled_against base json_str.

(** The events of a fetch and of printing, and the calls made through the
    admin client. *)
Definition fetch_or_print (e : event) : Prop :=
  match e with
  | build_client | get_nodes_configuration | print _ => True
  | _ => False
  end.

Definition admin_call (e : event) : Prop :=
  match e with
  | get_cluster_admin_client | bootstrapCluster _ _ | removeNodes _ _ => True
  | _ => False
  end.

(** [replication_property.get(scope)], and the factor the mapping gives a
    scope: that of the last item whose name denotes it. *)
Fixpoint scope_get (rp : list (LocationScope * Z)) (scope : LocationScope)
    : option Z :=
  match rp with
  | [] => None
  | (s, f) :: rp' =>
      if LocationScope_eqb s scope then Some f else scope_get rp' scope
  end.

Fixpoint factor_of (items : list (string * Z)) (scope : LocationScope)
    (found : option Z) : option Z :=
  match items with
  | [] => found
  | (scope_str, factor) :: items' =>
      match LocationScope_getitem (str_upper scope_str) with
      | Some s =>
          factor_of items' scope
            (if LocationScope_eqb s scope then Some factor else found)
      | None => found
      end
  end.

End Commands.

Arguments build_client {LocationScope}.
Arguments get_nodes_configuration {LocationScope}.
Arguments run_editor {LocationScope} text.
Arguments print {LocationScope} line.
Arguments ask_prompt {LocationScope} answer.
Arguments confirm_prompt {LocationScope} answer.
Arguments encode_nodes_configuration {LocationScope} json_str.
Arguments overwrite_nodes_configuration {LocationScope} nc_bin.
Arguments get_cluster_admin_client {LocationScope}.
Arguments bootstrapCluster {LocationScope} metadata_replication_property timeout.
Arguments removeNodes {LocationScope} node_indexes timeout.
Arguments heap {LocationScope} s.
Arguments edited_text {LocationScope} s.
Arguments trace {LocationScope} s.
Arguments Build_state {LocationScope} heap edited_text trace.
Arguments initial {LocationScope}.
Arguments seed_text {LocationScope} formatted st.
Arguments logged {LocationScope} st evs.
Arguments quiet {LocationScope A} m.
Arguments reconcile {LocationScope} nc edited_nc att.
Arguments ret {LocationScope A} x.
Arguments raise {LocationScope A} e.
Arguments bind {LocationScope A B} m k.
Arguments try_except {LocationScope A} m h.
Arguments lift {LocationScope A} r.
Arguments emit {LocationScope} e.
Arguments alloc {LocationScope} v.
Arguments read {LocationScope} l.
Arguments write {LocationScope} l v.
Arguments get_edited_text {LocationScope}.
Arguments set_edited_text {LocationScope} t.
Arguments print_all {LocationScope} lines.
Arguments getitem {LocationScope} l k.
Arguments setitem {LocationScope} l k v.
Arguments get_eq {LocationScope} edited_nc nc k.
Arguments _get_client {LocationScope} w.
Arguments _edit_text_with_editor {LocationScope} att text.
Arguments confirmation {LocationScope} nc_list json_str c.
Arguments no_write {LocationScope} e.
Arguments no_ask {LocationScope} e.
Arguments fetch_or_print {LocationScope} e.
Arguments admin_call {LocationScope} e.

(** ** A concrete library

    An instance of the parameters to run the commands on: Python's JSON
    layout and grammar for documents of integers, booleans, [null], plain
    ASCII strings without escapes, lists and objects; a binary codec that
    stores the JSON text itself; ASCII upper-casing; and the locality scopes
    [NODE], [RACK], [ROW], [CLUSTER], [DATA_CENTER], [REGION] and [ROOT]. *)
Module Sample.

Definition dq : string := String "034" EmptyString.

Fixpoint spaces (n : nat) : string :=
  match n with
  | O => EmptyString
  | S n' => " " +:+ spaces n'
  end.

Definition str_of_Z (z : Z) : string := NilZero.string_of_int (Z.to_int z).

Fixpoint join (sep : string) (l : list string) : string :=
  match l with
  | [] => EmptyString
  | [x] => x
  | x :: l' => x +:+ sep +:+ join sep l'
  end.

Fixpoint insert_item (x : string * string) (l : list (string * string))
    : list (string * string) :=
  match l with
  | [] => [x]
  | y :: l' => if String.leb (fst x) (fst y) then x :: l else y :: insert_item x l'
  end.

Definition sort_items (l : list (string * string)) : list (string * string) :=
  fold_right insert_item [] l.

(** [json.dumps(o, indent=4, sort_keys=True)], the text below nesting
    depth [level]. *)
Fixpoint dumps_at (level : nat) (o : pyobj) : string :=
  match o with
  | PyNone => "null"
  | PyBool true => "true"
  | PyBool false => "false"
  | PyInt z => str_of_Z z
  | PyFloat f =>
      match float_as_int f with
      | Some z => str_of_Z z +:+ ".0"
      | None => "NaN"
      end
  | PyStr t => dq +:+ t +:+ dq
  | PyList [] => "[]"
  | PyList l =>
      "[" +:+ nl
      +:+ join ("," +:+ nl)
            (map (fun x => spaces (4 * S level) +:+ dumps_at (S level) x) l)
      +:+ nl +:+ spaces (4 * level) +:+ "]"
  | PyDict [] => "{}"
  | PyDict d =>
      "{" +:+ nl
      +:+ join ("," +:+ nl)
            (map (fun kv : string * string =>
                    spaces (4 * S level) +:+ dq +:+ fst kv +:+ dq +:+ ": "
                    +:+ snd kv)
               (sort_items
                  (map (fun kv : string * pyobj =>
                          (fst kv, dumps_at (S level) (snd kv))) d)))
      +:+ nl +:+ spaces (4 * level) +:+ "}"
  end.

Definition json_dumps (o : pyobj) : string := dumps_at 0 o.

Definition is_ws (c : ascii) : bool :=
  Ascii.eqb c " " || Ascii.eqb c "009" || Ascii.eqb c "010" || Ascii.eqb c "013".

Fixpoint skip_ws (t : string) : string :=
  match t with
  | String c t' => if is_ws c then skip_ws t' else t
  | EmptyString => t
  end.

Definition is_digit (c : ascii) : bool :=
  (48 <=? nat_of_ascii c) && (nat_of_ascii c <=? 57).

Fixpoint span_digits (t : string) : string * string :=
  match t with
  | String c t' =>
      if is_digit c
      then let '(ds, rest) := span_digits t' in (String c ds, rest)
      else (EmptyString, t)
  | EmptyString => (EmptyString, EmptyString)
  end.

Fixpoint span_string (t : string) : option (string * string) :=
  match t with
  | String c t' =>
      if Ascii.eqb c "034" then Some (EmptyString, t')
      else if Ascii.eqb c "092" then None
      else match span_string t' with
           | Some (body, rest) => Some (String c body, rest)
           | None => None
           end
  | EmptyString => None
  end.

Definition parse_int (t : string) : option (pyobj * string) :=
  let '(sign, t') :=
    match t with
    | String "-" t' => ("-", t')
    | _ => (EmptyString, t)
    end in
  let '(ds, rest) := span_digits t' in
  match NilZero.int_of_string (sign +:+ ds) with
  | Some z => Some (PyInt (Z.of_int z), rest)
  | None => None
  end.

Fixpoint parse_value (fuel : nat) (t : string) : option (pyobj * string) :=
  match fuel with
  | O => None
  | S fuel' =>
      match skip_ws t with
      | String "{" t1 =>
          match skip_ws t1 with
          | String "}" t2 => Some (PyDict [], t2)
          | _ => parse_members fuel' t1 []
          end
      | String "[" t1 =>
          match skip_ws t1 with
          | String "]" t2 => Some (PyList [], t2)
          | _ => parse_elements fuel' t1 []
          end
      | String "034" t1 =>
          match span_string t1 with
          | Some (body, rest) => Some (PyStr body, rest)
          | None => None
          end
      | String "n" (String "u" (String "l" (String "l" rest))) =>
          Some (PyNone, rest)
      | String "t" (String "r" (String "u" (String "e" rest))) =>
          Some (PyBool true, rest)
      | String "f" (String "a" (String "l" (String "s" (String "e" rest)))) =>
          Some (PyBool false, rest)
      | t0 => parse_int t0
      end
  end
with parse_elements (fuel : nat) (t : string) (acc : list pyobj)
    : option (pyobj * string) :=
  match fuel with
  | O => None
  | S fuel' =>
      match parse_value fuel' t with
      | Some (v, rest) =>
          match skip_ws rest with
          | String "," rest' => parse_elements fuel' rest' (acc ++ [v])
          | String "]" rest' => Some (PyList (acc ++ [v]), rest')
          | _ => None
          end
      | None => None
      end
  end
with parse_members (fuel : nat) (t : string) (acc : list (string * pyobj))
    : option (pyobj * string) :=
  match fuel with
  | O => None
  | S fuel' =>
      match skip_ws t with
      | String "034" t1 =>
          match span_string t1 with
          | Some (key, rest) =>
              match skip_ws rest with
              | String ":" rest1 =>
                  match parse_value fuel' rest1 with
                  | Some (v, rest2) =>
                      match skip_ws rest2 with
                      | String "," rest3 =>
                          parse_members fuel' rest3 (dict_set acc key v)
                      | String "}" rest3 =>
                          Some (PyDict (dict_set acc key v), rest3)
                      | _ => None
                      end
                  | None => None
                  end
              | _ => None
              end
          | None => None
          end
      | _ => None
      end
  end.

Definition json_loads (t : string) : result pyobj :=
  match parse_value (2 * String.length t + 2) t with
  | Some (v, rest) =>
      match skip_ws rest with
      | EmptyString => Ok v
      | _ => Raise (JSONDecodeError "Extra data")
      end
  | None => Raise (JSONDecodeError "Expecting value")
  end.

Definition nodes_configuration_to_json (ncm_bin : string) : result string :=
  Ok ncm_bin.

Definition json_to_nodes_configuration (json_str : string) : result string :=
  Ok json_str.

Definition highlight (code : string) : string := code.

Definition upper_ascii (c : ascii) : ascii :=
  if (97 <=? nat_of_ascii c) && (nat_of_ascii c <=? 122)
  then ascii_of_nat (nat_of_ascii c - 32) else c.

Fixpoint str_upper (t : string) : string :=
  match t with
  | EmptyString => EmptyString
  | String c t' => String (upper_ascii c) (str_upper t')
  end.

Inductive LocationScope :=
| NODE | RACK | ROW | CLUSTER | DATA_CENTER | REGION | ROOT.

Definition LocationScope_getitem (name : string) : option LocationScope :=
  if String.eqb name "NODE" then Some NODE
  else if String.eqb name "RACK" then Some RACK
  else if String.eqb name "ROW" then Some ROW
  else if String.eqb name "CLUSTER" then Some CLUSTER
  else if String.eqb name "DATA_CENTER" then Some DATA_CENTER
  else if String.eqb name "REGION" then Some REGION
  else if String.eqb name "ROOT" then Some ROOT
  else None.

Definition LocationScope_eqb (s t : LocationScope) : bool :=
  match s, t with
  | NODE, NODE | RACK, RACK | ROW, ROW | CLUSTER, CLUSTER
  | DATA_CENTER, DATA_CENTER | REGION, REGION | ROOT, ROOT => true
  | _, _ => false
  end.

(** The commands on this library. *)
Definition show :=
  show json_loads json_dumps nodes_configuration_to_json highlight LocationScope.
Definition edit :=
  edit json_loads json_dumps nodes_configuration_to_json
    json_to_nodes_configuration LocationScope.
Definition bootstrap :=
  bootstrap str_upper LocationScope LocationScope_getitem LocationScope_eqb.
Definition shrink := shrink LocationScope.

(** A configuration, an edit of it, and answers of the world. *)
Definition base_items : list (string * pyobj) :=
  [("last_timestamp", PyInt 1000); ("nodes", PyList [PyInt 1; PyInt 2]);
   ("version", PyInt 5)].

Definition edited_items : list (string * pyobj) :=
  [("last_timestamp", PyInt 1000);
   ("nodes", PyList [PyInt 1; PyInt 2; PyInt 3]); ("version", PyInt 5)].

(** 1610612736.0 seconds since the epoch. *)
Definition clock : spec_float := S754_finite false 6755399441055744 (-22).

Definition answers (rc : Z) (saved : string) (t : spec_float) (c : string)
    (written : result unit) (again : bool) : attempt :=
  {| editor_returncode := rc; editor_saved := saved; time_time := t;
     choice := c; overwrite_result := written; try_again := again |}.

Definition cluster (script : list attempt) (rpc : result unit) : world :=
  {| client_result := Ok tt;
     fetch_result := Ok (json_dumps (PyDict base_items));
     attempts := script;
     admin_client_result := Ok tt;
     rpc_result := rpc |}.

(** Two objects in the store: the baseline and a parsed edit. *)
Definition two_objects (base edited : list (string * pyobj)) : state unit :=
  {| heap := [PyDict base; PyDict edited]; edited_text := None; trace := [] |}.

End Sample.

(** ** The ranges of the matcher

    What the matcher keeps within a range [alo..ahi) of [a] and [blo..bhi)
    of [b]: the cells of a row of its table, the block found, and the
    number of pops a work list can still take. *)
Definition cells_within (blo bound : nat) (j2len : gmap nat nat) : Prop :=
  forall j k, j2len !! j = Some k -> blo <= j /\ k <= j + 1 - blo /\ k <= bound.

Definition block_within (alo ahi blo bhi : nat) (best : difflib.block) : Prop :=
  let '(besti, bestj, bestsize) := best in
  alo <= besti /\ besti + bestsize <= ahi /\ blo <= bestj /\ bestj + bestsize <= bhi.

(** The cells of the row below [r] hold lengths of common runs that end
    in that row, and a block is a common run of [a] and [b]. *)
Definition cells_match (a b : list string) (r : nat) (j2len : gmap nat nat)
    : Prop :=
  forall j k,
    j2len !! j = Some k ->
    k <= r /\ k <= S j
    /\ forall t, t < k -> nth (r - 1 - t) a "" = nth (j - t) b "".

Definition block_match (a b : list string) (best : difflib.block) : Prop :=
  let '(besti, bestj, bestsize) := best in
  forall t, t < bestsize -> nth (besti + t) a "" = nth (bestj + t) b "".

(** A block of [get_matching_blocks]: not empty, within both sequences, and
    a common run. *)
Definition block_good (a b : list string) (blk : difflib.block) : Prop :=
  snd blk <> 0
  /\ block_within 0 (length a) 0 (length b) blk
  /\ block_match a b blk.

Definition range_ok (r : nat * nat * nat * nat) : Prop :=
  let '(alo, ahi, blo, bhi) := r in alo <= ahi /\ blo <= bhi.

(** A block as a range; a range that lies before another in both
    sequences; ranges of which any two lie one before the other; blocks in
    increasing order. *)
Definition block_range (blk : difflib.block) : nat * nat * nat * nat :=
  let '(i, j, k) := blk in (i, i + k, j, j + k).

Definition before (r s : nat * nat * nat * nat) : Prop :=
  let '(_, ahi, _, bhi) := r in
  let '(alo, _, blo, _) := s in
  ahi <= alo /\ bhi <= blo.

Definition apart (r s : nat * nat * nat * nat) : Prop :=
  before r s \/ before s r.

Fixpoint chain (l : list (nat * nat * nat * nat)) : Prop :=
  match l with
  | [] => True
  | r :: l' => Forall (apart r) l' /\ chain l'
  end.

Fixpoint ascending (l : list difflib.block) : Prop :=
  match l with
  | [] => True
  | x :: l' =>
      Forall (fun y => before (block_range x) (block_range y)) l'
      /\ ascending l'
  end.

(** No block ends where the next one starts in both sequences. *)
Fixpoint separate (l : list difflib.block) : Prop :=
  match l with
  | (i, j, k) :: (((i', j', _) :: _) as l') =>
      (i + k <> i' \/ j + k <> j') /\ separate l'
  | _ => True
  end.

(** The part of [a] and the part of [b] an opcode speaks of, and the
    sequence an edit script makes of [a]: an [equal] opcode copies its part
    of [a], any other opcode puts its part of [b] in the place of its part
    of [a]. *)
Definition a_part (a : list string) (c : difflib.opcode) : list string :=
  let '(_, i1, i2, _, _) := c in difflib.slice a i1 i2.

Definition b_part (b : list string) (c : difflib.opcode) : list string :=
  let '(_, _, _, j1, j2) := c in difflib.slice b j1 j2.

Definition apply_opcodes (a b : list string) (codes : list difflib.opcode)
    : list string :=
  concat (map (fun c => if difflib.is_equal c then a_part a c else b_part b c)
            codes).

(** The shape of an opcode: [replace] stands for lines of both sequences,
    [delete] for lines of [a] only, [insert] for lines of [b] only, and
    [equal] for as many lines of either. *)
Definition opcode_shape (c : difflib.opcode) : Prop :=
  let '(t, i1, i2, j1, j2) := c in
  match t with
  | difflib.Replace => i1 < i2 /\ j1 < j2
  | difflib.Delete => i1 < i2 /\ j1 = j2
  | difflib.Insert => i1 = i2 /\ j1 < j2
  | difflib.Equal => i1 < i2 /\ i2 - i1 = j2 - j1
  end.

(** What a list of opcodes has to be for the stretch of [a] from [i] to
    [i'] and the stretch of [b] from [j] to [j']. *)
Definition covers (a b : list string) (codes : list difflib.opcode)
    (i i' j j' : nat) : Prop :=
  concat (map (a_part a) codes) = difflib.slice a i i'
  /\ concat (map (b_part b) codes) = difflib.slice b j j'
  /\ Forall opcode_shape codes
  /\ Forall (fun c => difflib.is_equal c = true -> a_part a c = b_part b c)
       codes.

(** An edit script for the stretch of [a] from [i] to [i'] and the stretch
    of [b] from [j] to [j']: each opcode starts where the one before it
    ends, and an [equal] opcode stands for as many lines of [a] as of [b],
    the same ones. *)
Fixpoint script (a b : list string) (codes : list difflib.opcode)
    (i i' j j' : nat) : Prop :=
  match codes with
  | [] => i = i' /\ j = j'
  | (t, i1, i2, j1, j2) :: codes' =>
      i1 = i /\ j1 = j /\ i1 <= i2 /\ j1 <= j2
      /\ (t = difflib.Equal ->
          i2 - i1 = j2 - j1 /\ difflib.slice a i1 i2 = difflib.slice b j1 j2)
      /\ script a b codes' i2 i' j2 j'
  end.

(** The ranges in the header of a hunk, as [unified_diff] takes them from
    the first and the last opcode of a group. *)
Definition span (group : list difflib.opcode) : option (nat * nat * nat * nat) :=
  match group, last group with
  | (_, first1, _, first3, _) :: _, Some (_, _, last2, _, last4) =>
      Some (first1, last2, first3, last4)
  | _, _ => None
  end.

(** Groups of opcodes that account for every difference between [a] from
    [i] on and [b] from [j] on: up to the first group the two sequences are
    the same, the group is an edit script for the ranges of its header, and
    so on from where it ends; after the last group the two are the same to
    their ends. *)
Fixpoint hunks (a b : list string) (groups : list (list difflib.opcode))
    (i j : nat) : Prop :=
  match groups with
  | [] => difflib.slice a i (length a) = difflib.slice b j (length b)
  | group :: groups' =>
      exists i1 i2 j1 j2,
        span group = Some (i1, i2, j1, j2)
        /\ i <= i1 /\ j <= j1
        /\ difflib.slice a i i1 = difflib.slice b j j1
        /\ script a b group i1 i2 j1 j2
        /\ hunks a b groups' i2 j2
  end.

(** What the hunks make of [a] from [i] on: the lines up to a hunk are
    kept, the hunk's opcodes are applied, and the lines after the last hunk
    are kept. *)
Fixpoint patch_from (a b : list string) (groups : list (list difflib.opcode))
    (i : nat) : list string :=
  match groups with
  | [] => drop i a
  | group :: groups' =>
      match span group with
      | Some (i1, i2, _, _) =>
          difflib.slice a i i1 ++ apply_opcodes a b group
          ++ patch_from a b groups' i2
      | None => drop i a
      end
  end.

Fixpoint pops (queue : list (nat * nat * nat * nat)) : nat :=
  match queue with
  | [] => 0
  | (alo, ahi, _, _) :: queue' => 2 * (ahi - alo) + 1 + pops queue'
  end.

(** ** The diagonal of the matcher's table

    Quantities used to follow [find_longest_match] when both sequences are
    the same list [a]. *)
Section Diagonal.
Import difflib.
Variable a : list string.

(** The length of the run of elements that are not popular and that ends
    at index [j] of [a]: what the matcher can see of the diagonal. *)
Fixpoint run (j : nat) : nat :=
  match j with
  | O => if popular a (nth 0 a "") then 0 else 1
  | S j' => if popular a (nth j a "") then 0 else S (run j')
  end.

Definition prevrun (j : nat) : nat :=
  match j with O => 0 | S j' => run j' end.

(** What one row of the table knows: no entry exceeds the run on the
    diagonal, neither in its own column nor in the row's. *)
Definition row_ok (i : nat) (j2len : gmap nat nat) : Prop :=
  (forall j, j2lenget j2len j <= prevrun j) /\
  (forall j, j2lenget j2len j <= prevrun i) /\
  j2lenget j2len i = prevrun i.

Definition entries_ok (i : nat) (newj2len : gmap nat nat) : Prop :=
  (forall j, default 0 (newj2len !! j) <= run j) /\
  (forall j, default 0 (newj2len !! j) <= run i).

Definition best_ok (i : nat) (best : block) : Prop :=
  let '(besti, bestj, bestsize) := best in
  besti = bestj /\ besti + bestsize <= length a /\
  forall r, r < i -> run r <= bestsize.

End Diagonal.

(** ** The matcher stays within its ranges and its fuel *)
Section Ranges.
Import difflib.
Variables a b : list string.

Lemma scan_row_within i alo blo bhi j2len js : forall newj2len best,
  alo <= i -> blo <= bhi ->
  cells_within blo (i - alo) j2len ->
  cells_within blo (i + 1 - alo) newj2len ->
  block_within alo (i + 1) blo bhi best ->
  cells_within blo (i + 1 - alo) (fst (scan_row i blo bhi j2len js newj2len best))
  /\ block_within alo (i + 1) blo bhi
       (snd (scan_row i blo bhi j2len js newj2len best)).
Proof.
  induction js as [|j js IH]; intros newj2len best Hi Hb Hprev Hnew Hbest; simpl.
  - split; assumption.
  - destruct (Nat.ltb_spec j blo) as [_|Hlo]; [apply IH; assumption|].
    destruct (Nat.leb_spec bhi j) as [_|Hhi]; [split; assumption|].
    destruct best as [[besti bestj] bestsize].
    assert (Hk : j2lenget j2len j <= j - blo /\ j2lenget j2len j <= i - alo).
    { unfold j2lenget. destruct j as [|j']; [lia|].
      destruct (j2len !! j') as [k'|] eqn:Hcell; simpl; [|lia].
      destruct (Hprev _ _ Hcell). lia. }
    apply IH; try assumption.
    + intros j0 k0. destruct (Nat.eq_dec j j0) as [<-|Hne].
      * rewrite lookup_insert_eq. intros [= <-]. lia.
      * rewrite lookup_insert_ne by exact Hne. apply Hnew.
    + destruct (Nat.ltb_spec bestsize (S (j2lenget j2len j))); [|exact Hbest].
      simpl. lia.
Qed.

Lemma scan_rows_within len : forall i alo blo bhi j2len best,
  alo <= i -> blo <= bhi ->
  cells_within blo (i - alo) j2len ->
  block_within alo i blo bhi best ->
  block_within alo (i + len) blo bhi
    (scan_rows a b (seq i len) blo bhi j2len best).
Proof.
  induction len as [|len IH]; intros i alo blo bhi j2len best Hi Hb Hprev Hbest;
    simpl.
  - rewrite Nat.add_0_r. exact Hbest.
  - pose proof (scan_row_within i alo blo bhi j2len (b2j b (nth i a "")) ∅ best
                  Hi Hb Hprev) as Hrow.
    destruct (scan_row i blo bhi j2len (b2j b (nth i a "")) ∅ best)
      as [newj2len best'].
    destruct Hrow as [Hcells Hbest'].
    + intros j k. rewrite lookup_empty. discriminate.
    + destruct best as [[besti bestj] bestsize]. simpl in *. lia.
    + replace (i + S len) with (S i + len) by lia.
      apply IH; try assumption; try lia.
      * replace (S i - alo) with (i + 1 - alo) by lia. exact Hcells.
      * replace (S i) with (i + 1) by lia. exact Hbest'.
Qed.

Lemma extend_low_within junk n : forall alo ahi blo bhi best,
  block_within alo ahi blo bhi best ->
  block_within alo ahi blo bhi (extend_low a b junk n alo blo best).
Proof.
  induction n as [|n IH]; intros alo ahi blo bhi [[besti bestj] bestsize] Hbest;
    simpl; [exact Hbest|].
  destruct (Nat.ltb_spec alo besti); simpl; [|exact Hbest].
  destruct (Nat.ltb_spec blo bestj); simpl; [|exact Hbest].
  destruct (_ && _); [|exact Hbest].
  apply IH. simpl in *. lia.
Qed.

Lemma extend_high_within junk n : forall alo ahi blo bhi best,
  block_within alo ahi blo bhi best ->
  block_within alo ahi blo bhi (extend_high a b junk n ahi bhi best).
Proof.
  induction n as [|n IH]; intros alo ahi blo bhi [[besti bestj] bestsize] Hbest;
    simpl; [exact Hbest|].
  destruct (Nat.ltb_spec (besti + bestsize) ahi); simpl; [|exact Hbest].
  destruct (Nat.ltb_spec (bestj + bestsize) bhi); simpl; [|exact Hbest].
  destruct (_ && _); [|exact Hbest].
  apply IH. simpl in *. lia.
Qed.

(** The block found lies within the range searched. *)
Lemma find_longest_match_within alo ahi blo bhi :
  alo <= ahi -> blo <= bhi ->
  block_within alo ahi blo bhi (find_longest_match a b alo ahi blo bhi).
Proof.
  intros Ha Hb. unfold find_longest_match.
  apply extend_high_within, extend_low_within, extend_high_within,
    extend_low_within.
  replace ahi with (alo + (ahi - alo)) at 1 by lia.
  apply scan_rows_within; try lia.
  - intros j k. rewrite lookup_empty. discriminate.
  - simpl. lia.
Qed.

(** More fuel than the pops a work list can take changes nothing. *)
Lemma match_queue_fuel fuel : forall queue matching_blocks extra,
  Forall range_ok queue ->
  pops queue <= fuel ->
  match_queue a b (fuel + extra) queue matching_blocks
  = match_queue a b fuel queue matching_blocks.
Proof.
  induction fuel as [|fuel IH]; intros queue acc extra Hok Hpops.
  - destruct queue as [|[[[alo ahi] blo] bhi] queue]; simpl in *; [|lia].
    destruct extra; reflexivity.
  - destruct queue as [|[[[alo ahi] blo] bhi] queue]; [reflexivity|].
    simpl in Hpops. inversion Hok as [|? ? Hr Hok']; subst.
    destruct Hr as [Ha Hb].
    cbn [Nat.add match_queue].
    pose proof (find_longest_match_within alo ahi blo bhi Ha Hb) as Hin.
    destruct (find_longest_match a b alo ahi blo bhi) as [[i j] k].
    simpl in Hin.
    destruct (Nat.eqb_spec k 0) as [->|Hk]; [apply IH; [exact Hok'|lia]|].
    apply IH.
    + destruct (Nat.ltb_spec alo i), (Nat.ltb_spec blo j),
        (Nat.ltb_spec (i + k) ahi), (Nat.ltb_spec (j + k) bhi); simpl;
        repeat (constructor; [simpl; lia|]); exact Hok'.
    + destruct (Nat.ltb_spec alo i), (Nat.ltb_spec blo j),
        (Nat.ltb_spec (i + k) ahi), (Nat.ltb_spec (j + k) bhi); simpl; lia.
Qed.

(** The fuel of [get_matching_blocks] is enough for any two sequences. *)
Lemma get_matching_blocks_fuel extra :
  match_queue a b (2 * length a + 1 + extra) [(0, length a, 0, length b)] []
  = match_queue a b (2 * length a + 1) [(0, length a, 0, length b)] [].
Proof.
  apply match_queue_fuel.
  - constructor; [simpl; lia|constructor].
  - simpl. lia.
Qed.

End Ranges.

(** ** Facts about the sequence matcher *)
Section DiffSelf.
Import difflib.
Variable a : list string.

Local Abbreviation run := (run a).
Local Abbreviation prevrun := (prevrun a).
Local Abbreviation row_ok := (row_ok a).
Local Abbreviation entries_ok := (entries_ok a).
Local Abbreviation best_ok := (best_ok a).

Lemma run_step j : popular a (nth j a "") = false -> run j = S (prevrun j).
Proof. destruct j; simpl; intros ->; reflexivity. Qed.

Lemma run_popular j : popular a (nth j a "") = true -> run j = 0.
Proof. destruct j; simpl; intros ->; reflexivity. Qed.

Lemma run_le j : run j <= S j.
Proof.
  induction j as [|j IH]; simpl.
  - destruct (popular a _); lia.
  - destruct (popular a _); lia.
Qed.

Lemma indices_spec elt (l : list string) j0 j :
  In j (indices elt l j0) <->
  j0 <= j /\ j < j0 + length l /\ nth (j - j0) l "" = elt.
Proof.
  revert j0; induction l as [|x l IH]; intros j0; simpl.
  - split; [tauto | lia].
  - destruct (String.eqb_spec elt x) as [->|Hne]; simpl; rewrite ?IH.
    + split.
      * intros [<-|(H1 & H2 & H3)].
        { rewrite Nat.sub_diag. repeat split; lia. }
        { replace (j - j0) with (S (j - S j0)) by lia. repeat split; try lia. exact H3. }
      * intros (H1 & H2 & H3).
        destruct (Nat.eq_dec j0 j) as [->|Hn]; [left; reflexivity | right].
        replace (j - j0) with (S (j - S j0)) in H3 by lia. repeat split; try lia. exact H3.
    + split.
      * intros (H1 & H2 & H3).
        replace (j - j0) with (S (j - S j0)) by lia. repeat split; try lia. exact H3.
      * intros (H1 & H2 & H3).
        destruct (Nat.eq_dec j0 j) as [->|Hn].
        { rewrite Nat.sub_diag in H3. congruence. }
        replace (j - j0) with (S (j - S j0)) in H3 by lia. repeat split; try lia. exact H3.
Qed.

Lemma indices_sorted elt (l : list string) j0 :
  StronglySorted lt (indices elt l j0).
Proof.
  revert j0; induction l as [|x l IH]; intros j0; simpl.
  - constructor.
  - destruct (String.eqb elt x); [|apply IH].
    constructor; [apply IH|].
    apply List.Forall_forall. intros j Hj.
    apply indices_spec in Hj. lia.
Qed.

Lemma scan_row_diag i j2len js :
  i < length a ->
  popular a (nth i a "") = false ->
  row_ok i j2len ->
  StronglySorted lt js ->
  (forall j, In j js -> j < length a /\ nth j a "" = nth i a "") ->
  forall newj2len best,
    entries_ok i newj2len ->
    best_ok i best ->
    (In i js \/ (newj2len !! i = Some (run i) /\ run i <= snd best)) ->
    let '(newj2len', best') := scan_row i 0 (length a) j2len js newj2len best in
    entries_ok i newj2len' /\ best_ok (S i) best' /\
    newj2len' !! i = Some (run i).
Proof.
  intros Hi Hpop (HA1 & HA2 & HA3).
  induction js as [|j js IH]; intros Hsort Hjs newj2len [[besti bestj] bestsize]
    (HN1 & HN2) (HB1 & HB3 & HB2) Hdone; simpl.
  - destruct Hdone as [[]|[Hd1 Hd2]]. simpl in Hd2.
    split; [split; assumption|]. split; [|assumption].
    repeat split; try assumption.
    intros r Hr. destruct (Nat.eq_dec r i) as [->|]; [assumption|apply HB2; lia].
  - inversion Hsort as [|? ? Hsort' Hlt]; subst.
    destruct (Hjs j (or_introl eq_refl)) as [Hjn Hje].
    destruct (Nat.leb_spec (length a) j) as [Hge|_]; [lia|].
    assert (Hrunj : run j = S (prevrun j)).
    { apply run_step. rewrite Hje. exact Hpop. }
    assert (Hruni : run i = S (prevrun i)) by (apply run_step; exact Hpop).
    assert (Hk1 : S (j2lenget j2len j) <= run j) by (specialize (HA1 j); lia).
    assert (Hk2 : S (j2lenget j2len j) <= run i) by (specialize (HA2 j); lia).
    assert (HN' : entries_ok i (<[j:=S (j2lenget j2len j)]> newj2len)).
    { split; intros j'.
      - destruct (Nat.eq_dec j j') as [<-|Hne].
        + rewrite lookup_insert_eq. simpl. exact Hk1.
        + rewrite lookup_insert_ne by exact Hne. apply HN1.
      - destruct (Nat.eq_dec j j') as [<-|Hne].
        + rewrite lookup_insert_eq. simpl. exact Hk2.
        + rewrite lookup_insert_ne by exact Hne. apply HN2. }
    apply IH; clear IH.
    + exact Hsort'.
    + intros j' Hj'. apply Hjs. right. exact Hj'.
    + exact HN'.
    + destruct (Nat.ltb_spec bestsize (S (j2lenget j2len j))) as [Hup|Hno].
      * (* the block grows: only the diagonal can do that *)
        assert (j = i) as ->.
        { destruct (Nat.lt_trichotomy j i) as [Hlt'|[Heq|Hgt]]; [|exact Heq|].
          - specialize (HB2 j Hlt'). lia.
          - destruct Hdone as [[Heq|Hin]|[_ Hd2]]; [lia| |simpl in Hd2; lia].
            rewrite List.Forall_forall in Hlt. specialize (Hlt i Hin). lia. }
        pose proof (run_le i).
        split; [lia|]. split; [lia|].
        intros r Hr. specialize (HB2 r Hr). lia.
      * repeat split; assumption.
    + destruct (Nat.eq_dec j i) as [->|Hne].
      * right. rewrite lookup_insert_eq. rewrite HA3, <- Hruni. split; [reflexivity|].
        destruct (Nat.ltb_spec bestsize (run i)); simpl; lia.
      * destruct Hdone as [[Heq|Hin]|[Hd1 Hd2]]; [congruence|left; exact Hin|].
        right. rewrite lookup_insert_ne by exact Hne. split; [exact Hd1|].
        simpl in Hd2.
        destruct (Nat.ltb_spec bestsize (S (j2lenget j2len j))); simpl; lia.
Qed.

Lemma row_ok_empty i : run i = 0 -> row_ok (S i) ∅.
Proof.
  intros Hrun. unfold row_ok, j2lenget.
  repeat split; try intros [|j]; simpl; rewrite ?lookup_empty; simpl; lia.
Qed.

Lemma scan_rows_diag len : forall i j2len best,
  i + len <= length a ->
  row_ok i j2len ->
  best_ok i best ->
  best_ok (i + len) (scan_rows a a (seq i len) 0 (length a) j2len best).
Proof.
  induction len as [|len IH]; intros i j2len best Hlen Hrow Hbest; simpl.
  - rewrite Nat.add_0_r. exact Hbest.
  - replace (i + S len) with (S i + len) by lia.
    unfold b2j. destruct (popular a (nth i a "")) eqn:Hpop; simpl.
    + apply IH; [lia|apply row_ok_empty, run_popular, Hpop|].
      destruct best as [[besti bestj] bestsize].
      destruct Hbest as (HB1 & HB3 & HB2). repeat split; try assumption.
      intros r Hr. destruct (Nat.eq_dec r i) as [->|].
      * rewrite (run_popular _ Hpop). lia.
      * apply HB2. lia.
    + pose proof (scan_row_diag i j2len (indices (nth i a "") a 0)
                    ltac:(lia) Hpop Hrow (indices_sorted _ _ _)) as Hscan.
      specialize (Hscan
        ltac:(intros j Hj; apply indices_spec in Hj;
              rewrite Nat.sub_0_r in Hj; split; [lia|apply Hj]) ∅ best).
      destruct (scan_row i 0 (length a) j2len (indices (nth i a "") a 0) ∅ best)
        as [newj2len best'].
      destruct Hscan as ((HN1 & HN2) & Hbest' & Hdiag).
      * split; intros j; rewrite lookup_empty; simpl; lia.
      * exact Hbest.
      * left. apply indices_spec. rewrite Nat.sub_0_r. repeat split; lia.
      * apply IH; [lia| |exact Hbest'].
        unfold row_ok, j2lenget. repeat split.
        -- intros [|j]; simpl; [lia|apply HN1].
        -- intros [|j]; simpl; [lia|apply HN2].
        -- simpl. rewrite Hdiag. reflexivity.
Qed.

Lemma extend_low_diag m : forall s,
  extend_low a a false m 0 0 (m, m, s) = (0, 0, s + m).
Proof.
  induction m as [|m IH]; intros s; simpl.
  - rewrite Nat.add_0_r. reflexivity.
  - rewrite Nat.sub_0_r, String.eqb_refl. simpl.
    rewrite IH. f_equal. lia.
Qed.

Lemma extend_high_diag fuel : forall s,
  s <= length a -> length a - s <= fuel ->
  extend_high a a false fuel (length a) (length a) (0, 0, s) = (0, 0, length a).
Proof.
  induction fuel as [|fuel IH]; intros s Hs Hfuel; simpl.
  - f_equal. lia.
  - destruct (Nat.ltb_spec s (length a)) as [Hlt|Hge]; simpl.
    + rewrite String.eqb_refl. apply IH; lia.
    + f_equal. lia.
Qed.

Lemma extend_high_full junk fuel :
  extend_high a a junk fuel (length a) (length a) (0, 0, length a)
  = (0, 0, length a).
Proof.
  destruct fuel as [|fuel]; simpl; [reflexivity|].
  rewrite Nat.ltb_irrefl. reflexivity.
Qed.

Lemma find_longest_match_self :
  find_longest_match a a 0 (length a) 0 (length a) = (0, 0, length a).
Proof.
  unfold find_longest_match. rewrite Nat.sub_0_r.
  pose proof (scan_rows_diag (length a) 0 ∅ (0, 0, 0)) as Hbest.
  destruct (scan_rows a a (seq 0 (length a)) 0 (length a) ∅ (0, 0, 0))
    as [[besti bestj] bestsize].
  destruct Hbest as (<- & Hle & _).
  - lia.
  - unfold row_ok, j2lenget. repeat split; try intros [|j]; simpl;
      rewrite ?lookup_empty; simpl; lia.
  - simpl. repeat split; try lia.
  - simpl in Hle. cbn [fst]. rewrite extend_low_diag.
    rewrite extend_high_diag by lia. cbn [fst extend_low].
    apply extend_high_full.
Qed.

Lemma get_opcodes_self :
  get_opcodes a a =
  if length a =? 0 then [] else [(Equal, 0, length a, 0, length a)].
Proof.
  unfold get_opcodes, get_matching_blocks.
  replace (2 * length a + 1) with (S (2 * length a)) by lia.
  cbn [match_queue]. rewrite find_longest_match_self.
  destruct (Nat.eqb_spec (length a) 0) as [H0|Hn0].
  - destruct (2 * length a); simpl; rewrite H0; reflexivity.
  - rewrite !Nat.ltb_irrefl. cbn [andb].
    replace (0 + length a <? length a) with false
      by (symmetry; apply Nat.ltb_ge; lia).
    assert (Hq : forall fuel (l : list block), match_queue a a fuel [] l = l)
      by (intros [|fuel] l; reflexivity).
    rewrite Hq. simpl.
    destruct (Nat.eqb_spec (length a) 0) as [|_]; [contradiction|].
    simpl. rewrite ?Nat.ltb_irrefl.
    destruct (Nat.eqb_spec (length a) 0) as [|_]; [contradiction|].
    simpl. rewrite ?Nat.ltb_irrefl. reflexivity.
Qed.

(** The matcher finds no change between a sequence and itself. *)
Lemma unified_diff_self : unified_diff a a = [].
Proof.
  unfold unified_diff, get_grouped_opcodes. rewrite get_opcodes_self.
  destruct (Nat.eqb_spec (length a) 0) as [H0|Hn0]; [reflexivity|].
  cbn [fix_first fix_last split_groups tag_eqb andb app is_equal].
  replace (3 + 3 <? _) with false; [reflexivity|].
  symmetry. apply Nat.ltb_ge. lia.
Qed.

End DiffSelf.

(** ** An empty diff means equal sequences *)
Section DiffEmpty.
Import difflib.
Variables a b : list string.

Lemma b2j_spec elt j : In j (b2j b elt) -> j < length b /\ nth j b "" = elt.
Proof.
  unfold b2j. destruct (popular b elt); [intros []|].
  intros Hin. apply indices_spec in Hin. rewrite Nat.sub_0_r in Hin.
  split; [lia|apply Hin].
Qed.

Lemma scan_row_match i blo bhi j2len js : forall newj2len best,
  (forall j, In j js -> nth j b "" = nth i a "") ->
  cells_match a b i j2len ->
  cells_match a b (S i) newj2len ->
  block_match a b best ->
  cells_match a b (S i) (fst (scan_row i blo bhi j2len js newj2len best))
  /\ block_match a b (snd (scan_row i blo bhi j2len js newj2len best)).
Proof.
  induction js as [|j js IH]; intros newj2len best Hjs Hprev Hnew Hbest; simpl.
  - split; assumption.
  - assert (Hjs' : forall j0, In j0 js -> nth j0 b "" = nth i a "")
      by (intros j0 Hin; apply Hjs; right; exact Hin).
    destruct (j <? blo); [apply IH; assumption|].
    destruct (bhi <=? j); [split; assumption|].
    destruct best as [[besti bestj] bestsize].
    assert (Hcell : S (j2lenget j2len j) <= S i /\ S (j2lenget j2len j) <= S j
                    /\ forall t, t < S (j2lenget j2len j) ->
                                 nth (i - t) a "" = nth (j - t) b "").
    { unfold j2lenget. destruct j as [|j'].
      - split; [lia|]. split; [lia|]. intros t Ht.
        replace t with 0 by lia. rewrite Nat.sub_0_r.
        symmetry. apply (Hjs 0). left. reflexivity.
      - destruct (j2len !! j') as [k'|] eqn:Hk'; simpl.
        + destruct (Hprev _ _ Hk') as (H1 & H2 & H3).
          split; [lia|]. split; [lia|]. intros [|t] Ht.
          * rewrite !Nat.sub_0_r. symmetry. apply (Hjs (S j')). left. reflexivity.
          * replace (i - S t) with (i - 1 - t) by lia.
            replace (S j' - S t) with (j' - t) by lia.
            apply H3. lia.
        + split; [lia|]. split; [lia|]. intros t Ht.
          replace t with 0 by lia. rewrite !Nat.sub_0_r.
          symmetry. apply (Hjs (S j')). left. reflexivity. }
    destruct Hcell as (Hk1 & Hk2 & Hk3).
    apply IH; try assumption.
    + intros j0 k0. destruct (Nat.eq_dec j j0) as [<-|Hne].
      * rewrite lookup_insert_eq. intros [= <-].
        split; [lia|]. split; [lia|]. intros t Ht.
        replace (S i - 1 - t) with (i - t) by lia. apply Hk3. exact Ht.
      * rewrite lookup_insert_ne by exact Hne. apply Hnew.
    + destruct (bestsize <? S (j2lenget j2len j)); [|exact Hbest].
      intros t Ht.
      replace (i + 1 - S (j2lenget j2len j) + t)
        with (i - (j2lenget j2len j - t)) by lia.
      replace (j + 1 - S (j2lenget j2len j) + t)
        with (j - (j2lenget j2len j - t)) by lia.
      apply Hk3. lia.
Qed.

Lemma scan_rows_match len : forall i blo bhi j2len best,
  cells_match a b i j2len ->
  block_match a b best ->
  block_match a b (scan_rows a b (seq i len) blo bhi j2len best).
Proof.
  induction len as [|len IH]; intros i blo bhi j2len best Hprev Hbest; simpl.
  - exact Hbest.
  - pose proof (scan_row_match i blo bhi j2len (b2j b (nth i a "")) ∅ best)
      as Hrow.
    destruct (scan_row i blo bhi j2len (b2j b (nth i a "")) ∅ best)
      as [newj2len best'].
    destruct Hrow as [Hcells Hbest']; try assumption.
    + intros j Hin. apply b2j_spec in Hin. apply Hin.
    + intros j k. rewrite lookup_empty. discriminate.
    + apply IH; assumption.
Qed.

Lemma extend_low_match junk n : forall alo blo best,
  block_match a b best ->
  block_match a b (extend_low a b junk n alo blo best).
Proof.
  induction n as [|n IH]; intros alo blo [[besti bestj] bestsize] Hbest;
    simpl; [exact Hbest|].
  destruct (Nat.ltb_spec alo besti); simpl; [|exact Hbest].
  destruct (Nat.ltb_spec blo bestj); simpl; [|exact Hbest].
  destruct (_ && _) eqn:Hcond; [|exact Hbest].
  apply andb_true_iff in Hcond. destruct Hcond as [_ Heq].
  apply String.eqb_eq in Heq.
  apply IH. intros [|t] Ht.
  - rewrite !Nat.add_0_r. exact Heq.
  - replace (besti - 1 + S t) with (besti + t) by lia.
    replace (bestj - 1 + S t) with (bestj + t) by lia.
    apply Hbest. lia.
Qed.

Lemma extend_high_match junk n : forall ahi bhi best,
  block_match a b best ->
  block_match a b (extend_high a b junk n ahi bhi best).
Proof.
  induction n as [|n IH]; intros ahi bhi [[besti bestj] bestsize] Hbest;
    simpl; [exact Hbest|].
  destruct (Nat.ltb_spec (besti + bestsize) ahi); simpl; [|exact Hbest].
  destruct (Nat.ltb_spec (bestj + bestsize) bhi); simpl; [|exact Hbest].
  destruct (_ && _) eqn:Hcond; [|exact Hbest].
  apply andb_true_iff in Hcond. destruct Hcond as [_ Heq].
  apply String.eqb_eq in Heq.
  apply IH. intros t Ht.
  destruct (Nat.eq_dec t bestsize) as [->|Hne]; [exact Heq|].
  apply Hbest. lia.
Qed.

(** The block found is a common run. *)
Lemma find_longest_match_match alo ahi blo bhi :
  block_match a b (find_longest_match a b alo ahi blo bhi).
Proof.
  unfold find_longest_match.
  apply extend_high_match, extend_low_match, extend_high_match,
    extend_low_match, scan_rows_match.
  - intros j k. rewrite lookup_empty. discriminate.
  - intros t Ht. lia.
Qed.

Lemma match_queue_good fuel : forall queue matching_blocks,
  Forall (fun r => range_ok r
                   /\ snd (fst (fst r)) <= length a /\ snd r <= length b) queue ->
  Forall (block_good a b) matching_blocks ->
  Forall (block_good a b) (match_queue a b fuel queue matching_blocks).
Proof.
  induction fuel as [|fuel IH]; intros queue acc Hq Hacc.
  - destruct queue; exact Hacc.
  - destruct queue as [|[[[alo ahi] blo] bhi] queue]; [exact Hacc|].
    inversion Hq as [|? ? Hr Hq']; subst. simpl in Hr.
    destruct Hr as ((Ha & Hb) & Hla & Hlb).
    cbn [match_queue].
    pose proof (find_longest_match_within a b alo ahi blo bhi Ha Hb) as Hin.
    pose proof (find_longest_match_match alo ahi blo bhi) as Hm.
    destruct (find_longest_match a b alo ahi blo bhi) as [[i j] k].
    simpl in Hin.
    destruct (Nat.eqb_spec k 0) as [->|Hk]; [apply IH; assumption|].
    apply IH.
    + destruct (Nat.ltb_spec alo i), (Nat.ltb_spec blo j),
        (Nat.ltb_spec (i + k) ahi), (Nat.ltb_spec (j + k) bhi); simpl;
        repeat (constructor; [simpl; lia|]); exact Hq'.
    + apply Forall_app. split; [exact Hacc|].
      constructor; [|constructor].
      split; [exact Hk|]. split; [simpl; lia|exact Hm].
Qed.

Lemma sort_blocks_good (l : list block) :
  Forall (block_good a b) l -> Forall (block_good a b) (sort_blocks l).
Proof.
  induction 1 as [|x l Hx Hl IH]; simpl; [constructor|].
  fold (sort_blocks l). induction IH as [|y l' Hy Hl' IH']; simpl.
  - constructor; [exact Hx|constructor].
  - destruct (block_leb x y); constructor; auto.
Qed.

Lemma collapse_good (l : list block) : forall cur,
  Forall (block_good a b) l ->
  (snd cur = 0 \/ block_good a b cur) ->
  Forall (block_good a b) (collapse l cur).
Proof.
  induction l as [|[[i2 j2] k2] l IH]; intros [[i1 j1] k1] Hl Hcur; simpl.
  - destruct (Nat.eqb_spec k1 0) as [|Hk]; [constructor|].
    destruct Hcur as [Hz|Hg]; [contradiction|]. constructor; [exact Hg|constructor].
  - inversion Hl as [|? ? Hx Hl']; subst.
    destruct Hx as (Hk2 & Hw2 & Hm2). simpl in Hk2, Hw2, Hm2.
    destruct (Nat.eqb_spec (i1 + k1) i2) as [Hi|_]; simpl.
    + destruct (Nat.eqb_spec (j1 + k1) j2) as [Hj|_]; simpl.
      * apply IH; [exact Hl'|]. right.
        split; [simpl; lia|]. split; [simpl; lia|].
        intros t Ht. destruct (Nat.lt_ge_cases t k1) as [Hlt|Hge].
        -- destruct Hcur as [Hz|(_ & _ & Hm1)]; [simpl in Hz; lia|].
           apply Hm1. exact Hlt.
        -- replace (i1 + t) with (i2 + (t - k1)) by lia.
           replace (j1 + t) with (j2 + (t - k1)) by lia.
           apply Hm2. lia.
      * apply Forall_app. split.
        -- destruct (Nat.eqb_spec k1 0) as [|Hk]; [constructor|].
           destruct Hcur as [Hz|Hg]; [contradiction|].
           constructor; [exact Hg|constructor].
        -- apply IH; [exact Hl'|]. right. split; [exact Hk2|split; [exact Hw2|exact Hm2]].
    + apply Forall_app. split.
      * destruct (Nat.eqb_spec k1 0) as [|Hk]; [constructor|].
        destruct Hcur as [Hz|Hg]; [contradiction|].
        constructor; [exact Hg|constructor].
      * apply IH; [exact Hl'|]. right. split; [exact Hk2|split; [exact Hw2|exact Hm2]].
Qed.

(** The matching blocks but the closing one are good. *)
Lemma get_matching_blocks_good :
  exists blocks,
    get_matching_blocks a b = blocks ++ [(length a, length b, 0)]
    /\ Forall (block_good a b) blocks.
Proof.
  unfold get_matching_blocks. eexists. split; [reflexivity|].
  apply collapse_good; [|left; reflexivity].
  apply sort_blocks_good, match_queue_good; [|constructor].
  constructor; [|constructor]. simpl. lia.
Qed.

Lemma fix_first_shape n codes :
  length (fix_first n codes) = length codes
  /\ map is_equal (fix_first n codes) = map is_equal codes.
Proof.
  destruct codes as [|[[[[[] i1] i2] j1] j2] codes]; simpl; auto.
Qed.

Lemma fix_last_shape n codes :
  length (fix_last n codes) = length codes
  /\ map is_equal (fix_last n codes) = map is_equal codes.
Proof.
  induction codes as [|c codes [IH1 IH2]]; [auto|].
  destruct codes as [|c' codes'].
  - destruct c as [[[[[] i1] i2] j1] j2]; simpl; auto.
  - assert (Hcons : fix_last n (c :: c' :: codes')
                    = c :: fix_last n (c' :: codes'))
      by (destruct c as [[[[[] i1] i2] j1] j2]; reflexivity).
    rewrite Hcons. split.
    + change (S (length (fix_last n (c' :: codes')))
              = S (length (c' :: codes'))).
      rewrite IH1. reflexivity.
    + change (is_equal c :: map is_equal (fix_last n (c' :: codes'))
              = is_equal c :: map is_equal (c' :: codes')).
      rewrite IH2. reflexivity.
Qed.

Lemma split_groups_nil n codes : forall group,
  split_groups n codes group = [] ->
  match group ++ codes with
  | [] => True
  | [c] => is_equal c = true
  | _ => False
  end.
Proof.
  induction codes as [|[[[[t i1] i2] j1] j2] codes IH]; intros group Hnil; simpl in Hnil.
  - rewrite app_nil_r. destruct group as [|c [|c' group]]; auto; try discriminate.
    destruct (is_equal c); [reflexivity|discriminate].
  - destruct (tag_eqb t Equal && (n + n <? i2 - i1)); [discriminate|].
    apply IH in Hnil. rewrite <- app_assoc in Hnil. exact Hnil.
Qed.

(** No group of opcodes: the opcodes are none or a single [equal]. *)
Lemma get_grouped_opcodes_nil n :
  get_grouped_opcodes a b n = [] ->
  get_opcodes a b = [] \/ exists c, get_opcodes a b = [c] /\ is_equal c = true.
Proof.
  unfold get_grouped_opcodes. intros Hnil.
  apply split_groups_nil in Hnil. simpl in Hnil.
  destruct (get_opcodes a b) as [|c codes] eqn:Hcodes; [left; reflexivity|].
  right. exists c.
  destruct (fix_last_shape n (fix_first n (c :: codes))) as [Hlen Htags].
  destruct (fix_first_shape n (c :: codes)) as [Hlen' Htags'].
  rewrite Hlen' in Hlen. rewrite Htags' in Htags.
  destruct (fix_last n (fix_first n (c :: codes))) as [|c1 [|c2 rest]];
    simpl in Hlen; try discriminate; [|destruct Hnil].
  destruct codes; [|discriminate]. simpl in Htags.
  injection Htags as Htag. split; [reflexivity|]. rewrite <- Htag. exact Hnil.
Qed.

(** The opcodes of good blocks hold an [equal] for every block. *)
Lemma opcodes_from_length (blocks : list block) : forall i j,
  Forall (block_good a b) blocks ->
  length blocks
  <= length (opcodes_from (blocks ++ [(length a, length b, 0)]) i j).
Proof.
  induction blocks as [|[[ai bj] size] blocks IH]; intros i j Hgood; simpl.
  - lia.
  - inversion Hgood as [|? ? (Hk & _) Hgood']; subst. simpl in Hk.
    destruct (Nat.eqb_spec size 0) as [|_]; [contradiction|].
    rewrite !length_app. simpl.
    specialize (IH (ai + size) (bj + size) Hgood').
    eapply Nat.le_trans; [apply le_n_S; exact IH|apply Nat.le_add_l].
Qed.

Lemma nth_ext_eq (l m : list string) :
  length l = length m ->
  (forall t, t < length l -> nth t l "" = nth t m "") ->
  l = m.
Proof.
  revert m. induction l as [|x l IH]; intros [|y m] Hlen Hnth;
    try discriminate; [reflexivity|].
  f_equal.
  - apply (Hnth 0). simpl. lia.
  - apply IH; [simpl in Hlen; lia|].
    intros t Ht. apply (Hnth (S t)). simpl. lia.
Qed.

(** An empty unified diff: the two sequences are the same. *)
Lemma unified_diff_nil : unified_diff a b = [] -> a = b.
Proof.
  unfold unified_diff. intros Hnil.
  destruct (get_grouped_opcodes a b 3) eqn:Hgroups; [|discriminate].
  apply get_grouped_opcodes_nil in Hgroups.
  destruct get_matching_blocks_good as (blocks & Hblocks & Hgood).
  assert (Hcount : length blocks <= length (get_opcodes a b))
    by (unfold get_opcodes; rewrite Hblocks; apply opcodes_from_length;
        exact Hgood).
  assert (Hshort : length blocks <= 1)
    by (destruct Hgroups as [Hg|(c & Hg & Heq)]; rewrite Hg in Hcount;
        simpl in Hcount; lia).
  clear Hcount.
  unfold get_opcodes in Hgroups. rewrite Hblocks in Hgroups.
  destruct blocks as [|[[ai bj] size] [|blk blocks]]; simpl in Hshort; [| |lia].
  - (* no block: both sequences are empty *)
    simpl in Hgroups.
    destruct (Nat.ltb_spec 0 (length a)) as [Hla|Hla];
      destruct (Nat.ltb_spec 0 (length b)) as [Hlb|Hlb]; simpl in Hgroups;
      try (destruct Hgroups as [Hg|(c & Hg & Heq)];
           [discriminate|injection Hg as <-; discriminate]).
    destruct a, b; simpl in *; try lia. reflexivity.
  - (* one block: it covers both sequences *)
    inversion Hgood as [|? ? (Hk & Hw & Hm) Hgood']; subst.
    simpl in Hk, Hw, Hm. simpl in Hgroups.
    destruct (Nat.eqb_spec size 0) as [|_]; [contradiction|].
    destruct (Nat.ltb_spec 0 ai) as [Hai|Hai];
      destruct (Nat.ltb_spec 0 bj) as [Hbj|Hbj]; simpl in Hgroups;
      try (destruct Hgroups as [Hg|(c & Hg & Heq)];
           [discriminate|injection Hg as <-; discriminate]).
    destruct (Nat.ltb_spec (ai + size) (length a)) as [Hea|Hea];
      destruct (Nat.ltb_spec (bj + size) (length b)) as [Heb|Heb];
      simpl in Hgroups;
      try (destruct Hgroups as [Hg|(c & Hg & Heq)]; discriminate).
    assert (ai = 0) by lia. assert (bj = 0) by lia. subst ai bj.
    apply nth_ext_eq; [lia|].
    intros t Ht. apply (Hm t). lia.
Qed.

End DiffEmpty.

(** The diff of two sequences is empty exactly when they are equal. *)
Lemma unified_diff_nil_iff (a b : list string) :
  difflib.unified_diff a b = [] <-> a = b.
Proof.
  split; [apply unified_diff_nil|intros ->; apply unified_diff_self].
Qed.

(** ** The no-change check *)

(** C5: the unified diff of a serialized snapshot against itself yields no
    line, so the check [next(diff, None) is None] finds no change; and for
    any two snapshots the check finds a change exactly when the diff yields
    at least one line. *)
Theorem diff_self_has_no_changes :
  (forall A : string,
     difflib.unified_diff (split_nl A) (split_nl A) = []
     /\ next_is_None (difflib.unified_diff (split_nl A) (split_nl A)) = true)
  /\ (forall a b : list string,
        next_is_None (difflib.unified_diff a b) = false
        <-> difflib.unified_diff a b <> []).
Proof.
  split.
  - intros A. rewrite unified_diff_self. split; reflexivity.
  - intros a b. destruct (difflib.unified_diff a b); simpl; split;
      congruence.
Qed.

(** ** Dictionaries and equality *)

Lemma dict_get_set_eq d k v : dict_get (dict_set d k v) k = Some v.
Proof.
  induction d as [|[k' v'] d IH]; simpl.
  - rewrite String.eqb_refl. reflexivity.
  - destruct (String.eqb k' k) eqn:Hk; simpl; rewrite Hk; auto.
Qed.

Lemma dict_get_set_ne d k k' v :
  k <> k' -> dict_get (dict_set d k v) k' = dict_get d k'.
Proof.
  intros Hne. induction d as [|[k0 v0] d IH]; simpl.
  - destruct (String.eqb_spec k k'); [contradiction|reflexivity].
  - destruct (String.eqb_spec k0 k) as [->|Hk]; simpl.
    + destruct (String.eqb_spec k k'); [contradiction|reflexivity].
    + rewrite IH. reflexivity.
Qed.

Lemma py_eq_int_refl z : py_eq (PyInt z) (PyInt z) = true.
Proof. simpl. apply Z.eqb_refl. Qed.

Lemma py_eq_false_neq x z : py_eq x (PyInt z) = false -> x <> PyInt z.
Proof. intros H ->. rewrite py_eq_int_refl in H. discriminate. Qed.

(** ** Reconciliation *)
Section Reconcile.
Context {LocationScope : Type}.
Implicit Types (st : state LocationScope).


Lemma bind_ok {A B} (m : M LocationScope A) (k : A -> M LocationScope B)
    st x st1 :
  m st = (Ok x, st1) -> bind m k st = k x st1.
Proof. unfold bind. intros ->. reflexivity. Qed.

Lemma bind_raise {A B} (m : M LocationScope A) (k : A -> M LocationScope B)
    st e st1 :
  m st = (Raise e, st1) -> bind m k st = (Raise e, st1).
Proof. unfold bind. intros ->. reflexivity. Qed.

Lemma getitem_run l k st d v :
  heap st !! l = Some (PyDict d) ->
  dict_get d k = Some v ->
  getitem l k st = (Ok v, st).
Proof.
  intros Hl Hk. unfold getitem, bind, read. rewrite Hl. simpl.
  rewrite Hk. reflexivity.
Qed.

Lemma get_eq_run edited_nc nc k st d d0 v :
  heap st !! edited_nc = Some (PyDict d) ->
  heap st !! nc = Some (PyDict d0) ->
  dict_get d0 k = Some v ->
  get_eq edited_nc nc k st = (Ok (same_as d k v), st).
Proof.
  intros Hed Hnc Hk. unfold get_eq, bind at 1, read. rewrite Hed. simpl.
  rewrite (bind_ok _ _ _ _ _ (getitem_run _ _ _ _ _ Hnc Hk)).
  unfold same_as. destruct (dict_get d k); reflexivity.
Qed.

Lemma setitem_run l k v st d :
  heap st !! l = Some (PyDict d) ->
  setitem l k v st =
  (Ok tt, {| heap := <[l := PyDict (dict_set d k v)]> (heap st);
             edited_text := edited_text st; trace := trace st |}).
Proof.
  intros Hl. unfold setitem, bind, read. rewrite Hl. reflexivity.
Qed.

Lemma state_eta st :
  {| heap := heap st; edited_text := edited_text st; trace := trace st |} = st.
Proof. destruct st; reflexivity. Qed.

Lemma reconcile_run nc edited_nc att st d0 d v0 v1 t0 now :
  heap st !! nc = Some (PyDict d0) ->
  heap st !! edited_nc = Some (PyDict d) ->
  nc <> edited_nc ->
  dict_get d0 "version" = Some v0 ->
  py_add_1 v0 = Ok v1 ->
  dict_get d0 "last_timestamp" = Some t0 ->
  time_ms (time_time att) = Ok now ->
  reconcile nc edited_nc att st =
  (Ok tt, {| heap := <[edited_nc := PyDict (reconciled v0 v1 t0 now d)]> (heap st);
             edited_text := edited_text st; trace := trace st |}).
Proof.
  intros Hnc Hed Hne Hv0 Hv1 Ht0 Hnow.
  assert (Hlt : edited_nc < length (heap st)) by (eapply lookup_lt_Some; eauto).
  unfold reconcile, reconciled.
  rewrite (bind_ok _ _ _ _ _ (get_eq_run _ _ _ _ _ _ _ Hed Hnc Hv0)).
  destruct (same_as d "version" v0) eqn:Hsame.
  - rewrite (bind_ok _ _ _ tt
               {| heap := <[edited_nc := PyDict (dict_set d "version" v1)]> (heap st);
                  edited_text := edited_text st; trace := trace st |}).
    2:{ rewrite (bind_ok _ _ _ _ _ (getitem_run _ _ _ _ _ Hnc Hv0)).
        unfold lift at 1. rewrite (bind_ok _ _ _ v1 st) by (rewrite Hv1; reflexivity).
        apply setitem_run. exact Hed. }
    erewrite bind_ok.
    2:{ eapply get_eq_run; simpl.
        - apply list_lookup_insert_eq. exact Hlt.
        - rewrite list_lookup_insert_ne by congruence. exact Hnc.
        - exact Ht0. }
    destruct (same_as (dict_set d "version" v1) "last_timestamp" t0).
    + unfold lift at 1. erewrite bind_ok by (rewrite Hnow; reflexivity).
      erewrite setitem_run by (simpl; apply list_lookup_insert_eq; exact Hlt).
      simpl. rewrite list_insert_insert_eq. reflexivity.
    + reflexivity.
  - rewrite (bind_ok _ _ _ tt st) by reflexivity.
    rewrite (bind_ok _ _ _ _ _ (get_eq_run _ _ _ _ _ _ _ Hed Hnc Ht0)).
    destruct (same_as d "last_timestamp" t0).
    + unfold lift at 1. erewrite bind_ok by (rewrite Hnow; reflexivity).
      erewrite setitem_run by exact Hed. reflexivity.
    + unfold ret. rewrite list_insert_id by exact Hed.
      rewrite state_eta. reflexivity.
Qed.

Lemma reconciled_version v0 v1 t0 now d :
  dict_get (reconciled v0 v1 t0 now d) "version" =
  if same_as d "version" v0 then Some v1 else dict_get d "version".
Proof.
  unfold reconciled.
  destruct (same_as d "version" v0);
    match goal with |- context [if ?c then _ else _] => destruct c end;
    rewrite ?dict_get_set_ne by discriminate;
    rewrite ?dict_get_set_eq; reflexivity.
Qed.

Lemma reconciled_last_timestamp v0 v1 t0 now d :
  dict_get (reconciled v0 v1 t0 now d) "last_timestamp" =
  if same_as d "last_timestamp" t0 then Some (PyInt now)
  else dict_get d "last_timestamp".
Proof.
  unfold reconciled.
  assert (Hsame : forall v, same_as (dict_set d "version" v) "last_timestamp" t0
                            = same_as d "last_timestamp" t0).
  { intros v. unfold same_as. rewrite dict_get_set_ne by discriminate. reflexivity. }
  destruct (same_as d "version" v0); rewrite ?Hsame;
    destruct (same_as d "last_timestamp" t0);
    rewrite ?dict_get_set_eq, ?dict_get_set_ne by discriminate; reflexivity.
Qed.

(** Whatever it returns, reconciliation prints nothing, leaves
    [edited_text] and every object but [edited_nc] alone; when it returns
    normally, [edited_nc] holds the reconciled items. *)
Lemma reconcile_inv nc edited_nc att st r st' :
  nc <> edited_nc ->
  reconcile nc edited_nc att st = (r, st') ->
  trace st' = trace st /\ edited_text st' = edited_text st
  /\ length (heap st') = length (heap st)
  /\ heap st' !! nc = heap st !! nc
  /\ (r = Ok tt ->
      exists d0 d v0 v1 t0 now,
        heap st !! nc = Some (PyDict d0)
        /\ heap st !! edited_nc = Some (PyDict d)
        /\ dict_get d0 "version" = Some v0
        /\ dict_get d0 "last_timestamp" = Some t0
        /\ (same_as d "version" v0 = true -> py_add_1 v0 = Ok v1)
        /\ heap st' !! edited_nc = Some (PyDict (reconciled v0 v1 t0 now d))).
Proof.
  intros Hne Hrun.
  assert (Hfail : forall e h,
            (Raise e : result unit,
             {| heap := h; edited_text := edited_text st; trace := trace st |})
            = (r, st') ->
            length h = length (heap st) -> h !! nc = heap st !! nc ->
            trace st' = trace st /\ edited_text st' = edited_text st
            /\ length (heap st') = length (heap st)
            /\ heap st' !! nc = heap st !! nc
            /\ (r = Ok tt ->
      exists d0 d v0 v1 t0 now,
        heap st !! nc = Some (PyDict d0)
        /\ heap st !! edited_nc = Some (PyDict d)
        /\ dict_get d0 "version" = Some v0
        /\ dict_get d0 "last_timestamp" = Some t0
        /\ (same_as d "version" v0 = true -> py_add_1 v0 = Ok v1)
        /\ heap st' !! edited_nc = Some (PyDict (reconciled v0 v1 t0 now d)))).
  { intros e h Heq Hlen Hnc. inversion Heq; subst; simpl.
    repeat split; try assumption. discriminate. }
  assert (Hfail0 : forall e, (Raise e : result unit, st) = (r, st') ->
            trace st' = trace st /\ edited_text st' = edited_text st
            /\ length (heap st') = length (heap st)
            /\ heap st' !! nc = heap st !! nc
            /\ (r = Ok tt ->
      exists d0 d v0 v1 t0 now,
        heap st !! nc = Some (PyDict d0)
        /\ heap st !! edited_nc = Some (PyDict d)
        /\ dict_get d0 "version" = Some v0
        /\ dict_get d0 "last_timestamp" = Some t0
        /\ (same_as d "version" v0 = true -> py_add_1 v0 = Ok v1)
        /\ heap st' !! edited_nc = Some (PyDict (reconciled v0 v1 t0 now d)))).
  { intros e Heq. apply (Hfail e (heap st)); [rewrite state_eta; exact Heq| |];
      reflexivity. }
  unfold reconcile in Hrun.
  destruct (heap st !! edited_nc) as [ed|] eqn:Hed.
  2:{ unfold get_eq, bind, read in Hrun. rewrite Hed in Hrun.
      eapply Hfail0. exact Hrun. }
  assert (Hlt : edited_nc < length (heap st)) by (eapply lookup_lt_Some; eauto).
  destruct ed as [| | | | | |d];
    try (unfold get_eq, bind, read in Hrun; rewrite Hed in Hrun;
         eapply Hfail0; exact Hrun).
  destruct (heap st !! nc) as [base|] eqn:Hnc.
  2:{ unfold get_eq, getitem, bind, read in Hrun. rewrite Hed in Hrun.
      simpl in Hrun. rewrite Hnc in Hrun. eapply Hfail0. exact Hrun. }
  destruct base as [| | | | | |d0];
    try (unfold get_eq, getitem, bind, read in Hrun; rewrite Hed in Hrun;
         simpl in Hrun; rewrite Hnc in Hrun; eapply Hfail0; exact Hrun).
  destruct (dict_get d0 "version") as [v0|] eqn:Hv0.
  2:{ unfold get_eq, getitem, bind, read in Hrun. rewrite Hed in Hrun.
      simpl in Hrun. rewrite Hnc in Hrun. simpl in Hrun. rewrite Hv0 in Hrun.
      eapply Hfail0. exact Hrun. }
  rewrite (bind_ok _ _ _ _ _ (get_eq_run _ _ _ _ _ _ _ Hed Hnc Hv0)) in Hrun.
  (* the state after the version has been looked at *)
  match goal with |- ?G =>
  assert (Hts : forall d1 v1,
            (same_as d "version" v0 = true -> py_add_1 v0 = Ok v1) ->
            d1 = (if same_as d "version" v0 then dict_set d "version" v1 else d) ->
            bind (get_eq edited_nc nc "last_timestamp")
              (fun same : bool =>
                 if same
                 then bind (lift (time_ms (time_time att)))
                        (fun now => setitem edited_nc "last_timestamp" (PyInt now))
                 else ret tt)
              {| heap := <[edited_nc := PyDict d1]> (heap st);
                 edited_text := edited_text st; trace := trace st |}
            = (r, st') -> G)
  end.
  { intros d1 v1 Hv1 Hd1 Hrun'.
    assert (Hed1 : <[edited_nc := PyDict d1]> (heap st) !! edited_nc
                   = Some (PyDict d1)) by (apply list_lookup_insert_eq; exact Hlt).
    assert (Hnc1 : <[edited_nc := PyDict d1]> (heap st) !! nc = Some (PyDict d0))
      by (rewrite list_lookup_insert_ne by congruence; exact Hnc).
    destruct (dict_get d0 "last_timestamp") as [t0|] eqn:Ht0.
    2:{ unfold get_eq, getitem, bind, read in Hrun'. simpl in Hrun'.
        rewrite Hed1 in Hrun'. simpl in Hrun'. rewrite Hnc1 in Hrun'.
        simpl in Hrun'. rewrite Ht0 in Hrun'.
        eapply Hfail; [exact Hrun'|apply length_insert|exact Hnc1]. }
    erewrite bind_ok in Hrun' by (eapply get_eq_run; simpl; eauto).
    destruct (same_as d1 "last_timestamp" t0) eqn:Hsame.
    - destruct (time_ms (time_time att)) as [now|e] eqn:Hnow.
      2:{ unfold bind, lift in Hrun'.
          eapply Hfail; [exact Hrun'|apply length_insert|exact Hnc1]. }
      unfold lift at 1 in Hrun'.
      erewrite bind_ok in Hrun' by reflexivity.
      erewrite setitem_run in Hrun' by (simpl; exact Hed1).
      simpl in Hrun'. rewrite list_insert_insert_eq in Hrun'.
      inversion Hrun'; subst r st'; simpl.
      rewrite length_insert, list_lookup_insert_ne by congruence.
      repeat split; try reflexivity; try assumption.
      intros _. exists d0, d, v0, v1, t0, now.
      repeat split; try assumption.
      rewrite list_lookup_insert_eq by exact Hlt.
      unfold reconciled. rewrite <- Hd1, Hsame. reflexivity.
    - unfold ret in Hrun'. inversion Hrun'; subst r st'; simpl.
      rewrite length_insert, list_lookup_insert_ne by congruence.
      repeat split; try reflexivity; try assumption.
      intros _. exists d0, d, v0, v1, t0, 0%Z.
      repeat split; try assumption.
      rewrite list_lookup_insert_eq by exact Hlt.
      unfold reconciled. rewrite <- Hd1, Hsame. reflexivity. }
  destruct (same_as d "version" v0) eqn:Hsame.
  - destruct (py_add_1 v0) as [v1|e] eqn:Hv1.
    2:{ erewrite bind_raise in Hrun.
        2:{ rewrite (bind_ok _ _ _ _ _ (getitem_run _ _ _ _ _ Hnc Hv0)).
            unfold bind, lift. rewrite Hv1. reflexivity. }
        eapply Hfail0. exact Hrun. }
    erewrite (bind_ok _ _ _ tt) in Hrun.
    2:{ rewrite (bind_ok _ _ _ _ _ (getitem_run _ _ _ _ _ Hnc Hv0)).
        unfold lift at 1. rewrite (bind_ok _ _ _ v1 st) by (rewrite Hv1; reflexivity).
        apply setitem_run. exact Hed. }
    eapply (Hts _ v1); [reflexivity|reflexivity|exact Hrun].
  - rewrite (bind_ok _ _ _ tt st) in Hrun by reflexivity.
    eapply (Hts d v0); [discriminate|reflexivity|].
    rewrite list_insert_id by exact Hed. rewrite state_eta. exact Hrun.
Qed.

Lemma quiet_bind {A B} (m : M LocationScope A) (k : A -> M LocationScope B) :
  quiet m -> (forall x, quiet (k x)) -> quiet (bind m k).
Proof.
  intros Hm Hk st r st' Hrun. unfold bind in Hrun.
  destruct (m st) as [[x|e] st1] eqn:Hmst.
  - destruct (Hm _ _ _ Hmst) as [Ht He].
    destruct (Hk x _ _ _ Hrun) as [Ht' He']. split; congruence.
  - inversion Hrun; subst. eapply Hm. exact Hmst.
Qed.

Lemma quiet_pure {A} (r : result A) : quiet (LocationScope := LocationScope) (lift r).
Proof. intros st r' st' Hrun. inversion Hrun; subst. split; reflexivity. Qed.

Lemma quiet_getitem l k : quiet (LocationScope := LocationScope) (getitem l k).
Proof.
  unfold getitem. apply quiet_bind.
  - intros st r st' Hrun. inversion Hrun; subst. split; reflexivity.
  - intros o. destruct o; try apply (quiet_pure (Raise _)).
    destruct (dict_get d k); [apply (quiet_pure (Ok _))|apply (quiet_pure (Raise _))].
Qed.

Lemma quiet_setitem l k v : quiet (LocationScope := LocationScope) (setitem l k v).
Proof.
  unfold setitem. apply quiet_bind.
  - intros st r st' Hrun. inversion Hrun; subst. split; reflexivity.
  - intros o. destruct o; try apply (quiet_pure (Raise _)).
    intros st r st' Hrun. inversion Hrun; subst. split; reflexivity.
Qed.

Lemma quiet_get_eq l nc k : quiet (LocationScope := LocationScope) (get_eq l nc k).
Proof.
  unfold get_eq. apply quiet_bind.
  - intros st r st' Hrun. inversion Hrun; subst. split; reflexivity.
  - intros o. destruct o; try apply (quiet_pure (Raise _)).
    apply quiet_bind; [apply quiet_getitem|].
    intros v. destruct (dict_get d k); apply (quiet_pure (Ok _)).
Qed.

Lemma quiet_reconcile nc edited_nc att :
  quiet (LocationScope := LocationScope) (reconcile nc edited_nc att).
Proof.
  unfold reconcile.
  apply quiet_bind; [apply quiet_get_eq|]. intros same.
  apply quiet_bind.
  - destruct same; [|apply (quiet_pure (Ok tt))].
    apply quiet_bind; [apply quiet_getitem|]. intros v.
    apply quiet_bind; [apply quiet_pure|]. intros v1. apply quiet_setitem.
  - intros _. apply quiet_bind; [apply quiet_get_eq|]. intros same'.
    destruct same'; [|apply (quiet_pure (Ok tt))].
    apply quiet_bind; [apply quiet_pure|]. intros now. apply quiet_setitem.
Qed.

End Reconcile.

(** ** One pass through the loop *)
Section Session.
Variable json_loads : string -> result pyobj.
Variable json_dumps : pyobj -> string.
Variable json_to_nodes_configuration : string -> result string.
Context {LocationScope : Type}.
Implicit Types (st : state LocationScope).

Local Abbreviation validate := (validate json_loads json_dumps LocationScope).
Local Abbreviation confirm_and_apply :=
  (confirm_and_apply json_dumps json_to_nodes_configuration LocationScope).
Local Abbreviation attempt_try :=
  (attempt_try json_loads json_dumps json_to_nodes_configuration LocationScope).
Local Abbreviation attempt_body :=
  (attempt_body json_loads json_dumps json_to_nodes_configuration LocationScope).
Local Abbreviation edit_loop :=
  (edit_loop json_loads json_dumps json_to_nodes_configuration LocationScope).
Local Abbreviation loop_event :=
  (loop_event json_dumps json_to_nodes_configuration LocationScope).
Local Abbreviation hands_over :=
  (hands_over json_to_nodes_configuration LocationScope).

Lemma print_all_run lines : forall st,
  print_all lines st = (Ok tt, logged st (map print lines)).
Proof.
  induction lines as [|line lines IH]; intros st; simpl.
  - unfold ret, logged. rewrite app_nil_r, state_eta. reflexivity.
  - unfold bind, emit. rewrite IH. unfold logged. simpl.
    rewrite <- app_assoc. reflexivity.
Qed.

Lemma validate_run nc formatted att st :
  validate nc formatted att st =
  let st1 := logged st [run_editor (seed_text formatted st)] in
  if negb (editor_returncode att =? 0)%Z
  then (Raise (EditorError "Non-zero return code from editor"), st1)
  else
    match json_loads (editor_saved att) with
    | Raise e =>
        (Raise e, {| heap := heap st; edited_text := Some (editor_saved att);
                     trace := trace st1 |})
    | Ok parsed =>
        let st3 := {| heap := heap st ++ [parsed];
                      edited_text := Some (editor_saved att);
                      trace := trace st1 |} in
        let nc_list :=
          split_nl (json_dumps (default PyNone ((heap st ++ [parsed]) !! nc))) in
        if next_is_None
             (difflib.unified_diff nc_list (split_nl (json_dumps parsed)))
        then (Raise (EditorError "No changes detected"), st3)
        else (Ok (length (heap st), nc_list), st3)
    end.
Proof.
  unfold validate, _edit_text_with_editor, bind, get_edited_text, emit,
    set_edited_text, lift, alloc, read, raise, ret, logged, seed_text.
  simpl.
  destruct (negb (editor_returncode att =? 0)%Z); [reflexivity|].
  destruct (json_loads (editor_saved att)) as [parsed|e]; [|reflexivity].
  simpl. rewrite (list_lookup_middle (heap st) [] parsed (length (heap st)) eq_refl).
  simpl.
  destruct (next_is_None _); reflexivity.
Qed.

Lemma logged_logged st evs evs' :
  logged (logged st evs) evs' = logged st (evs ++ evs').
Proof. unfold logged. simpl. rewrite app_assoc. reflexivity. Qed.

Lemma emit_run e st : emit e st = (Ok tt, logged st [e]).
Proof. reflexivity. Qed.

Lemma confirm_and_apply_run nc_list edited_nc att st :
  confirm_and_apply nc_list edited_nc att st =
  let json_str := json_dumps (default PyNone (heap st !! edited_nc)) in
  let st1 :=
    logged st
      (print "You're going to apply the following diff:"
       :: map print (difflib.unified_diff nc_list (split_nl json_str))
       ++ [print (nl +:+ "What to do now?"); print "[1] Apply";
           print "[2] Edit"; print "[3] Cancel"; ask_prompt (choice att)]) in
  if String.eqb (choice att) "2" then (Ok Continue, st1)
  else if String.eqb (choice att) "3" then (Ok Break, st1)
  else
    let st2 := logged st1 [encode_nodes_configuration json_str] in
    match json_to_nodes_configuration json_str with
    | Raise e =>
        (Raise (NCMError ("Error on serializing config: " +:+ str_exn e)), st2)
    | Ok nc_bin =>
        let st3 := logged st2 [overwrite_nodes_configuration nc_bin] in
        match overwrite_result att with
        | Ok _ => (Ok Break, st3)
        | Raise e =>
            (Raise (NCMError ("Error on overwriting config: " +:+ str_exn e)),
             st3)
        end
    end.
Proof.
  unfold confirm_and_apply.
  unfold read at 1. unfold bind at 1.
  rewrite (bind_ok _ _ _ _ _ (emit_run _ _)).
  rewrite (bind_ok _ _ _ _ _ (print_all_run _ _)).
  repeat rewrite (bind_ok _ _ _ _ _ (emit_run _ _)).
  rewrite !logged_logged. simpl app.
  cbv zeta.
  destruct (String.eqb (choice att) "2"); [reflexivity|].
  destruct (String.eqb (choice att) "3"); [reflexivity|].
  unfold try_except, bind, lift, raise, ret. rewrite !emit_run.
  destruct (json_to_nodes_configuration _) as [nc_bin|e];
    [|unfold logged; simpl; repeat (rewrite <- app_assoc; simpl); reflexivity].
  rewrite emit_run.
  destruct (overwrite_result att);
    unfold logged; simpl; repeat (rewrite <- app_assoc; simpl); reflexivity.
Qed.

(** The [except] clause of the loop. *)
Lemma attempt_body_run nc formatted att st :
  attempt_body nc formatted att st =
  match attempt_try nc formatted att st with
  | (Ok c, st1) => (Ok c, st1)
  | (Raise e, st1) =>
      match e with
      | EditorError _ | JSONDecodeError _ | NCMError _ =>
          (Ok (if negb (try_again att) then Break else Continue),
           logged st1 [print (str_exn e); confirm_prompt (try_again att)])
      | _ => (Raise e, st1)
      end
  end.
Proof.
  unfold attempt_body, try_except.
  destruct (attempt_try nc formatted att st) as [[c|e] st1]; [reflexivity|].
  destruct e; try reflexivity;
    unfold bind; rewrite !emit_run, logged_logged;
    destruct (try_again att); reflexivity.
Qed.

Lemma Forall_loop_event_print base (lines : list string) :
  Forall (loop_event base) (map print lines).
Proof. induction lines; simpl; constructor; simpl; auto. Qed.

(** One pass keeps the baseline object as it is and logs loop events
    only, whatever way it ends. *)
Lemma attempt_body_inv base nc formatted att st r st' :
  heap st !! nc = Some base ->
  attempt_body nc formatted att st = (r, st') ->
  heap st' !! nc = Some base
  /\ exists evs, trace st' = trace st ++ evs /\ Forall (loop_event base) evs.
Proof.
  intros Hnc. rewrite attempt_body_run.
  assert (Hlt : nc < length (heap st)) by (eapply lookup_lt_Some; eauto).
  unfold attempt_try.
  pose proof (validate_run nc formatted att st) as Hval. cbv zeta in Hval.
  (* every way out: the state reached and the events since [st] *)
  assert (Hout : forall (p : result control * state LocationScope) st1 evs,
            heap st1 !! nc = Some base ->
            trace st1 = trace st ++ evs -> Forall (loop_event base) evs ->
            (exists c, p = (Ok c, st1))
            \/ (exists e, p = (Raise e, st1))
            \/ (exists c e, p = (Ok c, logged st1 [print (str_exn e);
                                                 confirm_prompt (try_again att)])) ->
            p = (r, st') ->
            heap st' !! nc = Some base
            /\ exists evs, trace st' = trace st ++ evs
                           /\ Forall (loop_event base) evs).
  { intros p st1 evs Hh Ht Hev [[c ->]|[[e ->]|(c & e & ->)]] Heq;
      inversion Heq; subst; simpl; eauto.
    split; [assumption|].
    eexists; split; [rewrite Ht, <- app_assoc; reflexivity|].
    apply Forall_app; split; [assumption|]. repeat constructor. }
  assert (Hcatch : forall e st1 evs,
            heap st1 !! nc = Some base ->
            trace st1 = trace st ++ evs -> Forall (loop_event base) evs ->
            match e with
            | EditorError _ | JSONDecodeError _ | NCMError _ =>
                (Ok (if negb (try_again att) then Break else Continue),
                 logged st1 [print (str_exn e); confirm_prompt (try_again att)])
            | _ => (Raise e, st1)
            end = (r, st') ->
            heap st' !! nc = Some base
            /\ exists evs, trace st' = trace st ++ evs
                           /\ Forall (loop_event base) evs).
  { intros e st1 evs Hh Ht Hev. apply (Hout _ st1 evs Hh Ht Hev).
    destruct e; eauto 6. }
  destruct (negb (editor_returncode att =? 0)%Z).
  { rewrite (bind_raise _ _ _ _ _ Hval).
    apply (Hcatch (EditorError _) _ [run_editor (seed_text formatted st)]);
      [exact Hnc|reflexivity|repeat constructor]. }
  destruct (json_loads (editor_saved att)) as [parsed|e].
  2:{ rewrite (bind_raise _ _ _ _ _ Hval).
      apply (Hcatch e _ [run_editor (seed_text formatted st)]);
        [exact Hnc|reflexivity|repeat constructor]. }
  assert (Hnc3 : (heap st ++ [parsed]) !! nc = Some base)
    by (rewrite lookup_app_l by exact Hlt; exact Hnc).
  destruct (next_is_None _).
  { rewrite (bind_raise _ _ _ _ _ Hval).
    apply (Hcatch (EditorError _) _ [run_editor (seed_text formatted st)]);
      [exact Hnc3|reflexivity|repeat constructor]. }
  rewrite (bind_ok _ _ _ _ _ Hval). clear Hval.
  cbn [fst snd].
  match goal with |- context [bind (reconcile nc ?l att) ?k ?s] =>
    destruct (reconcile nc l att s) as [r1 st4] eqn:Hrec
  end.
  pose proof Hrec as Hrec'.
  apply reconcile_inv in Hrec'; [|lia].
  destruct Hrec' as (Htr & Het & Hlen & Hnc4 & Hok). simpl in Htr, Hnc4.
  rewrite Hnc3 in Hnc4.
  destruct r1 as [[]|e].
  2:{ rewrite (bind_raise _ _ _ _ _ Hrec).
      apply (Hcatch e _ [run_editor (seed_text formatted st)]);
        [exact Hnc4|exact Htr|repeat constructor]. }
  rewrite (bind_ok _ _ _ _ _ Hrec).
  destruct (Hok eq_refl) as (d0 & d & v0 & v1 & t0 & now & Hb & Hd & Hv0 & Ht0 & Hv1 & Hed).
  simpl in Hb, Hd. rewrite Hnc3 in Hb. injection Hb as Hb.
  rewrite confirm_and_apply_run. cbv zeta. rewrite Hed. simpl default.
  set (shown := print "You're going to apply the following diff:" :: _).
  set (enc := encode_nodes_configuration _).
  assert (Hshown : Forall (loop_event base)
                     ([run_editor (seed_text formatted st)] ++ shown)).
  { subst shown. constructor; [exact I|]. constructor; [exact I|].
    apply Forall_app. split.
    - apply Forall_loop_event_print.
    - repeat constructor. }
  assert (Hdoc : reconciled_against json_dumps base
                   (json_dumps (PyDict (reconciled v0 v1 t0 now d)))).
  { exists d0, d, v0, v1, t0, now. repeat split; assumption. }
  assert (Henc : Forall (loop_event base)
                   ([run_editor (seed_text formatted st)] ++ shown ++ [enc])).
  { rewrite app_assoc. apply Forall_app. split; [exact Hshown|].
    constructor; [exact Hdoc|constructor]. }
  assert (Htr1 : forall evs,
            trace (logged st4 evs)
            = trace st ++ [run_editor (seed_text formatted st)] ++ evs).
  { intros evs. simpl. rewrite Htr. rewrite <- app_assoc. reflexivity. }
  destruct (String.eqb (choice att) "2").
  { apply (Hout _ (logged st4 shown) _ Hnc4 (Htr1 _) Hshown). eauto. }
  destruct (String.eqb (choice att) "3").
  { apply (Hout _ (logged st4 shown) _ Hnc4 (Htr1 _) Hshown). eauto. }
  rewrite !logged_logged.
  destruct (json_to_nodes_configuration _) as [nc_bin|e] eqn:Hbin.
  2:{ apply (Hcatch (NCMError _) (logged st4 (shown ++ [enc])) _
               Hnc4 (Htr1 _) Henc). }
  rewrite !logged_logged.
  assert (Hall : Forall (loop_event base)
            ([run_editor (seed_text formatted st)]
             ++ (shown ++ [enc]) ++ [overwrite_nodes_configuration nc_bin])).
  { rewrite app_assoc. apply Forall_app. split; [exact Henc|].
    constructor; [|constructor]. simpl. eauto. }
  destruct (overwrite_result att).
  - apply (Hout _ (logged st4 ((shown ++ [enc])
                               ++ [overwrite_nodes_configuration nc_bin])) _
             Hnc4 (Htr1 _) Hall). eauto.
  - apply (Hcatch (NCMError _)
             (logged st4 ((shown ++ [enc])
                          ++ [overwrite_nodes_configuration nc_bin])) _
             Hnc4 (Htr1 _) Hall).
Qed.

(** What an attempt hands to the encoder and to the store when the editor
    succeeds and the text parses to an object: the reconciled document and
    its encoding, nothing else. *)
Lemma attempt_body_encodes nc formatted att st d0 d v0 v1 t0 now :
  heap st !! nc = Some (PyDict d0) ->
  dict_get d0 "version" = Some v0 ->
  py_add_1 v0 = Ok v1 ->
  dict_get d0 "last_timestamp" = Some t0 ->
  editor_returncode att = 0%Z ->
  json_loads (editor_saved att) = Ok (PyDict d) ->
  time_ms (time_time att) = Ok now ->
  exists evs,
    trace (snd (attempt_body nc formatted att st)) = trace st ++ evs
    /\ Forall (hands_over (json_dumps (PyDict (reconciled v0 v1 t0 now d)))) evs.
Proof.
  intros Hnc Hv0 Hv1 Ht0 Hrc Hloads Hnow.
  assert (Hlt : nc < length (heap st)) by (eapply lookup_lt_Some; eauto).
  rewrite attempt_body_run. unfold attempt_try.
  pose proof (validate_run nc formatted att st) as Hval. cbv zeta in Hval.
  rewrite Hrc, Hloads in Hval. simpl negb in Hval. cbv iota in Hval.
  destruct (next_is_None _).
  { rewrite (bind_raise _ _ _ _ _ Hval). simpl.
    eexists. split; [rewrite <- app_assoc; reflexivity|].
    repeat constructor. }
  rewrite (bind_ok _ _ _ _ _ Hval). clear Hval. cbn [fst snd].
  erewrite bind_ok.
  2:{ eapply reconcile_run; simpl; try eassumption.
      - rewrite lookup_app_l by exact Hlt. exact Hnc.
      - apply list_lookup_middle. reflexivity.
      - lia. }
  rewrite confirm_and_apply_run. cbv zeta. simpl heap.
  rewrite list_lookup_insert_eq by (rewrite length_app; simpl; lia).
  simpl default.
  set (doc := json_dumps (PyDict (reconciled v0 v1 t0 now d))).
  set (shown := print "You're going to apply the following diff:" :: _).
  assert (Hshown : Forall (hands_over doc)
                     ([run_editor (seed_text formatted st)] ++ shown)).
  { subst shown. constructor; [exact I|]. constructor; [exact I|].
    apply Forall_app. split.
    - clear. induction (difflib.unified_diff _ _); simpl; constructor;
        [exact I|assumption].
    - repeat constructor. }
  assert (Hleaf : forall r1 extra,
            Forall (hands_over doc) extra ->
            exists evs,
              trace (snd (r1 : result control,
                          logged
                            {| heap := <[length (heap st) :=
                                          PyDict (reconciled v0 v1 t0 now d)]>
                                         (heap st ++ [PyDict d]);
                               edited_text := Some (editor_saved att);
                               trace := trace st
                                        ++ [run_editor (seed_text formatted st)] |}
                            (shown ++ extra)))
              = trace st ++ evs
              /\ Forall (hands_over doc) evs).
  { intros r1 extra Hextra.
    exists (([run_editor (seed_text formatted st)] ++ shown) ++ extra).
    split.
    - simpl. rewrite <- !app_assoc. reflexivity.
    - apply Forall_app. split; assumption. }
  destruct (String.eqb (choice att) "2").
  { rewrite <- (app_nil_r shown). apply Hleaf. constructor. }
  destruct (String.eqb (choice att) "3").
  { rewrite <- (app_nil_r shown). apply Hleaf. constructor. }
  rewrite !logged_logged.
  destruct (json_to_nodes_configuration doc) as [nc_bin|e] eqn:Henc.
  - rewrite !logged_logged, <- app_assoc.
    destruct (overwrite_result att).
    + apply Hleaf. repeat constructor. exact Henc.
    + cbv iota. rewrite !logged_logged, <- app_assoc.
      apply Hleaf. repeat constructor. exact Henc.
  - cbv iota. rewrite !logged_logged, <- app_assoc.
    apply Hleaf. repeat constructor.
Qed.

(** Every pass opens the editor first, on the seed; [edited_text] is
    assigned exactly when the editor exits with status 0. *)
Lemma attempt_body_shape nc formatted att st :
  edited_text (snd (attempt_body nc formatted att st))
  = (if (editor_returncode att =? 0)%Z then Some (editor_saved att)
     else edited_text st)
  /\ exists evs,
       trace (snd (attempt_body nc formatted att st))
       = trace st ++ run_editor (seed_text formatted st) :: evs.
Proof.
  rewrite attempt_body_run. unfold attempt_try.
  pose proof (validate_run nc formatted att st) as Hval. cbv zeta in Hval.
  assert (Hcatch : forall e st1 evs t,
            edited_text st1 = t ->
            trace st1 = trace st ++ run_editor (seed_text formatted st) :: evs ->
            edited_text
              (snd match e with
                   | EditorError _ | JSONDecodeError _ | NCMError _ =>
                       (Ok (if negb (try_again att) then Break else Continue),
                        logged st1 [print (str_exn e);
                                    confirm_prompt (try_again att)])
                   | _ => (Raise e, st1)
                   end) = t
            /\ exists evs',
                 trace
                   (snd match e with
                        | EditorError _ | JSONDecodeError _ | NCMError _ =>
                            (Ok (if negb (try_again att) then Break else Continue),
                             logged st1 [print (str_exn e);
                                         confirm_prompt (try_again att)])
                        | _ => (Raise e, st1)
                        end)
                 = trace st ++ run_editor (seed_text formatted st) :: evs').
  { intros e st1 evs t Ht Htr.
    destruct e; simpl; (split; [exact Ht|]); rewrite Htr;
      try (eexists; reflexivity);
      rewrite <- app_assoc; simpl; eexists; reflexivity. }
  destruct (editor_returncode att =? 0)%Z; simpl negb in Hval; cbv iota in Hval.
  2:{ rewrite (bind_raise _ _ _ _ _ Hval).
      apply (Hcatch (EditorError _) _ []); reflexivity. }
  destruct (json_loads (editor_saved att)) as [parsed|e].
  2:{ rewrite (bind_raise _ _ _ _ _ Hval).
      apply (Hcatch e _ []); reflexivity. }
  destruct (next_is_None _).
  { rewrite (bind_raise _ _ _ _ _ Hval).
    apply (Hcatch (EditorError _) _ []); reflexivity. }
  rewrite (bind_ok _ _ _ _ _ Hval). clear Hval. cbn [fst snd].
  match goal with |- context [bind (reconcile nc ?l att) ?k ?s] =>
    destruct (reconcile nc l att s) as [r1 st4] eqn:Hrec
  end.
  destruct (quiet_reconcile _ _ _ _ _ _ Hrec) as [Htr Het].
  simpl in Htr, Het.
  destruct r1 as [[]|e].
  2:{ rewrite (bind_raise _ _ _ _ _ Hrec).
      apply (Hcatch e _ []); assumption. }
  rewrite (bind_ok _ _ _ _ _ Hrec).
  rewrite confirm_and_apply_run. cbv zeta.
  set (shown := print "You're going to apply the following diff:" :: _).
  assert (Hleaf : forall (r : result control) extra,
            edited_text (snd (r, logged st4 (shown ++ extra)))
            = Some (editor_saved att)
            /\ exists evs',
                 trace (snd (r, logged st4 (shown ++ extra)))
                 = trace st ++ run_editor (seed_text formatted st) :: evs').
  { intros r extra. simpl. split; [exact Het|].
    rewrite Htr, <- !app_assoc. simpl. eexists. reflexivity. }
  destruct (String.eqb (choice att) "2").
  { rewrite <- (app_nil_r shown). apply Hleaf. }
  destruct (String.eqb (choice att) "3").
  { rewrite <- (app_nil_r shown). apply Hleaf. }
  rewrite !logged_logged.
  destruct (json_to_nodes_configuration _) as [nc_bin|e].
  2:{ cbv iota. rewrite !logged_logged, <- app_assoc. apply Hleaf. }
  rewrite !logged_logged, <- app_assoc.
  destruct (overwrite_result att).
  - apply Hleaf.
  - cbv iota. rewrite !logged_logged, <- app_assoc. apply Hleaf.
Qed.

Lemma edit_loop_inv base nc formatted script : forall st r st',
  heap st !! nc = Some base ->
  edit_loop nc formatted script st = (r, st') ->
  heap st' !! nc = Some base
  /\ exists evs, trace st' = trace st ++ evs /\ Forall (loop_event base) evs.
Proof.
  induction script as [|att script IH]; intros st r st' Hnc Hrun; simpl in Hrun.
  - inversion Hrun; subst. split; [exact Hnc|].
    exists []. rewrite app_nil_r. split; [reflexivity|constructor].
  - unfold bind in Hrun.
    destruct (attempt_body nc formatted att st) as [[c|e] st1] eqn:Hbody;
      destruct (attempt_body_inv base _ _ _ _ _ _ Hnc Hbody)
        as (Hnc1 & evs1 & Htr1 & Hev1).
    + destruct c.
      * destruct (IH _ _ _ Hnc1 Hrun) as (Hnc2 & evs2 & Htr2 & Hev2).
        split; [exact Hnc2|]. exists (evs1 ++ evs2).
        rewrite Htr2, Htr1, app_assoc. split; [reflexivity|].
        apply Forall_app. split; assumption.
      * inversion Hrun; subst. eauto.
    + inversion Hrun; subst. eauto.
Qed.

(** The loop on a script in two parts: the second part starts where the
    first one stops, if the loop is still asking for an edit there. *)
Lemma edit_loop_app nc formatted pre post : forall st,
  edit_loop nc formatted (pre ++ post) st =
  match edit_loop nc formatted pre st with
  | (Ok None, st1) => edit_loop nc formatted post st1
  | other => other
  end.
Proof.
  induction pre as [|att pre IH]; intros st; simpl.
  - reflexivity.
  - unfold bind. destruct (attempt_body nc formatted att st) as [[[]|e] st1];
      [apply IH|reflexivity|reflexivity].
Qed.

End Session.

(** ** The commands, case by case *)
Section Runs.
Variable json_loads : string -> result pyobj.
Variable json_dumps : pyobj -> string.
Variable nodes_configuration_to_json : string -> result string.
Variable json_to_nodes_configuration : string -> result string.
Variable highlight : string -> string.
Variable str_upper : string -> string.
Variable LocationScope : Type.
Variable LocationScope_getitem : string -> option LocationScope.
Variable LocationScope_eqb : LocationScope -> LocationScope -> bool.
Implicit Types (st : state LocationScope).

Local Abbreviation fetched := (fetched json_loads nodes_configuration_to_json).
Local Abbreviation edit_loop :=
  (edit_loop json_loads json_dumps json_to_nodes_configuration LocationScope).
Local Abbreviation edit :=
  (edit json_loads json_dumps nodes_configuration_to_json
     json_to_nodes_configuration LocationScope).
Local Abbreviation show :=
  (show json_loads json_dumps nodes_configuration_to_json highlight LocationScope).
Local Abbreviation bootstrap :=
  (bootstrap str_upper LocationScope LocationScope_getitem LocationScope_eqb).
Local Abbreviation shrink := (shrink LocationScope).
Local Abbreviation fetch_events := (fetch_events LocationScope).
Local Abbreviation first_invalid_scope :=
  (first_invalid_scope str_upper LocationScope LocationScope_getitem).

Lemma fetch_run (w : world) st :
  try_except
    (bind (_get_client w)
       (fun _ => bind (_get_nodes_config json_loads nodes_configuration_to_json
                         LocationScope w)
                   (fun nc => ret (inr nc : Z + nat))))
    (fun e => bind (emit (print (str_exn e))) (fun _ => ret (inl 1%Z))) st =
  match fetched w with
  | Raise e =>
      (Ok (inl 1%Z), logged st (fetch_events w ++ [print (str_exn e)]))
  | Ok base =>
      (Ok (inr (length (heap st))),
       {| heap := heap st ++ [base]; edited_text := edited_text st;
          trace := trace st ++ fetch_events w |})
  end.
Proof.
  unfold _get_client, _get_nodes_config, fetched,
    fetch_events.
  unfold try_except, bind, emit, lift, alloc, ret, logged.
  simpl.
  destruct (client_result w) as [[]|e]; simpl;
    [|rewrite <- ?app_assoc; reflexivity].
  destruct (fetch_result w) as [ncm_bin|e]; simpl;
    [|rewrite <- ?app_assoc; reflexivity].
  destruct (nodes_configuration_to_json ncm_bin) as [ncm_json_str|e]; simpl;
    [|rewrite <- ?app_assoc; reflexivity].
  destruct (json_loads ncm_json_str) as [base|e]; simpl;
    [|rewrite <- ?app_assoc; reflexivity].
  rewrite <- ?app_assoc. reflexivity.
Qed.

Lemma edit_run (w : world) st :
  edit w st =
  match fetched w with
  | Raise e =>
      (Ok (Some (Some 1%Z)), logged st (fetch_events w ++ [print (str_exn e)]))
  | Ok base =>
      match edit_loop (length (heap st)) (json_dumps base) (attempts w)
              {| heap := heap st ++ [base]; edited_text := None;
                 trace := trace st ++ fetch_events w |} with
      | (Ok (Some _), st2) => (Ok (Some (Some 0%Z)), st2)
      | (Ok None, st2) => (Ok None, st2)
      | (Raise e, st2) => (Raise e, st2)
      end
  end.
Proof.
  unfold edit. unfold bind at 1. rewrite fetch_run.
  destruct (fetched w) as [base|e]; [|reflexivity].
  unfold bind, read, set_edited_text, ret. simpl.
  rewrite (list_lookup_middle (heap st) [] base (length (heap st)) eq_refl).
  simpl.
  destruct (edit_loop _ _ _ _) as [[[[]|]|e] st2]; reflexivity.
Qed.

Lemma show_run (w : world) st :
  show w st =
  match fetched w with
  | Raise e =>
      (Ok (Some 1%Z), logged st (fetch_events w ++ [print (str_exn e)]))
  | Ok base =>
      (Ok (Some 0%Z),
       {| heap := heap st ++ [base]; edited_text := edited_text st;
          trace := (trace st ++ fetch_events w)
                   ++ [print (highlight (json_dumps base))] |})
  end.
Proof.
  unfold show. unfold bind at 1. rewrite fetch_run.
  destruct (fetched w) as [base|e]; [|reflexivity].
  unfold bind, read, emit, ret. simpl.
  rewrite (list_lookup_middle (heap st) [] base (length (heap st)) eq_refl).
  reflexivity.
Qed.

Lemma scopes_loop_run items : forall rp st,
  exists rp',
    scopes_loop str_upper LocationScope LocationScope_getitem LocationScope_eqb
      items rp st =
    match first_invalid_scope items with
    | Some scope_str =>
        (Ok (inl 1%Z), logged st [print (scope_str +:+ " is not a valid scope")])
    | None => (Ok (inr rp'), st)
    end.
Proof.
  induction items as [|[scope_str factor] items IH]; intros rp st; simpl.
  - exists rp. reflexivity.
  - destruct (LocationScope_getitem (str_upper scope_str)) as [scope|].
    + apply IH.
    + exists rp. reflexivity.
Qed.

(** After the scopes, [bootstrap] and [shrink] do the same: get the admin
    client, issue the call, report. *)
Lemma bootstrap_run (w : world) items st :
  exists rp,
    bootstrap w items st =
    match first_invalid_scope items with
    | Some scope_str =>
        (Ok (Some 1%Z), logged st [print (scope_str +:+ " is not a valid scope")])
    | None =>
        match admin_client_result w with
        | Raise e => (Raise e, logged st [get_cluster_admin_client])
        | Ok _ =>
            match rpc_result w with
            | Ok _ =>
                (Ok None,
                 logged st [get_cluster_admin_client; bootstrapCluster rp 60;
                            print "Successfully bootstrapped the cluster"])
            | Raise e =>
                (Ok (Some 1%Z),
                 logged st [get_cluster_admin_client; bootstrapCluster rp 60;
                            print (str_exn e)])
            end
        end
    end.
Proof.
  destruct (scopes_loop_run items [] st) as [rp Hloop].
  exists rp. unfold bootstrap. unfold bind at 1. rewrite Hloop.
  destruct (first_invalid_scope items); [reflexivity|].
  unfold bind, try_except, emit, lift, ret, logged. simpl.
  destruct (admin_client_result w) as [[]|e]; [|reflexivity].
  destruct (rpc_result w) as [[]|e]; simpl; rewrite <- !app_assoc; reflexivity.
Qed.

Lemma shrink_run (w : world) node_indexes st :
  shrink w node_indexes st =
  match admin_client_result w with
  | Raise e => (Raise e, logged st [get_cluster_admin_client])
  | Ok _ =>
      match rpc_result w with
      | Ok _ =>
          (Ok None,
           logged st [get_cluster_admin_client; removeNodes node_indexes 60;
                      print "Successfully removed the nodes"])
      | Raise e =>
          (Ok (Some 1%Z),
           logged st [get_cluster_admin_client; removeNodes node_indexes 60;
                      print (str_exn e)])
      end
  end.
Proof.
  unfold shrink, bind, try_except, emit, lift, ret, logged. simpl.
  destruct (admin_client_result w) as [[]|e]; [|reflexivity].
  destruct (rpc_result w) as [[]|e]; simpl; rewrite <- !app_assoc; reflexivity.
Qed.

End Runs.

(** ** Version and timestamp *)

(** C1: when the edited document carries a version, reconciliation leaves
    the baseline version plus one if the two are equal ([==]), and the
    version the operator wrote if they differ. *)
Theorem reconcile_version {LocationScope : Type} nc edited_nc att
    (st : state LocationScope) d0 d v0 v1 t0 now e :
  heap st !! nc = Some (PyDict d0) ->
  heap st !! edited_nc = Some (PyDict d) ->
  nc <> edited_nc ->
  dict_get d0 "version" = Some v0 ->
  py_add_1 v0 = Ok v1 ->
  dict_get d0 "last_timestamp" = Some t0 ->
  time_ms (time_time att) = Ok now ->
  dict_get d "version" = Some e ->
  exists st' d',
    reconcile nc edited_nc att st = (Ok tt, st')
    /\ heap st' !! edited_nc = Some (PyDict d')
    /\ dict_get d' "version" = Some (if py_eq e v0 then v1 else e).
Proof.
  intros Hnc Hed Hne Hv0 Hv1 Ht0 Hnow He.
  eexists. exists (reconciled v0 v1 t0 now d).
  split; [eapply reconcile_run; eassumption|].
  split.
  - simpl. apply list_lookup_insert_eq. eapply lookup_lt_Some; eauto.
  - rewrite reconciled_version. unfold same_as. rewrite He.
    destruct (py_eq e v0); reflexivity.
Qed.

Lemma reconcile_version_witness :
  let st := Sample.two_objects Sample.base_items Sample.edited_items in
  let att := Sample.answers 0 "" Sample.clock "1" (Ok tt) false in
  (heap st !! 0 = Some (PyDict Sample.base_items)
   /\ heap st !! 1 = Some (PyDict Sample.edited_items)
   /\ 0 <> 1
   /\ dict_get Sample.base_items "version" = Some (PyInt 5)
   /\ py_add_1 (PyInt 5) = Ok (PyInt 6)
   /\ dict_get Sample.base_items "last_timestamp" = Some (PyInt 1000)
   /\ time_ms (time_time att) = Ok 1610612736000%Z
   /\ dict_get Sample.edited_items "version" = Some (PyInt 5))
  /\ exists st' d',
       reconcile 0 1 att st = (Ok tt, st')
       /\ heap st' !! 1 = Some (PyDict d')
       /\ dict_get d' "version" = Some (PyInt 6).
Proof.
  cbv zeta.
  split; [repeat split; (reflexivity || discriminate)|].
  apply (reconcile_version 0 1 _ _ Sample.base_items Sample.edited_items
           (PyInt 5) (PyInt 6) (PyInt 1000) 1610612736000%Z (PyInt 5));
    (reflexivity || discriminate).
Defined.

(** C2, as the code has it: for a baseline whose timestamp is a number,
    when the edited document carries a timestamp, reconciliation leaves
    [int(time.time() * 1000)] as read from the clock if it equals ([==])
    the baseline's, and the timestamp the operator wrote if it differs.
    The clock reading is not compared with the baseline: it is at least the
    original timestamp exactly when the clock says so. *)
Theorem reconcile_last_timestamp {LocationScope : Type} nc edited_nc att
    (st : state LocationScope) d0 d v0 v1 t0 now e :
  heap st !! nc = Some (PyDict d0) ->
  heap st !! edited_nc = Some (PyDict d) ->
  nc <> edited_nc ->
  dict_get d0 "version" = Some v0 ->
  py_add_1 v0 = Ok v1 ->
  dict_get d0 "last_timestamp" = Some t0 ->
  is_number t0 = true ->
  time_ms (time_time att) = Ok now ->
  dict_get d "last_timestamp" = Some e ->
  exists st' d',
    reconcile nc edited_nc att st = (Ok tt, st')
    /\ heap st' !! edited_nc = Some (PyDict d')
    /\ dict_get d' "last_timestamp" = Some (if py_eq e t0 then PyInt now else e)
    /\ forall t : Z, t0 = PyInt t -> py_eq e t0 = true ->
         ((t <= now)%Z <-> exists t' : Z,
             dict_get d' "last_timestamp" = Some (PyInt t') /\ (t <= t')%Z).
Proof.
  intros Hnc Hed Hne Hv0 Hv1 Ht0 _ Hnow He.
  assert (Hts : dict_get (reconciled v0 v1 t0 now d) "last_timestamp"
                = Some (if py_eq e t0 then PyInt now else e)).
  { rewrite reconciled_last_timestamp. unfold same_as. rewrite He.
    destruct (py_eq e t0); reflexivity. }
  eexists. exists (reconciled v0 v1 t0 now d).
  split; [eapply reconcile_run; eassumption|].
  split; [simpl; apply list_lookup_insert_eq; eapply lookup_lt_Some; eauto|].
  split; [exact Hts|].
  intros t -> Heq. rewrite Hts, Heq. split.
  - intros Hle. exists now. split; [reflexivity|exact Hle].
  - intros (t' & Ht' & Hle). injection Ht' as <-. exact Hle.
Qed.

Lemma reconcile_last_timestamp_witness :
  let st := Sample.two_objects Sample.base_items Sample.edited_items in
  let att := Sample.answers 0 "" Sample.clock "1" (Ok tt) false in
  (heap st !! 0 = Some (PyDict Sample.base_items)
   /\ heap st !! 1 = Some (PyDict Sample.edited_items)
   /\ 0 <> 1
   /\ dict_get Sample.base_items "version" = Some (PyInt 5)
   /\ py_add_1 (PyInt 5) = Ok (PyInt 6)
   /\ dict_get Sample.base_items "last_timestamp" = Some (PyInt 1000)
   /\ is_number (PyInt 1000) = true
   /\ time_ms (time_time att) = Ok 1610612736000%Z
   /\ dict_get Sample.edited_items "last_timestamp" = Some (PyInt 1000))
  /\ exists st' d',
       reconcile 0 1 att st = (Ok tt, st')
       /\ heap st' !! 1 = Some (PyDict d')
       /\ dict_get d' "last_timestamp" = Some (PyInt 1610612736000)
       /\ forall t : Z, PyInt 1000 = PyInt t -> true = true ->
            ((t <= 1610612736000)%Z <-> exists t' : Z,
                dict_get d' "last_timestamp" = Some (PyInt t') /\ (t <= t')%Z).
Proof.
  cbv zeta.
  split; [repeat split; (reflexivity || discriminate)|].
  apply (reconcile_last_timestamp 0 1 _ _ Sample.base_items Sample.edited_items
           (PyInt 5) (PyInt 6) (PyInt 1000) 1610612736000%Z (PyInt 1000));
    (reflexivity || discriminate).
Defined.

(** C2, as stated, fails: the baseline carries a timestamp of November
    2023, the operator leaves it alone, and the clock of the machine reads
    January 2021; the reconciled timestamp is the clock's and lies before
    the original. *)
Lemma reconcile_last_timestamp_behind :
  let base := [("last_timestamp", PyInt 1700000000000); ("version", PyInt 5)] in
  let edited := [("last_timestamp", PyInt 1700000000000);
                 ("nodes", PyList [PyInt 1]); ("version", PyInt 5)] in
  let att := Sample.answers 0 "" Sample.clock "1" (Ok tt) false in
  exists st' d',
    reconcile 0 1 att (Sample.two_objects base edited) = (Ok tt, st')
    /\ heap st' !! 1 = Some (PyDict d')
    /\ dict_get edited "last_timestamp" = dict_get base "last_timestamp"
    /\ dict_get base "last_timestamp" = Some (PyInt 1700000000000)
    /\ time_ms (time_time att) = Ok 1610612736000%Z
    /\ dict_get d' "last_timestamp" = Some (PyInt 1610612736000)
    /\ ~ (1700000000000 <= 1610612736000)%Z.
Proof.
  cbv zeta. eexists. eexists.
  split; [vm_compute; reflexivity|].
  split; [reflexivity|].
  repeat split; try reflexivity. lia.
Qed.


(** ** The loop *)
Section Loop.
Variable json_loads : string -> result pyobj.
Variable json_dumps : pyobj -> string.
Variable json_to_nodes_configuration : string -> result string.
Context {LocationScope : Type}.
Implicit Types (st : state LocationScope).

Local Abbreviation attempt_body :=
  (attempt_body json_loads json_dumps json_to_nodes_configuration LocationScope).
Local Abbreviation edit_loop :=
  (edit_loop json_loads json_dumps json_to_nodes_configuration LocationScope).

(** C3: when the editor succeeds, the text parses, and the document
    serializes to the very lines of the baseline (or, what the code tests,
    the unified diff of the two serializations is empty), the pass ends in
    the error
    "No changes detected" and the question "Try again?": the editor, that
    message and that question are all its events, so the operator is never
    asked to confirm and nothing is encoded or written. *)
Theorem unchanged_edit_is_refused nc formatted att st base parsed :
  heap st !! nc = Some base ->
  editor_returncode att = 0%Z ->
  json_loads (editor_saved att) = Ok parsed ->
  split_nl (json_dumps parsed) = split_nl (json_dumps base)
  \/ difflib.unified_diff (split_nl (json_dumps base))
       (split_nl (json_dumps parsed)) = [] ->
  attempt_body nc formatted att st =
  (Ok (if negb (try_again att) then Break else Continue),
   {| heap := heap st ++ [parsed];
      edited_text := Some (editor_saved att);
      trace := trace st ++ [run_editor (seed_text formatted st);
                            print "No changes detected";
                            confirm_prompt (try_again att)] |}).
Proof.
  intros Hnc Hrc Hloads Hsame.
  assert (Hlt : nc < length (heap st)) by (eapply lookup_lt_Some; eauto).
  rewrite attempt_body_run. unfold attempt_try.
  pose proof (validate_run json_loads json_dumps nc formatted att st) as Hval.
  cbv zeta in Hval. rewrite Hrc, Hloads in Hval. simpl negb in Hval.
  cbv iota in Hval.
  rewrite lookup_app_l, Hnc in Hval by exact Hlt. simpl default in Hval.
  assert (Hempty : difflib.unified_diff (split_nl (json_dumps base))
                     (split_nl (json_dumps parsed)) = []).
  { destruct Hsame as [Hsame|Hempty]; [|exact Hempty].
    rewrite Hsame. apply unified_diff_self. }
  rewrite Hempty in Hval. simpl in Hval.
  rewrite (bind_raise _ _ _ _ _ Hval). unfold logged. simpl.
  rewrite <- app_assoc. reflexivity.
Qed.

End Loop.

Lemma unchanged_edit_is_refused_witness :
  let base := PyDict Sample.base_items in
  let st : state unit :=
    {| heap := [base]; edited_text := None; trace := [] |} in
  let att := Sample.answers 0 (Sample.json_dumps base) Sample.clock "1"
               (Ok tt) false in
  (heap st !! 0 = Some base
   /\ editor_returncode att = 0%Z
   /\ Sample.json_loads (editor_saved att) = Ok base
   /\ (split_nl (Sample.json_dumps base) = split_nl (Sample.json_dumps base)
       \/ difflib.unified_diff (split_nl (Sample.json_dumps base))
            (split_nl (Sample.json_dumps base)) = []))
  /\ attempt_body Sample.json_loads Sample.json_dumps
       Sample.json_to_nodes_configuration unit 0 (Sample.json_dumps base) att st
     = (Ok Break,
        {| heap := [base; base];
           edited_text := Some (Sample.json_dumps base);
           trace := [run_editor (Sample.json_dumps base);
                     print "No changes detected";
                     confirm_prompt false] |}).
Proof.
  cbv zeta.
  split; [repeat split; try (left; reflexivity); vm_compute; reflexivity|].
  refine (unchanged_edit_is_refused Sample.json_loads Sample.json_dumps
            Sample.json_to_nodes_configuration 0
            (Sample.json_dumps (PyDict Sample.base_items))
            (Sample.answers 0 (Sample.json_dumps (PyDict Sample.base_items))
               Sample.clock "1" (Ok tt) false)
            {| heap := [PyDict Sample.base_items]; edited_text := None;
               trace := [] |}
            (PyDict Sample.base_items) (PyDict Sample.base_items) _ _ _ _);
    try (left; reflexivity); vm_compute; reflexivity.
Defined.

Section Retry.
Variable json_loads : string -> result pyobj.
Variable json_dumps : pyobj -> string.
Variable json_to_nodes_configuration : string -> result string.
Context {LocationScope : Type}.
Implicit Types (st : state LocationScope).

Local Abbreviation attempt_body :=
  (attempt_body json_loads json_dumps json_to_nodes_configuration LocationScope).
Local Abbreviation edit_loop :=
  (edit_loop json_loads json_dumps json_to_nodes_configuration LocationScope).

(** C10: when the editor exits with a non-zero status the pass raises
    before the temporary file is read: its events are the editor, the error
    message and the question "Try again?", and [edited_text] and the store
    stay as they were, whatever the editor left in the file.  A retry opens
    the editor on the same seed again.  The seed is the baseline snapshot
    [formatted] as long as [edited_text] is [None], and [edited_text]
    becomes the file left by the editor exactly in the passes where the
    editor exits with status 0. *)
Theorem failed_editor_run_is_discarded nc formatted att st :
  editor_returncode att <> 0%Z ->
  let st' :=
    logged st [run_editor (seed_text formatted st);
               print "Non-zero return code from editor";
               confirm_prompt (try_again att)] in
  attempt_body nc formatted att st
  = (Ok (if negb (try_again att) then Break else Continue), st')
  /\ (forall saved,
        attempt_body nc formatted (with_saved att saved) st
        = attempt_body nc formatted att st)
  /\ seed_text formatted st' = seed_text formatted st
  /\ (forall script,
        try_again att = true ->
        edit_loop nc formatted (att :: script) st
        = edit_loop nc formatted script st')
  /\ (forall att', exists evs,
        trace (snd (attempt_body nc formatted att' st'))
        = trace st' ++ run_editor (seed_text formatted st) :: evs)
  /\ (edited_text st = None -> seed_text formatted st = formatted)
  /\ (forall t, edited_text st = Some t -> seed_text formatted st = t)
  /\ (forall att0 st0,
        edited_text (snd (attempt_body nc formatted att0 st0))
        = if (editor_returncode att0 =? 0)%Z then Some (editor_saved att0)
          else edited_text st0).
Proof.
  intros Hrc.
  assert (Hrun : forall a,
            editor_returncode a = editor_returncode att ->
            try_again a = try_again att ->
            attempt_body nc formatted a st
            = (Ok (if negb (try_again att) then Break else Continue),
               logged st [run_editor (seed_text formatted st);
                          print "Non-zero return code from editor";
                          confirm_prompt (try_again att)])).
  { intros a Ha Hb. rewrite attempt_body_run. unfold attempt_try.
    pose proof (validate_run json_loads json_dumps nc formatted a st) as Hval.
    cbv zeta in Hval. rewrite Ha in Hval.
    destruct (Z.eqb_spec (editor_returncode att) 0) as [|_]; [contradiction|].
    simpl negb in Hval. cbv iota in Hval.
    rewrite (bind_raise _ _ _ _ _ Hval). rewrite Hb, logged_logged.
    reflexivity. }
  cbv zeta. split; [apply Hrun; reflexivity|].
  split; [intros saved; rewrite !Hrun; reflexivity|].
  split; [reflexivity|].
  split.
  { intros script Hagain. simpl. unfold bind.
    rewrite (Hrun att eq_refl eq_refl), Hagain. reflexivity. }
  split.
  { intros att'.
    destruct (attempt_body_shape json_loads json_dumps
                json_to_nodes_configuration nc formatted att'
                (logged st [run_editor (seed_text formatted st);
                            print "Non-zero return code from editor";
                            confirm_prompt (try_again att)]))
      as [_ Hev].
    exact Hev. }
  split; [unfold seed_text; intros ->; reflexivity|].
  split; [unfold seed_text; intros t ->; reflexivity|].
  intros att0 st0.
  apply (attempt_body_shape json_loads json_dumps json_to_nodes_configuration).
Qed.

End Retry.

Lemma failed_editor_run_is_discarded_witness :
  let base := PyDict Sample.base_items in
  let st : state unit :=
    {| heap := [base]; edited_text := None; trace := [] |} in
  let att := Sample.answers 1 "half an edit" Sample.clock "1" (Ok tt) true in
  editor_returncode att <> 0%Z
  /\ attempt_body Sample.json_loads Sample.json_dumps
       Sample.json_to_nodes_configuration unit 0 (Sample.json_dumps base) att st
     = (Ok Continue,
        {| heap := [base]; edited_text := None;
           trace := [run_editor (Sample.json_dumps base);
                     print "Non-zero return code from editor";
                     confirm_prompt true] |}).
Proof.
  cbv zeta. split; [discriminate|].
  refine (proj1 (failed_editor_run_is_discarded Sample.json_loads
                   Sample.json_dumps Sample.json_to_nodes_configuration 0
                   (Sample.json_dumps (PyDict Sample.base_items))
                   (Sample.answers 1 "half an edit" Sample.clock "1" (Ok tt) true)
                   {| heap := [PyDict Sample.base_items]; edited_text := None;
                      trace := [] |} _)).
  discriminate.
Defined.

Section Written.
Variable json_loads : string -> result pyobj.
Variable json_dumps : pyobj -> string.
Variable json_to_nodes_configuration : string -> result string.
Context {LocationScope : Type}.
Implicit Types (st : state LocationScope).

Local Abbreviation attempt_body :=
  (attempt_body json_loads json_dumps json_to_nodes_configuration LocationScope).
Local Abbreviation hands_over :=
  (hands_over json_to_nodes_configuration LocationScope).


End Written.


(** ** The session *)
Section Sessions.
Variable json_loads : string -> result pyobj.
Variable json_dumps : pyobj -> string.
Variable nodes_configuration_to_json : string -> result string.
Variable json_to_nodes_configuration : string -> result string.
Variable highlight : string -> string.
Variable str_upper : string -> string.
Variable LocationScope : Type.
Variable LocationScope_getitem : string -> option LocationScope.
Variable LocationScope_eqb : LocationScope -> LocationScope -> bool.
Implicit Types (st : state LocationScope).

Local Abbreviation fetched := (fetched json_loads nodes_configuration_to_json).
Local Abbreviation edit_loop :=
  (edit_loop json_loads json_dumps json_to_nodes_configuration LocationScope).
Local Abbreviation edit :=
  (edit json_loads json_dumps nodes_configuration_to_json
     json_to_nodes_configuration LocationScope).
Local Abbreviation show :=
  (show json_loads json_dumps nodes_configuration_to_json highlight LocationScope).
Local Abbreviation bootstrap :=
  (bootstrap str_upper LocationScope LocationScope_getitem LocationScope_eqb).
Local Abbreviation shrink := (shrink LocationScope).
Local Abbreviation first_invalid_scope :=
  (first_invalid_scope str_upper LocationScope LocationScope_getitem).
Local Abbreviation fetch_events := (fetch_events LocationScope).
Local Abbreviation loop_event :=
  (loop_event json_dumps json_to_nodes_configuration LocationScope).
Local Abbreviation reconciled_against := (reconciled_against json_dumps).

Lemma fetched_events (w : world) base :
  fetched w = Ok base -> fetch_events w = [build_client; get_nodes_configuration].
Proof.
  unfold fetched, fetch_events. destruct (client_result w); [reflexivity|discriminate].
Qed.

(** A document reconciled against a baseline with an integer version
    carries another version. *)
Lemma reconciled_against_version d0 v json_str :
  reconciled_against (PyDict d0) json_str ->
  dict_get d0 "version" = Some (PyInt v) ->
  exists d' ver,
    json_str = json_dumps (PyDict d')
    /\ dict_get d' "version" = Some ver
    /\ py_eq ver (PyInt v) = false
    /\ ver <> PyInt v.
Proof.
  intros (d0' & d & v0 & v1 & t0 & now & Hb & Hv0 & Ht0 & Hv1 & ->) Hv.
  injection Hb as <-. rewrite Hv in Hv0. injection Hv0 as <-.
  exists (reconciled (PyInt v) v1 t0 now d).
  assert (Hver : exists ver,
            dict_get (reconciled (PyInt v) v1 t0 now d) "version" = Some ver
            /\ py_eq ver (PyInt v) = false).
  { rewrite reconciled_version.
    destruct (same_as d "version" (PyInt v)) eqn:Hsame.
    - specialize (Hv1 eq_refl). simpl in Hv1. injection Hv1 as <-.
      eexists. split; [reflexivity|]. simpl. apply Z.eqb_neq. lia.
    - unfold same_as in Hsame.
      destruct (dict_get d "version") as [e|]; [|discriminate].
      eauto. }
  destruct Hver as (ver & Hget & Hneq).
  exists ver. repeat split; try assumption.
  apply py_eq_false_neq. exact Hneq.
Qed.

(** C4: in a session whose baseline carries the integer version [v], every
    document handed to the encoder, and so every configuration written
    back, carries a version that differs from [v]. *)
Theorem applied_version_differs (w : world) st d0 v :
  fetched w = Ok (PyDict d0) ->
  dict_get d0 "version" = Some (PyInt v) ->
  exists evs,
    trace (snd (edit w st)) = trace st ++ evs
    /\ (forall json_str,
          In (encode_nodes_configuration json_str) evs ->
          exists d' ver,
            json_str = json_dumps (PyDict d')
            /\ dict_get d' "version" = Some ver
            /\ py_eq ver (PyInt v) = false
            /\ ver <> PyInt v)
    /\ (forall nc_bin,
          In (overwrite_nodes_configuration nc_bin) evs ->
          exists d' ver,
            json_to_nodes_configuration (json_dumps (PyDict d')) = Ok nc_bin
            /\ dict_get d' "version" = Some ver
            /\ py_eq ver (PyInt v) = false
            /\ ver <> PyInt v).
Proof.
  intros Hfetched Hv.
  rewrite edit_run, Hfetched. rewrite (fetched_events _ _ Hfetched).
  destruct (edit_loop _ _ _ _) as [r st2] eqn:Hloop.
  apply edit_loop_inv with (base := PyDict d0) in Hloop.
  2:{ simpl. apply list_lookup_middle. reflexivity. }
  destruct Hloop as (_ & evs & Htr & Hev). simpl in Htr.
  exists ([build_client; get_nodes_configuration] ++ evs).
  split.
  { rewrite app_assoc, <- Htr. destruct r as [[[]|]|e]; reflexivity. }
  rewrite List.Forall_forall in Hev.
  split.
  - intros json_str [Hin|[Hin|Hin]]; try discriminate.
    specialize (Hev _ Hin). simpl in Hev.
    eapply reconciled_against_version; eassumption.
  - intros nc_bin [Hin|[Hin|Hin]]; try discriminate.
    specialize (Hev _ Hin). simpl in Hev.
    destruct Hev as (json_str & Hrec & Hbin).
    destruct (reconciled_against_version _ _ _ Hrec Hv)
      as (d' & ver & -> & Hget & Hneq & Hne).
    exists d', ver. repeat split; assumption.
Qed.

Lemma first_invalid_scope_In items scope_str factor :
  In (scope_str, factor) items ->
  LocationScope_getitem (str_upper scope_str) = None ->
  exists bad,
    first_invalid_scope items = Some bad
    /\ In bad (map fst items)
    /\ LocationScope_getitem (str_upper bad) = None.
Proof.
  induction items as [|[s f] items IH]; intros Hin Hbad; [destruct Hin|].
  simpl. destruct (LocationScope_getitem (str_upper s)) eqn:Hs.
  - destruct Hin as [Heq|Hin]; [injection Heq as -> ->; congruence|].
    destruct (IH Hin Hbad) as (bad & Hfirst & Hmem & Hnone).
    exists bad. repeat split; auto.
  - exists s. repeat split; auto.
Qed.

(** C7: when the replication mapping holds a scope name whose upper-case
    form is not in the enumeration, [bootstrap] prints that the first such
    name is not a valid scope and returns 1; that line is its only event:
    no admin client is asked for and no RPC is issued. *)
Theorem bootstrap_rejects_unknown_scope (w : world) items st scope_str factor :
  In (scope_str, factor) items ->
  LocationScope_getitem (str_upper scope_str) = None ->
  exists bad,
    In bad (map fst items)
    /\ LocationScope_getitem (str_upper bad) = None
    /\ bootstrap w items st
       = (Ok (Some 1%Z), logged st [print (bad +:+ " is not a valid scope")]).
Proof.
  intros Hin Hbad.
  destruct (first_invalid_scope_In _ _ _ Hin Hbad) as (bad & Hfirst & Hmem & Hnone).
  exists bad. split; [exact Hmem|]. split; [exact Hnone|].
  destruct (bootstrap_run str_upper LocationScope LocationScope_getitem
              LocationScope_eqb w items st) as [rp Hrun].
  rewrite Hrun, Hfirst. reflexivity.
Qed.

(** What the four commands return: [show] returns 0 when the
    configuration was fetched and 1 when it was not.  [edit] returns 1 when the baseline
    cannot be fetched; after the fetch it returns 0 whenever its loop is
    left, whatever happened in the passes, and an exception the loop does
    not catch leaves it.  [bootstrap] returns 1 for a scope name that is not
    in the enumeration and when the RPC raises, [shrink] returns 1 when the
    RPC raises; when the RPC succeeds both end without a [return], which is
    Python's [None]; an exception raised while getting the admin client
    leaves them. *)
Theorem exit_status (w : world) st items node_indexes :
  fst (show w st)
  = Ok (Some (match fetched w with Ok _ => 0%Z | Raise _ => 1%Z end))
  /\ fst (edit w st)
     = match fetched w with
       | Raise _ => Ok (Some (Some 1%Z))
       | Ok base =>
           match fst (edit_loop (length (heap st)) (json_dumps base) (attempts w)
                        {| heap := heap st ++ [base]; edited_text := None;
                           trace := trace st ++ fetch_events w |}) with
           | Ok (Some _) => Ok (Some (Some 0%Z))
           | Ok None => Ok None
           | Raise e => Raise e
           end
       end
  /\ fst (bootstrap w items st)
     = match first_invalid_scope items with
       | Some _ => Ok (Some 1%Z)
       | None =>
           match admin_client_result w with
           | Raise e => Raise e
           | Ok _ =>
               match rpc_result w with
               | Ok _ => Ok None
               | Raise _ => Ok (Some 1%Z)
               end
           end
       end
  /\ fst (shrink w node_indexes st)
     = match admin_client_result w with
       | Raise e => Raise e
       | Ok _ =>
           match rpc_result w with
           | Ok _ => Ok None
           | Raise _ => Ok (Some 1%Z)
           end
       end.
Proof.
  split.
  { rewrite show_run. destruct (fetched w); reflexivity. }
  split.
  { rewrite edit_run. destruct (fetched w) as [base|e]; [|reflexivity].
    destruct (edit_loop _ _ _ _) as [[[[]|]|e] st2]; reflexivity. }
  split.
  { destruct (bootstrap_run str_upper LocationScope LocationScope_getitem
                LocationScope_eqb w items st) as [rp ->].
    destruct (first_invalid_scope items); [reflexivity|].
    destruct (admin_client_result w); [|reflexivity].
    destruct (rpc_result w); reflexivity. }
  rewrite shrink_run.
  destruct (admin_client_result w); [|reflexivity].
  destruct (rpc_result w); reflexivity.
Qed.

End Sessions.

(** ** The sample cluster *)

Lemma applied_version_differs_witness :
  let w := Sample.cluster
             [Sample.answers 0 (Sample.json_dumps (PyDict Sample.edited_items))
                Sample.clock "1" (Ok tt) false] (Ok tt) in
  (fetched Sample.json_loads Sample.nodes_configuration_to_json w
   = Ok (PyDict Sample.base_items)
   /\ dict_get Sample.base_items "version" = Some (PyInt 5))
  /\ exists evs,
       trace (snd (Sample.edit w initial)) = trace initial ++ evs
       /\ (forall json_str,
             In (encode_nodes_configuration json_str) evs ->
             exists d' ver,
               json_str = Sample.json_dumps (PyDict d')
               /\ dict_get d' "version" = Some ver
               /\ py_eq ver (PyInt 5) = false
               /\ ver <> PyInt 5)
       /\ (forall nc_bin,
             In (overwrite_nodes_configuration nc_bin) evs ->
             exists d' ver,
               Sample.json_to_nodes_configuration
                 (Sample.json_dumps (PyDict d')) = Ok nc_bin
               /\ dict_get d' "version" = Some ver
               /\ py_eq ver (PyInt 5) = false
               /\ ver <> PyInt 5).
Proof.
  cbv zeta.
  split; [split; vm_compute; reflexivity|].
  apply (applied_version_differs Sample.json_loads Sample.json_dumps
           Sample.nodes_configuration_to_json Sample.json_to_nodes_configuration
           Sample.LocationScope _ initial Sample.base_items 5%Z);
    vm_compute; reflexivity.
Defined.

Lemma bootstrap_rejects_unknown_scope_witness :
  let items := [("rack", 2%Z); ("galaxy", 3%Z)] in
  (In ("galaxy", 3%Z) items
   /\ Sample.LocationScope_getitem (Sample.str_upper "galaxy") = None)
  /\ exists bad,
       In bad (map fst items)
       /\ Sample.LocationScope_getitem (Sample.str_upper bad) = None
       /\ Sample.bootstrap (Sample.cluster [] (Ok tt)) items initial
          = (Ok (Some 1%Z),
             logged initial [print (bad +:+ " is not a valid scope")]).
Proof.
  cbv zeta.
  split; [split; [right; left; reflexivity|reflexivity]|].
  apply (bootstrap_rejects_unknown_scope Sample.str_upper Sample.LocationScope
           Sample.LocationScope_getitem Sample.LocationScope_eqb
           (Sample.cluster [] (Ok tt)) [("rack", 2%Z); ("galaxy", 3%Z)]
           initial "galaxy" 3%Z);
    [right; left; reflexivity|reflexivity].
Defined.

(** C6, where the code falls short of it.  [bootstrap] with the one scope
    ["rack"] and an RPC that succeeds logs its success and ends without a
    [return]: the command returns [None], not the integer 0.  [shrink] does
    the same after removing node 3.  On the same cluster [show] ends with
    [return 0], and when the RPC raises [bootstrap] and [shrink] themselves
    return 1. *)
Lemma exit_status_not_an_integer :
  Sample.bootstrap (Sample.cluster [] (Ok tt)) [("rack", 2%Z)] initial
  = (Ok None,
     logged initial
       [get_cluster_admin_client;
        bootstrapCluster [(Sample.RACK, 2%Z)] 60;
        print "Successfully bootstrapped the cluster"])
  /\ Sample.shrink (Sample.cluster [] (Ok tt)) [3%Z] initial
     = (Ok None,
        logged initial
          [get_cluster_admin_client;
           removeNodes [3%Z] 60;
           print "Successfully removed the nodes"])
  /\ fst (Sample.show (Sample.cluster [] (Ok tt)) initial) = Ok (Some 0%Z)
  /\ fst (Sample.bootstrap
            (Sample.cluster [] (Raise (Exception "already bootstrapped")))
            [("rack", 2%Z)] initial)
     = Ok (Some 1%Z)
  /\ fst (Sample.shrink
            (Sample.cluster [] (Raise (Exception "node 3 is alive")))
            [3%Z] initial)
     = Ok (Some 1%Z).
Proof.
  repeat split; vm_compute; reflexivity.
Qed.

(** ** The opcodes are an edit script *)
Section Script.
Import difflib.
Variables a b : list string.

Lemma before_trans r s t :
  range_ok s -> before r s -> before s t -> before r t.
Proof.
  destruct r as [[[? ?] ?] ?], s as [[[? ?] ?] ?], t as [[[? ?] ?] ?].
  simpl. lia.
Qed.

Lemma apart_sym r s : apart r s -> apart s r.
Proof. unfold apart. tauto. Qed.

(** A range apart from [r] is apart from every range within [r]. *)
Lemma apart_within x alo ahi blo bhi alo' ahi' blo' bhi' :
  alo <= alo' -> ahi' <= ahi -> blo <= blo' -> bhi' <= bhi ->
  apart x (alo, ahi, blo, bhi) -> apart x (alo', ahi', blo', bhi').
Proof.
  destruct x as [[[? ?] ?] ?]. unfold apart. simpl. lia.
Qed.

Lemma chain_app l m :
  chain (l ++ m) <->
  chain l /\ chain m /\ Forall (fun x => Forall (apart x) m) l.
Proof.
  induction l as [|x l IH]; simpl.
  - split; [intros H; repeat split; auto|tauto].
  - rewrite IH, Forall_app, Forall_cons. tauto.
Qed.

Lemma chain_snoc l x :
  chain l -> Forall (fun y => apart y x) l -> chain (l ++ [x]).
Proof.
  intros Hl Hx. apply chain_app. split; [exact Hl|]. split; [simpl; auto|].
  eapply Forall_impl; [exact Hx|]. intros y Hy. constructor; [exact Hy|constructor].
Qed.

Lemma Forall_apart_within rest alo ahi blo bhi alo' ahi' blo' bhi' :
  alo <= alo' -> ahi' <= ahi -> blo <= blo' -> bhi' <= bhi ->
  Forall (apart (alo, ahi, blo, bhi)) rest ->
  Forall (apart (alo', ahi', blo', bhi')) rest
  /\ Forall (fun y => apart y (alo', ahi', blo', bhi')) rest.
Proof.
  intros H1 H2 H3 H4 Hrest.
  split; (eapply Forall_impl; [exact Hrest|]); intros y Hy;
    [apply apart_sym|];
    apply (apart_within y alo ahi blo bhi); auto using apart_sym.
Qed.

(** The blocks found lie one before the other, in some order. *)
Lemma match_queue_chain fuel : forall queue matching_blocks,
  Forall range_ok queue ->
  chain (queue ++ map block_range matching_blocks) ->
  chain (map block_range (match_queue a b fuel queue matching_blocks)).
Proof.
  induction fuel as [|fuel IH]; intros queue acc Hq Hch.
  - destruct queue; [exact Hch|].
    apply (chain_app (_ :: _)) in Hch. apply Hch.
  - destruct queue as [|[[[alo ahi] blo] bhi] queue]; [exact Hch|].
    apply Forall_cons in Hq. destruct Hq as [[Ha Hb] Hq]. simpl in Ha, Hb.
    cbn [match_queue].
    pose proof (find_longest_match_within a b alo ahi blo bhi Ha Hb) as Hin.
    destruct (find_longest_match a b alo ahi blo bhi) as [[i j] k].
    simpl in Hin. destruct Hin as (Hi1 & Hi2 & Hj1 & Hj2).
    simpl in Hch. destruct Hch as [HR Hrest].
    destruct (Nat.eqb_spec k 0) as [->|Hk]; [apply IH; assumption|].
    set (rest := queue ++ map block_range acc) in *.
    destruct (Forall_apart_within rest alo ahi blo bhi i (i + k) j (j + k))
      as [_ HB]; try lia; try exact HR.
    destruct (Forall_apart_within rest alo ahi blo bhi alo i blo j)
      as [HL _]; try lia; try exact HR.
    destruct (Forall_apart_within rest alo ahi blo bhi (i + k) ahi (j + k) bhi)
      as [HRt _]; try lia; try exact HR.
    assert (Hnew : chain (rest ++ [(i, i + k, j, j + k)]))
      by (apply chain_snoc; assumption).
    assert (HL' : Forall (apart (alo, i, blo, j)) (rest ++ [(i, i + k, j, j + k)])).
    { apply Forall_app. split; [exact HL|].
      constructor; [left; simpl; lia|constructor]. }
    assert (HRt' : Forall (apart (i + k, ahi, j + k, bhi))
                     (rest ++ [(i, i + k, j, j + k)])).
    { apply Forall_app. split; [exact HRt|].
      constructor; [right; simpl; lia|constructor]. }
    apply IH.
    + destruct (Nat.ltb_spec alo i), (Nat.ltb_spec blo j),
        (Nat.ltb_spec (i + k) ahi), (Nat.ltb_spec (j + k) bhi); simpl;
        repeat (constructor; [simpl; lia|]); exact Hq.
    + rewrite map_app. simpl map.
      change (block_range (i, j, k)) with (i, i + k, j, j + k).
      destruct ((alo <? i) && (blo <? j)), ((i + k <? ahi) && (j + k <? bhi));
        simpl; rewrite ?app_assoc; fold rest; repeat split; auto.
      constructor; [right; simpl; lia|exact HRt'].
Qed.

(** *** Sorting and collapsing *)

Lemma insert_block_Forall (P : block -> Prop) x l :
  Forall P (insert_block x l) <-> P x /\ Forall P l.
Proof.
  induction l as [|y l IH]; simpl.
  - rewrite Forall_cons. tauto.
  - destruct (block_leb x y).
    + rewrite Forall_cons. tauto.
    + rewrite !Forall_cons, IH. tauto.
Qed.

Lemma sort_blocks_Forall (P : block -> Prop) l :
  Forall P (sort_blocks l) <-> Forall P l.
Proof.
  induction l as [|x l IH]; simpl; [tauto|].
  fold (sort_blocks l). rewrite insert_block_Forall, Forall_cons, IH. tauto.
Qed.

(** Among blocks that are apart and not empty, the order of the tuples is
    the order of the ranges. *)
Lemma block_leb_before x y :
  snd x <> 0 -> snd y <> 0 ->
  apart (block_range x) (block_range y) ->
  if block_leb x y then before (block_range x) (block_range y)
  else before (block_range y) (block_range x).
Proof.
  destruct x as [[i1 j1] k1], y as [[i2 j2] k2]. unfold apart, block_leb.
  simpl. intros Hk1 Hk2 Hap.
  destruct (Nat.ltb_spec i1 i2), (Nat.eqb_spec i1 i2), (Nat.ltb_spec j1 j2),
    (Nat.eqb_spec j1 j2), (Nat.leb_spec k1 k2); simpl; lia.
Qed.

Lemma insert_block_ascending x l :
  snd x <> 0 -> Forall (fun y => snd y <> 0) l ->
  Forall (fun y => apart (block_range x) (block_range y)) l ->
  ascending l -> ascending (insert_block x l).
Proof.
  intros Hx. induction l as [|y l IH]; intros Hl Hap Hasc; simpl.
  - split; [constructor|exact I].
  - apply Forall_cons in Hl, Hap. destruct Hl as [Hy Hl], Hap as [Hxy Hap].
    destruct Hasc as [Hyl Hasc].
    pose proof (block_leb_before x y Hx Hy Hxy) as Hord.
    destruct (block_leb x y); simpl.
    + split; [|split; assumption].
      constructor; [exact Hord|].
      eapply Forall_impl; [exact Hyl|]. intros z Hz.
      apply (before_trans _ (block_range y)); [|assumption|assumption].
      destruct y as [[? ?] ?]. simpl. lia.
    + split; [|apply IH; assumption].
      apply insert_block_Forall. split; assumption.
Qed.

Lemma sort_blocks_ascending l :
  Forall (fun y => snd y <> 0) l ->
  chain (map block_range l) ->
  ascending (sort_blocks l).
Proof.
  induction l as [|x l IH]; intros Hl Hch; simpl; [exact I|].
  fold (sort_blocks l).
  apply Forall_cons in Hl. destruct Hl as [Hx Hl]. destruct Hch as [Hap Hch].
  apply insert_block_ascending; [exact Hx| | |apply IH; assumption].
  - apply sort_blocks_Forall. exact Hl.
  - apply sort_blocks_Forall. apply (proj1 (List.Forall_map _ _ _)) in Hap.
    exact Hap.
Qed.

Lemma collapse_ascending l : forall cur,
  ascending l ->
  Forall (fun y => before (block_range cur) (block_range y)) l ->
  ascending (collapse l cur)
  /\ Forall (fun y => fst (fst cur) <= fst (fst y)
                      /\ snd (fst cur) <= snd (fst y)) (collapse l cur).
Proof.
  induction l as [|[[i2 j2] k2] l IH]; intros [[i1 j1] k1] Hasc Hcur; simpl.
  - destruct (k1 =? 0); simpl; repeat constructor.
  - destruct Hasc as [Hnext Hasc].
    apply Forall_cons in Hcur. destruct Hcur as [Hb Hcur]. simpl in Hb.
    destruct (Nat.eqb_spec (i1 + k1) i2) as [Hi|Hi]; simpl.
    + destruct (Nat.eqb_spec (j1 + k1) j2) as [Hj|Hj]; simpl.
      * apply (IH (i1, j1, k1 + k2)); [exact Hasc|].
        eapply Forall_impl; [exact Hnext|].
        intros [[i3 j3] k3]. simpl. lia.
      * destruct (IH (i2, j2, k2) Hasc Hnext) as [Ha Hlow].
        assert (Hlow' : Forall (fun y => i1 + k1 <= fst (fst y)
                                         /\ j1 + k1 <= snd (fst y))
                          (collapse l (i2, j2, k2))).
        { eapply Forall_impl; [exact Hlow|]. intros [[i3 j3] k3]. simpl. lia. }
        destruct (k1 =? 0); simpl.
        -- split; [exact Ha|].
           eapply Forall_impl; [exact Hlow'|]. intros [[i3 j3] k3]. simpl. lia.
        -- split.
           ++ split; [|exact Ha].
              eapply Forall_impl; [exact Hlow'|]. intros [[i3 j3] k3]. simpl. lia.
           ++ constructor; [simpl; lia|].
              eapply Forall_impl; [exact Hlow'|].
              intros [[i3 j3] k3]. simpl. lia.
    + destruct (IH (i2, j2, k2) Hasc Hnext) as [Ha Hlow].
      assert (Hlow' : Forall (fun y => i1 + k1 <= fst (fst y)
                                       /\ j1 + k1 <= snd (fst y))
                        (collapse l (i2, j2, k2))).
      { eapply Forall_impl; [exact Hlow|]. intros [[i3 j3] k3]. simpl. lia. }
      destruct (k1 =? 0); simpl.
      * split; [exact Ha|].
        eapply Forall_impl; [exact Hlow'|]. intros [[i3 j3] k3]. simpl. lia.
      * split.
        -- split; [|exact Ha].
           eapply Forall_impl; [exact Hlow'|]. intros [[i3 j3] k3]. simpl. lia.
        -- constructor; [simpl; lia|].
           eapply Forall_impl; [exact Hlow'|].
           intros [[i3 j3] k3]. simpl. lia.
Qed.

(** The matching blocks, the closing one included, are in increasing
    order. *)
Lemma get_matching_blocks_ascending :
  exists blocks,
    get_matching_blocks a b = blocks ++ [(length a, length b, 0)]
    /\ Forall (block_good a b) blocks
    /\ ascending (blocks ++ [(length a, length b, 0)]).
Proof.
  unfold get_matching_blocks. eexists. split; [reflexivity|].
  assert (Hgood : Forall (block_good a b)
                    (match_queue a b (2 * length a + 1)
                       [(0, length a, 0, length b)] [])).
  { apply match_queue_good; [|constructor].
    constructor; [|constructor]. simpl. lia. }
  assert (Hcollapsed : Forall (block_good a b)
            (collapse (sort_blocks (match_queue a b (2 * length a + 1)
                                      [(0, length a, 0, length b)] []))
               (0, 0, 0))).
  { apply collapse_good; [|left; reflexivity].
    apply sort_blocks_good. exact Hgood. }
  split; [exact Hcollapsed|].
  destruct (collapse_ascending
              (sort_blocks (match_queue a b (2 * length a + 1)
                              [(0, length a, 0, length b)] []))
              (0, 0, 0)) as [Hasc _].
  - apply sort_blocks_ascending.
    + eapply Forall_impl; [exact Hgood|]. intros y Hy. apply Hy.
    + apply match_queue_chain.
      * constructor; [|constructor]. simpl. lia.
      * simpl. split; [constructor|exact I].
  - apply sort_blocks_Forall.
    eapply Forall_impl; [exact Hgood|]. intros [[i j] k] _. simpl. lia.
  - set (blocks := collapse _ _) in *. clearbody blocks.
    induction blocks as [|x blocks IH]; simpl.
    + split; [constructor|exact I].
    + destruct Hasc as [Hx Hasc].
      apply Forall_cons in Hcollapsed. destruct Hcollapsed as [Hgx Hcollapsed].
      split; [|apply IH; assumption].
      apply Forall_app. split; [exact Hx|].
      constructor; [|constructor].
      destruct Hgx as (_ & Hw & _). destruct x as [[i j] k]. simpl in *. lia.
Qed.

(** *** Slices *)

Lemma slice_app (l : list string) i m n :
  i <= m -> m <= n -> slice l i m ++ slice l m n = slice l i n.
Proof.
  intros Him Hmn. unfold slice.
  replace (drop m l) with (drop (m - i) (drop i l))
    by (rewrite drop_drop; f_equal; lia).
  rewrite take_take_drop. f_equal. lia.
Qed.

Lemma slice_empty (l : list string) i n : n <= i -> slice l i n = [].
Proof.
  intros Hle. unfold slice. replace (n - i) with 0 by lia. apply take_0.
Qed.

Lemma slice_all (l : list string) : slice l 0 (length l) = l.
Proof. unfold slice. rewrite Nat.sub_0_r. apply firstn_all. Qed.

(** A block is the same slice of both sequences. *)
Lemma block_match_slice i j k :
  block_match a b (i, j, k) ->
  i + k <= length a -> j + k <= length b ->
  slice a i (i + k) = slice b j (j + k).
Proof.
  intros Hm Ha Hb. unfold slice.
  replace (i + k - i) with k by lia. replace (j + k - j) with k by lia.
  apply list_eq. intros t. rewrite !lookup_take.
  destruct (decide (t < k)) as [Ht|_]; [|reflexivity].
  rewrite !lookup_drop.
  destruct (lookup_lt_is_Some_2 a (i + t)) as [x Hx]; [lia|].
  destruct (lookup_lt_is_Some_2 b (j + t)) as [y Hy]; [lia|].
  pose proof (Hm t Ht) as Hxy.
  rewrite (nth_lookup_Some _ _ _ _ Hx), (nth_lookup_Some _ _ _ _ Hy) in Hxy.
  rewrite Hx, Hy, Hxy. reflexivity.
Qed.

(** *** The opcodes between and on the blocks *)

Lemma opcodes_from_cons ai bj size blocks i j :
  opcodes_from ((ai, bj, size) :: blocks) i j
  = (if (i <? ai) && (j <? bj) then [(Replace, i, ai, j, bj)]
     else if i <? ai then [(Delete, i, ai, j, bj)]
     else if j <? bj then [(Insert, i, ai, j, bj)]
     else [])
    ++ (if size =? 0 then [] else [(Equal, ai, ai + size, bj, bj + size)])
    ++ opcodes_from blocks (ai + size) (bj + size).
Proof. reflexivity. Qed.

Local Abbreviation covers := (covers a b).

Lemma covers_app codes codes' i m n j p q :
  i <= m -> m <= n -> j <= p -> p <= q ->
  covers codes i m j p -> covers codes' m n p q ->
  covers (codes ++ codes') i n j q.
Proof.
  intros Him Hmn Hjp Hpq (Ha & Hb & Hs & He) (Ha' & Hb' & Hs' & He').
  unfold covers. rewrite !map_app, !concat_app, Ha, Ha', Hb, Hb'.
  rewrite !slice_app by assumption.
  repeat split; try reflexivity; apply Forall_app; split; assumption.
Qed.

Lemma covers_gap i ai j bj :
  i <= ai -> j <= bj ->
  covers (if (i <? ai) && (j <? bj) then [(Replace, i, ai, j, bj)]
          else if i <? ai then [(Delete, i, ai, j, bj)]
          else if j <? bj then [(Insert, i, ai, j, bj)]
          else []) i ai j bj.
Proof.
  intros Hi Hj. unfold covers.
  destruct (Nat.ltb_spec i ai), (Nat.ltb_spec j bj); simpl;
    rewrite ?app_nil_r, ?(slice_empty a i ai), ?(slice_empty b j bj) by lia;
    repeat split; try reflexivity;
    repeat constructor; simpl; try lia; discriminate.
Qed.

Lemma covers_block ai bj size :
  block_good a b (ai, bj, size) ->
  covers [(Equal, ai, ai + size, bj, bj + size)]
    ai (ai + size) bj (bj + size).
Proof.
  intros (Hk & Hw & Hm). simpl in Hk, Hw. unfold covers. simpl.
  rewrite !app_nil_r. repeat split; try reflexivity.
  - repeat constructor; simpl; lia.
  - repeat constructor. intros _. simpl.
    apply block_match_slice; [exact Hm|lia|lia].
Qed.

Lemma opcodes_from_covers blocks : forall i j,
  Forall (block_good a b) blocks ->
  ascending (blocks ++ [(length a, length b, 0)]) ->
  Forall (fun y => i <= fst (fst y) /\ j <= snd (fst y))
    (blocks ++ [(length a, length b, 0)]) ->
  covers (opcodes_from (blocks ++ [(length a, length b, 0)]) i j)
    i (length a) j (length b).
Proof.
  induction blocks as [|[[ai bj] size] blocks IH]; intros i j Hgood Hasc Hlow.
  - apply Forall_cons in Hlow. destruct Hlow as [[Hi Hj] _]. simpl in Hi, Hj.
    simpl app. rewrite opcodes_from_cons. simpl (0 =? 0). cbn [opcodes_from].
    rewrite !app_nil_r. apply covers_gap; assumption.
  - apply Forall_cons in Hgood. destruct Hgood as [Hblk Hgood].
    apply Forall_cons in Hlow. destruct Hlow as [[Hi Hj] _]. simpl in Hi, Hj.
    destruct Hasc as [Hnext Hasc].
    pose proof Hblk as (Hk & Hw & _). simpl in Hk, Hw.
    change (((ai, bj, size) :: blocks) ++ [(length a, length b, 0)])
      with ((ai, bj, size) :: (blocks ++ [(length a, length b, 0)])).
    rewrite opcodes_from_cons.
    destruct (Nat.eqb_spec size 0) as [|_]; [contradiction|].
    apply (covers_app _ _ i ai (length a) j bj (length b)); try lia.
    + apply covers_gap; assumption.
    + apply (covers_app _ _ ai (ai + size) (length a) bj (bj + size) (length b));
        try lia.
      * apply covers_block. exact Hblk.
      * apply IH; [exact Hgood|exact Hasc|].
        eapply Forall_impl; [exact Hnext|].
        intros [[i3 j3] k3]. simpl. lia.
Qed.

Lemma apply_opcodes_b codes :
  Forall (fun c => is_equal c = true -> a_part a c = b_part b c) codes ->
  apply_opcodes a b codes = concat (map (b_part b) codes).
Proof.
  unfold apply_opcodes. induction 1 as [|c codes Hc _ IH]; simpl; [reflexivity|].
  rewrite IH. destruct (is_equal c); [rewrite Hc by reflexivity|]; reflexivity.
Qed.

End Script.

(** ** The hunks of the diff *)
Section Hunks.
Import difflib.
Variables a b : list string.

Local Abbreviation script := (script a b).
Local Abbreviation hunks := (hunks a b).

Lemma slice_sub (l : list string) i1 i2 x y :
  x <= y -> y <= i2 - i1 ->
  slice l (i1 + x) (i1 + y) = take (y - x) (drop x (slice l i1 i2)).
Proof.
  intros Hxy Hy. unfold slice.
  rewrite skipn_firstn_comm, take_take, drop_drop.
  f_equal. lia.
Qed.

Lemma equal_sub i1 i2 j1 j2 x y :
  slice a i1 i2 = slice b j1 j2 ->
  x <= y -> y <= i2 - i1 -> y <= j2 - j1 ->
  slice a (i1 + x) (i1 + y) = slice b (j1 + x) (j1 + y).
Proof.
  intros Heq Hxy Hi Hj.
  rewrite (slice_sub a i1 i2), (slice_sub b j1 j2) by assumption.
  rewrite Heq. reflexivity.
Qed.

Lemma equal_part i1 i2 j1 j2 x y u v :
  slice a i1 i2 = slice b j1 j2 -> i2 - i1 = j2 - j1 ->
  i1 <= x -> x <= y -> y <= i2 ->
  u = j1 + (x - i1) -> v = j1 + (y - i1) ->
  slice a x y = slice b u v.
Proof.
  intros Heq Hlen Hx Hxy Hy -> ->.
  replace x with (i1 + (x - i1)) at 1 by lia.
  replace y with (i1 + (y - i1)) at 1 by lia.
  apply (equal_sub i1 i2 j1 j2); [exact Heq|lia|lia|lia].
Qed.

Lemma script_app codes : forall codes' i m n j p q,
  script codes i m j p -> script codes' m n p q ->
  script (codes ++ codes') i n j q.
Proof.
  induction codes as [|[[[[t i1] i2] j1] j2] codes IH];
    intros codes' i m n j p q H1 H2; simpl in *.
  - destruct H1 as [<- <-]. exact H2.
  - destruct H1 as (Hi & Hj & Hle1 & Hle2 & Heq & Hrest).
    repeat (split; [assumption|]). eapply IH; eassumption.
Qed.

(** A script goes forward. *)
Lemma script_le codes : forall i i' j j',
  script codes i i' j j' -> i <= i' /\ j <= j'.
Proof.
  induction codes as [|[[[[t i1] i2] j1] j2] codes IH]; intros i i' j j' H;
    simpl in H.
  - lia.
  - destruct H as (<- & <- & Hle1 & Hle2 & _ & Hrest).
    apply IH in Hrest. lia.
Qed.

(** The sequences are the same along a script of [equal] opcodes. *)
Lemma script_span group i i' j j' :
  group <> [] -> script group i i' j j' -> span group = Some (i, i', j, j').
Proof.
  intros Hne. unfold span.
  destruct group as [|[[[[t i1] i2] j1] j2] rest]; [contradiction|clear Hne].
  intros Hs.
  assert (Hlast : forall (codes : list opcode) c i0 j0,
            script (c :: codes) i0 i' j0 j' ->
            exists t' x y, last (c :: codes) = Some (t', x, i', y, j')).
  { clear. induction codes as [|c' codes IH]; intros c i0 j0 H.
    - destruct c as [[[[t i1] i2] j1] j2]. simpl in H.
      destruct H as (_ & _ & _ & _ & _ & <- & <-). simpl. eauto.
    - destruct c as [[[[t i1] i2] j1] j2]. simpl in H.
      destruct H as (_ & _ & _ & _ & _ & Hrest).
      change (last ((t, i1, i2, j1, j2) :: c' :: codes)) with (last (c' :: codes)).
      eapply IH. exact Hrest. }
  destruct (Hlast _ _ _ _ Hs) as (t' & x & y & ->).
  simpl in Hs. destruct Hs as (-> & -> & _). reflexivity.
Qed.

(** *** The opcodes as a script *)

Lemma script_gap i ai j bj :
  i <= ai -> j <= bj ->
  script (if (i <? ai) && (j <? bj) then [(Replace, i, ai, j, bj)]
          else if i <? ai then [(Delete, i, ai, j, bj)]
          else if j <? bj then [(Insert, i, ai, j, bj)]
          else []) i ai j bj.
Proof.
  intros Hi Hj.
  destruct (Nat.ltb_spec i ai), (Nat.ltb_spec j bj); simpl;
    repeat split; try lia; discriminate.
Qed.

Lemma script_block ai bj size :
  block_good a b (ai, bj, size) ->
  script [(Equal, ai, ai + size, bj, bj + size)] ai (ai + size) bj (bj + size).
Proof.
  intros (Hk & Hw & Hm). simpl in Hk, Hw. simpl.
  repeat split; try lia.
  apply block_match_slice; [exact Hm|lia|lia].
Qed.

Lemma opcodes_from_script blocks : forall i j,
  Forall (block_good a b) blocks ->
  ascending (blocks ++ [(length a, length b, 0)]) ->
  Forall (fun y => i <= fst (fst y) /\ j <= snd (fst y))
    (blocks ++ [(length a, length b, 0)]) ->
  script (opcodes_from (blocks ++ [(length a, length b, 0)]) i j)
    i (length a) j (length b).
Proof.
  induction blocks as [|[[ai bj] size] blocks IH]; intros i j Hgood Hasc Hlow.
  - apply Forall_cons in Hlow. destruct Hlow as [[Hi Hj] _]. simpl in Hi, Hj.
    simpl app. rewrite opcodes_from_cons. simpl (0 =? 0). cbn [opcodes_from].
    rewrite !app_nil_r. apply script_gap; assumption.
  - apply Forall_cons in Hgood. destruct Hgood as [Hblk Hgood].
    apply Forall_cons in Hlow. destruct Hlow as [[Hi Hj] _]. simpl in Hi, Hj.
    destruct Hasc as [Hnext Hasc].
    pose proof Hblk as (Hk & Hw & _). simpl in Hk, Hw.
    change (((ai, bj, size) :: blocks) ++ [(length a, length b, 0)])
      with ((ai, bj, size) :: (blocks ++ [(length a, length b, 0)])).
    rewrite opcodes_from_cons.
    destruct (Nat.eqb_spec size 0) as [|_]; [contradiction|].
    apply (script_app _ _ i ai (length a) j bj (length b));
      [apply script_gap; assumption|].
    apply (script_app _ _ ai (ai + size) (length a) bj (bj + size) (length b));
      [apply script_block; exact Hblk|].
    apply IH; [exact Hgood|exact Hasc|].
    eapply Forall_impl; [exact Hnext|].
    intros [[i3 j3] k3]. simpl. lia.
Qed.

Lemma get_opcodes_script :
  script (get_opcodes a b) 0 (length a) 0 (length b).
Proof.
  destruct (get_matching_blocks_ascending a b) as (blocks & Heq & Hgood & Hasc).
  unfold get_opcodes. rewrite Heq.
  apply opcodes_from_script; [exact Hgood|exact Hasc|].
  apply List.Forall_forall. intros [[i j] k] _. simpl. lia.
Qed.

(** *** Trimming the context and cutting the groups *)

Lemma fix_first_script n codes i i' j j' :
  script codes i i' j j' ->
  exists i0 j0,
    i <= i0 /\ j <= j0
    /\ slice a i i0 = slice b j j0
    /\ script (fix_first n codes) i0 i' j0 j'.
Proof.
  intros Hs.
  assert (Hsame : script codes i i' j j' ->
            exists i0 j0,
              i <= i0 /\ j <= j0 /\ slice a i i0 = slice b j j0
              /\ script codes i0 i' j0 j').
  { intros H. exists i, j. rewrite !slice_empty by lia. auto. }
  destruct codes as [|[[[[t i1] i2] j1] j2] codes]; [apply Hsame; exact Hs|].
  destruct t; try (apply Hsame; exact Hs). clear Hsame.
  simpl in Hs. destruct Hs as (-> & -> & Hle1 & Hle2 & Heq & Hrest).
  destruct (Heq eq_refl) as [Hlen Hslice].
  exists (i + (i2 - i - n)), (j + (i2 - i - n)).
  split; [lia|]. split; [lia|]. split.
  - apply (equal_part i i2 j j2); try assumption; lia.
  - simpl.
    replace (Nat.max i (i2 - n)) with (i + (i2 - i - n)) by lia.
    replace (Nat.max j (j2 - n)) with (j + (i2 - i - n)) by lia.
    repeat split; try lia; [|exact Hrest].
    apply (equal_part i i2 j j2); try assumption; lia.
Qed.

Lemma fix_last_script n codes : forall i i' j j',
  script codes i i' j j' ->
  exists i0 j0,
    i0 <= i' /\ j0 <= j'
    /\ slice a i0 i' = slice b j0 j'
    /\ script (fix_last n codes) i i0 j j0.
Proof.
  induction codes as [|c codes IH]; intros i i' j j' Hs.
  - exists i', j'. rewrite !slice_empty by lia. auto.
  - destruct codes as [|c' codes].
    + destruct c as [[[[t i1] i2] j1] j2].
      assert (Hsame : exists i0 j0,
                i0 <= i' /\ j0 <= j' /\ slice a i0 i' = slice b j0 j'
                /\ script [(t, i1, i2, j1, j2)] i i0 j j0).
      { exists i', j'. rewrite !slice_empty by lia. auto. }
      destruct t; try exact Hsame. clear Hsame.
      simpl in Hs. destruct Hs as (-> & -> & Hle1 & Hle2 & Heq & <- & <-).
      destruct (Heq eq_refl) as [Hlen Hslice].
      exists (i + Nat.min (i2 - i) n), (j + Nat.min (i2 - i) n).
      split; [lia|]. split; [lia|]. split.
      * apply (equal_part i i2 j j2); try assumption; lia.
      * simpl.
        replace (Nat.min i2 (i + n)) with (i + Nat.min (i2 - i) n) by lia.
        replace (Nat.min j2 (j + n)) with (j + Nat.min (i2 - i) n) by lia.
        repeat split; try lia.
        apply (equal_part i i2 j j2); try assumption; lia.
    + assert (Hcons : fix_last n (c :: c' :: codes)
                      = c :: fix_last n (c' :: codes))
        by (destruct c as [[[[[] ?] ?] ?] ?]; reflexivity).
      rewrite Hcons. destruct c as [[[[t i1] i2] j1] j2].
      simpl in Hs. destruct Hs as (Hi & Hj & Hle1 & Hle2 & Heq & Hrest).
      destruct (IH _ _ _ _ Hrest) as (i0 & j0 & H1 & H2 & H3 & H4).
      exists i0, j0. repeat (split; [assumption|]).
      change (script ((t, i1, i2, j1, j2) :: fix_last n (c' :: codes)) i i0 j j0)
        with (i1 = i /\ j1 = j /\ i1 <= i2 /\ j1 <= j2
              /\ (t = Equal ->
                  i2 - i1 = j2 - j1 /\ slice a i1 i2 = slice b j1 j2)
              /\ script (fix_last n (c' :: codes)) i2 i0 j2 j0).
      auto.
Qed.

Lemma hunks_cons group groups i j i1 i2 j1 j2 :
  span group = Some (i1, i2, j1, j2) ->
  i <= i1 -> j <= j1 ->
  slice a i i1 = slice b j j1 ->
  script group i1 i2 j1 j2 ->
  hunks groups i2 j2 ->
  hunks (group :: groups) i j.
Proof. intros. simpl. exists i1, i2, j1, j2. auto 10. Qed.

(** Two stretches that are the same, one after the other. *)
Lemma same_app pi gi i pj gj j :
  pi <= gi -> gi <= i -> pj <= gj -> gj <= j ->
  slice a pi gi = slice b pj gj -> slice a gi i = slice b gj j ->
  slice a pi i = slice b pj j.
Proof.
  intros H1 H2 H3 H4 Heq1 Heq2.
  rewrite <- (slice_app a pi gi i), <- (slice_app b pj gj j) by assumption.
  rewrite Heq1, Heq2. reflexivity.
Qed.

Lemma split_groups_hunks n codes : forall group pi pj gi gj i j i' j',
  pi <= gi -> pj <= gj ->
  slice a pi gi = slice b pj gj ->
  script group gi i gj j ->
  script codes i i' j j' ->
  i' <= length a -> j' <= length b ->
  slice a i' (length a) = slice b j' (length b) ->
  hunks (split_groups n codes group) pi pj.
Proof.
  induction codes as [|[[[[t i1] i2] j1] j2] codes IH];
    intros group pi pj gi gj i j i' j' Hpi Hpj Hgap Hgroup Hcodes Hi' Hj' Htail.
  - simpl in Hcodes. destruct Hcodes as [<- <-].
    destruct (script_le _ _ _ _ _ Hgroup) as [Hgi Hgj].
    assert (Hkeep : group <> [] -> hunks [group] pi pj).
    { intros Hne. apply (hunks_cons _ _ pi pj gi i gj j); try assumption.
      apply script_span; assumption. }
    assert (Hdrop : slice a gi i = slice b gj j -> hunks [] pi pj).
    { intros Hsame. simpl.
      apply (same_app pi gi (length a) pj gj (length b)); try lia; [exact Hgap|].
      apply (same_app gi i (length a) gj j (length b)); try lia; assumption. }
    simpl. destruct group as [|c [|c' group]].
    + apply Hdrop. simpl in Hgroup. destruct Hgroup as [<- <-].
      rewrite !slice_empty by lia. reflexivity.
    + destruct c as [[[[t i1] i2] j1] j2]. destruct t; simpl;
        try (apply Hkeep; discriminate).
      apply Hdrop. simpl in Hgroup.
      destruct Hgroup as (-> & -> & _ & _ & Heq & <- & <-).
      apply Heq. reflexivity.
    + apply Hkeep. discriminate.
  - simpl in Hcodes. destruct Hcodes as (-> & -> & Hle1 & Hle2 & Heq & Hrest).
    cbn [split_groups].
    destruct (tag_eqb t Equal && (n + n <? i2 - i)) eqn:Hcut.
    + apply andb_true_iff in Hcut. destruct Hcut as [Ht Hlong].
      destruct t; try discriminate. apply Nat.ltb_lt in Hlong.
      destruct (Heq eq_refl) as [Hlen Hslice].
      destruct (script_le _ _ _ _ _ Hgroup) as [Hgi Hgj].
      replace (Nat.min i2 (i + n)) with (i + n) by lia.
      replace (Nat.min j2 (j + n)) with (j + n) by lia.
      replace (Nat.max i (i2 - n)) with (i + (i2 - i - n)) by lia.
      replace (Nat.max j (j2 - n)) with (j + (i2 - i - n)) by lia.
      assert (Hhead : script [(Equal, i, i + n, j, j + n)] i (i + n) j (j + n)).
      { simpl. repeat split; try lia.
        apply (equal_part i i2 j j2); try assumption; lia. }
      apply (hunks_cons _ _ pi pj gi (i + n) gj (j + n));
        [apply script_span; [destruct group; discriminate|];
         eapply script_app; eassumption
        |exact Hpi|exact Hpj|exact Hgap
        |eapply script_app; eassumption|].
      apply (IH _ (i + n) (j + n) (i + (i2 - i - n)) (j + (i2 - i - n))
               i2 j2 i' j'); try lia; try assumption.
      * apply (equal_part i i2 j j2); try assumption; lia.
      * simpl. repeat split; try lia.
        apply (equal_part i i2 j j2); try assumption; lia.
    + apply (IH _ pi pj gi gj i2 j2 i' j'); try assumption.
      apply (script_app group [(t, i, i2, j, j2)] gi i i2 gj j j2);
        [exact Hgroup|].
      simpl. auto 10.
Qed.

(** *** Applying the hunks *)

Lemma slice_to_end (l : list string) i : slice l i (length l) = drop i l.
Proof.
  unfold slice. apply firstn_all2. rewrite length_drop. lia.
Qed.

Lemma slice_drop (l : list string) i n :
  i <= n -> slice l i n ++ drop n l = drop i l.
Proof.
  intros Hle. unfold slice.
  replace (drop n l) with (drop (n - i) (drop i l))
    by (rewrite drop_drop; f_equal; lia).
  apply take_drop.
Qed.

Lemma script_apply codes : forall i i' j j',
  script codes i i' j j' -> apply_opcodes a b codes = slice b j j'.
Proof.
  unfold apply_opcodes.
  induction codes as [|[[[[t i1] i2] j1] j2] codes IH]; intros i i' j j' Hs;
    simpl in Hs.
  - destruct Hs as [_ <-]. rewrite slice_empty by lia. reflexivity.
  - destruct Hs as (-> & -> & Hle1 & Hle2 & Heq & Hrest).
    destruct (script_le _ _ _ _ _ Hrest) as [_ Hj'].
    cbn [map concat]. rewrite (IH _ _ _ _ Hrest).
    rewrite <- (slice_app b j j2 j') by lia. f_equal.
    destruct t; try reflexivity.
    simpl. apply Heq. reflexivity.
Qed.

Lemma patch_from_hunks groups : forall i j,
  hunks groups i j -> patch_from a b groups i = drop j b.
Proof.
  induction groups as [|group groups IH]; intros i j Hh; simpl in Hh.
  - simpl. rewrite <- !slice_to_end. exact Hh.
  - destruct Hh as (i1 & i2 & j1 & j2 & Hspan & Hi & Hj & Hgap & Hs & Hrest).
    cbn [patch_from]. rewrite Hspan, Hgap, (script_apply _ _ _ _ _ Hs).
    rewrite (IH _ _ Hrest).
    destruct (script_le _ _ _ _ _ Hs) as [_ Hj12].
    rewrite slice_drop by lia. apply slice_drop. exact Hj.
Qed.

End Hunks.

(** *** Blocks that touch *)
Section Contract.
Import difflib.
Variables a b : list string.

Lemma collapse_head l : forall i j k,
  k <> 0 -> exists k' rest, collapse l (i, j, k) = (i, j, k') :: rest /\ k' <> 0.
Proof.
  induction l as [|[[i2 j2] k2] l IH]; intros i j k Hk; simpl.
  - destruct (Nat.eqb_spec k 0); [contradiction|]. eauto.
  - destruct ((i + k =? i2) && (j + k =? j2)).
    + apply IH. lia.
    + destruct (Nat.eqb_spec k 0); [contradiction|]. simpl. eauto.
Qed.

Lemma collapse_separate l : forall cur,
  Forall (fun y => snd y <> 0) l -> separate (collapse l cur).
Proof.
  induction l as [|[[i2 j2] k2] l IH]; intros [[i1 j1] k1] Hl; simpl.
  - destruct (k1 =? 0); simpl; exact I.
  - apply Forall_cons in Hl. destruct Hl as [Hk2 Hl]. simpl in Hk2.
    destruct ((i1 + k1 =? i2) && (j1 + k1 =? j2)) eqn:Hadj.
    + apply IH. exact Hl.
    + specialize (IH (i2, j2, k2) Hl).
      destruct (k1 =? 0); simpl; [exact IH|].
      destruct (collapse_head l i2 j2 k2 Hk2) as (k' & rest & Heq & _).
      rewrite Heq in *. split; [|exact IH].
      apply andb_false_iff in Hadj.
      destruct Hadj as [H|H]; apply Nat.eqb_neq in H; auto.
Qed.

End Contract.

(** *** What the diff is made of *)

(** X14: the opcodes behind the diff are an edit script.  For any two
    sequences of lines, the parts of [a] that the opcodes of
    [SequenceMatcher(None, a, b).get_opcodes()] speak of make up [a], in
    order and without gap or overlap, and their parts of [b] make up [b];
    an [equal] opcode stands for the same lines in both, and every opcode
    has the shape of its tag.  The first opcode starts at 0 in both, each
    opcode starts where the one before it ends, and the last one ends at
    the lengths of the sequences.  So copying the [equal] parts of [a] and
    taking the other parts from [b] turns [a] into [b]. *)
Theorem get_opcodes_is_an_edit_script (a b : list string) :
  script a b (difflib.get_opcodes a b) 0 (length a) 0 (length b)
  /\ concat (map (a_part a) (difflib.get_opcodes a b)) = a
  /\ concat (map (b_part b) (difflib.get_opcodes a b)) = b
  /\ Forall opcode_shape (difflib.get_opcodes a b)
  /\ Forall (fun c => difflib.is_equal c = true -> a_part a c = b_part b c)
       (difflib.get_opcodes a b)
  /\ apply_opcodes a b (difflib.get_opcodes a b) = b.
Proof.
  split; [apply get_opcodes_script|].
  destruct (get_matching_blocks_ascending a b) as (blocks & Heq & Hgood & Hasc).
  unfold difflib.get_opcodes. rewrite Heq.
  destruct (opcodes_from_covers a b blocks 0 0 Hgood Hasc)
    as (Ha & Hb & Hshape & Hequal).
  { apply List.Forall_forall. intros [[i j] k] _. simpl. lia. }
  rewrite slice_all in Ha, Hb.
  repeat split; try assumption.
  rewrite apply_opcodes_b by exact Hequal. exact Hb.
Qed.

(** X15: the diff hides no difference.  The groups of opcodes from which
    [unified_diff] prints its hunks account for every difference between
    the two sequences: before the first hunk, between two hunks and after
    the last one the lines of [a] and of [b] are the same; the ranges in
    the header of a hunk are those its opcodes go through, one after the
    other; and an [equal] opcode, printed as context, stands for the same
    lines of both.  So keeping the lines of [a] outside the hunks and
    applying the opcodes of each hunk gives [b].  The lines of the diff are
    the two file headers and, for each group, its header and its opcodes'
    lines. *)
Theorem unified_diff_hides_nothing (a b : list string) :
  hunks a b (difflib.get_grouped_opcodes a b 3) 0 0
  /\ patch_from a b (difflib.get_grouped_opcodes a b 3) 0 = b
  /\ difflib.unified_diff a b
     = match difflib.get_grouped_opcodes a b 3 with
       | [] => []
       | groups =>
           "--- " :: "+++ " :: concat (map (difflib.group_lines a b) groups)
       end.
Proof.
  assert (Hh : hunks a b (difflib.get_grouped_opcodes a b 3) 0 0);
    [|split; [exact Hh|split; [apply (patch_from_hunks a b _ 0 0 Hh)|reflexivity]]].
  pose proof (get_opcodes_script a b) as Hs.
  unfold difflib.get_grouped_opcodes.
  destruct (difflib.get_opcodes a b) as [|c codes] eqn:Hcodes.
  - simpl in Hs. destruct Hs as [Ha Hb].
    destruct a; [|discriminate]. destruct b; [|discriminate]. reflexivity.
  - destruct (fix_first_script a b 3 _ _ _ _ _ Hs)
      as (i0 & j0 & Hi0 & Hj0 & Hgap & Hs1).
    destruct (fix_last_script a b 3 _ _ _ _ _ Hs1)
      as (i9 & j9 & Hi9 & Hj9 & Htail & Hs2).
    apply (split_groups_hunks a b 3 _ [] 0 0 i0 j0 i0 j0 i9 j9);
      try assumption.
    simpl. auto.
Qed.

(** X16: what [get_matching_blocks] promises.  The list ends with the
    dummy block [(len(a), len(b), 0)], the only one of size 0; every other
    block [(i, j, n)] says [a[i:i+n] == b[j:j+n]] within both sequences;
    the blocks are increasing in [i] and in [j] and do not overlap; and no
    block ends where the next one starts in both sequences. *)
Theorem get_matching_blocks_contract (a b : list string) :
  exists blocks,
    difflib.get_matching_blocks a b = blocks ++ [(length a, length b, 0)]
    /\ Forall (fun blk =>
                 let '(i, j, n) := blk in
                 n <> 0 /\ i + n <= length a /\ j + n <= length b
                 /\ difflib.slice a i (i + n) = difflib.slice b j (j + n))
         blocks
    /\ ascending (blocks ++ [(length a, length b, 0)])
    /\ separate blocks.
Proof.
  destruct (get_matching_blocks_ascending a b) as (blocks & Heq & Hgood & Hasc).
  exists blocks. split; [exact Heq|]. split; [|split; [exact Hasc|]].
  - eapply Forall_impl; [exact Hgood|].
    intros [[i j] n] (Hn & Hw & Hm). simpl in Hn, Hw.
    repeat split; try lia.
    apply block_match_slice; [exact Hm|lia|lia].
  - unfold difflib.get_matching_blocks in Heq.
    apply app_inj_tail in Heq. destruct Heq as [<- _].
    apply collapse_separate. apply sort_blocks_Forall.
    eapply Forall_impl.
    + apply (match_queue_good a b); [|constructor].
      constructor; [|constructor]. simpl. lia.
    + intros y Hy. apply Hy.
Qed.

(** * Further properties of the commands *)

(** ** Lines and strings *)

Lemma append_nil_r (s : string) : s +:+ EmptyString = s.
Proof.
  induction s as [|c s IH]; [reflexivity|].
  change (String c (s +:+ EmptyString) = String c s). rewrite IH. reflexivity.
Qed.

Lemma append_assoc (s t u : string) : (s +:+ t) +:+ u = s +:+ (t +:+ u).
Proof.
  induction s as [|c s IH]; [reflexivity|].
  change (String c ((s +:+ t) +:+ u) = String c (s +:+ (t +:+ u))).
  rewrite IH. reflexivity.
Qed.

Lemma split_from_nonempty s : forall cur, split_from s cur <> [].
Proof.
  induction s as [|c s IH]; intros cur; simpl; [discriminate|].
  destruct (Ascii.eqb c "010"); [discriminate|apply IH].
Qed.

Lemma join_nl_split_from s : forall cur, join_nl (split_from s cur) = cur +:+ s.
Proof.
  induction s as [|c s IH]; intros cur; simpl.
  - symmetry. apply append_nil_r.
  - destruct (Ascii.eqb_spec c "010") as [->|Hc].
    + specialize (IH EmptyString).
      destruct (split_from s EmptyString) as [|x l] eqn:Hsplit;
        [exfalso; eapply split_from_nonempty; eauto|].
      change (join_nl (cur :: x :: l)) with (cur +:+ nl +:+ join_nl (x :: l)).
      rewrite IH. reflexivity.
    + rewrite IH. rewrite append_assoc. reflexivity.
Qed.

Lemma join_nl_split_nl s : join_nl (split_nl s) = s.
Proof. unfold split_nl. rewrite join_nl_split_from. reflexivity. Qed.

Lemma split_nl_inj s t : split_nl s = split_nl t -> s = t.
Proof.
  intros H. rewrite <- (join_nl_split_nl s), <- (join_nl_split_nl t), H.
  reflexivity.
Qed.

(** ** More on one pass of the loop *)
Section Passes.
Variable json_loads : string -> result pyobj.
Variable json_dumps : pyobj -> string.
Variable json_to_nodes_configuration : string -> result string.
Context {LocationScope : Type}.
Implicit Types (st : state LocationScope).

Local Abbreviation validate := (validate json_loads json_dumps LocationScope).
Local Abbreviation attempt_try :=
  (attempt_try json_loads json_dumps json_to_nodes_configuration LocationScope).
Local Abbreviation attempt_body :=
  (attempt_body json_loads json_dumps json_to_nodes_configuration LocationScope).
Local Abbreviation edit_loop :=
  (edit_loop json_loads json_dumps json_to_nodes_configuration LocationScope).

(** The check of line 136 on two documents. *)
Lemma next_is_None_diff (x y : pyobj) :
  next_is_None (difflib.unified_diff (split_nl (json_dumps x))
                  (split_nl (json_dumps y))) = true
  <-> json_dumps y = json_dumps x.
Proof.
  split.
  - destruct (difflib.unified_diff _ _) eqn:Hdiff; [|discriminate].
    intros _. apply (proj1 (unified_diff_nil_iff _ _)) in Hdiff.
    symmetry. apply split_nl_inj. exact Hdiff.
  - intros ->. rewrite unified_diff_self. reflexivity.
Qed.

Lemma validate_parsed nc formatted att st base parsed :
  heap st !! nc = Some base ->
  editor_returncode att = 0%Z ->
  json_loads (editor_saved att) = Ok parsed ->
  validate nc formatted att st =
  let st3 := {| heap := heap st ++ [parsed];
                edited_text := Some (editor_saved att);
                trace := trace st ++ [run_editor (seed_text formatted st)] |} in
  if next_is_None (difflib.unified_diff (split_nl (json_dumps base))
                     (split_nl (json_dumps parsed)))
  then (Raise (EditorError "No changes detected"), st3)
  else (Ok (length (heap st), split_nl (json_dumps base)), st3).
Proof.
  intros Hnc Hrc Hloads.
  assert (Hlt : nc < length (heap st)) by (eapply lookup_lt_Some; eauto).
  rewrite validate_run. cbv zeta. rewrite Hrc, Hloads. simpl negb. cbv iota.
  rewrite lookup_app_l, Hnc by exact Hlt. reflexivity.
Qed.

(** X1: the check for changes is exact.  After an editor run that
    succeeded and a text that parses, lines 130 to 137 raise "No changes
    detected" exactly when the edited document serializes to the very
    string of the baseline; in every other case they hand on the new object
    and the lines of the baseline. *)
Theorem no_change_check_is_exact nc formatted att st base parsed :
  heap st !! nc = Some base ->
  editor_returncode att = 0%Z ->
  json_loads (editor_saved att) = Ok parsed ->
  (fst (validate nc formatted att st)
   = Raise (EditorError "No changes detected")
   <-> json_dumps parsed = json_dumps base)
  /\ (json_dumps parsed <> json_dumps base ->
      fst (validate nc formatted att st)
      = Ok (length (heap st), split_nl (json_dumps base))).
Proof.
  intros Hnc Hrc Hloads.
  rewrite (validate_parsed _ _ _ _ _ _ Hnc Hrc Hloads). cbv zeta.
  pose proof (next_is_None_diff base parsed) as Hcheck.
  destruct (next_is_None _); simpl.
  - split; [|intros Hne; exfalso; apply Hne, Hcheck; reflexivity].
    split; [intros _; apply Hcheck; reflexivity|reflexivity].
  - split; [|reflexivity].
    split; [discriminate|].
    intros Heq. apply Hcheck in Heq. discriminate.
Qed.

(** X2: a text that does not parse is kept.  When the editor succeeds
    and [json.loads] raises [JSONDecodeError], the pass prints the error
    and asks "Try again?"; no object is made, nothing is encoded or
    written, and [edited_text] is the text just saved, so that a retry
    opens the editor on the operator's own text, not on the baseline. *)
Theorem unparsable_text_is_kept nc formatted att st msg :
  editor_returncode att = 0%Z ->
  json_loads (editor_saved att) = Raise (JSONDecodeError msg) ->
  let st' :=
    {| heap := heap st; edited_text := Some (editor_saved att);
       trace := trace st ++ [run_editor (seed_text formatted st); print msg;
                             confirm_prompt (try_again att)] |} in
  attempt_body nc formatted att st
  = (Ok (if negb (try_again att) then Break else Continue), st')
  /\ (forall script,
        try_again att = true ->
        edit_loop nc formatted (att :: script) st
        = edit_loop nc formatted script st')
  /\ forall att', exists evs,
       trace (snd (attempt_body nc formatted att' st'))
       = trace st' ++ run_editor (editor_saved att) :: evs.
Proof.
  intros Hrc Hloads. cbv zeta.
  assert (Hrun : attempt_body nc formatted att st
                 = (Ok (if negb (try_again att) then Break else Continue),
                    {| heap := heap st; edited_text := Some (editor_saved att);
                       trace := trace st
                                ++ [run_editor (seed_text formatted st);
                                    print msg;
                                    confirm_prompt (try_again att)] |})).
  { rewrite attempt_body_run. unfold attempt_try.
    pose proof (validate_run json_loads json_dumps nc formatted att st) as Hval.
    cbv zeta in Hval. rewrite Hrc, Hloads in Hval. simpl negb in Hval.
    cbv iota in Hval.
    rewrite (bind_raise _ _ _ _ _ Hval). unfold logged. simpl.
    rewrite <- app_assoc. reflexivity. }
  split; [exact Hrun|]. split.
  - intros script Hagain. simpl. unfold bind. rewrite Hrun, Hagain. reflexivity.
  - intros att'.
    match goal with |- context [attempt_body nc formatted att' ?s] =>
      destruct (attempt_body_shape json_loads json_dumps
                  json_to_nodes_configuration nc formatted att' s) as [_ Hev]
    end.
    exact Hev.
Qed.

Lemma insert_last (l : list pyobj) (x y : pyobj) :
  <[length l := y]> (l ++ [x]) = l ++ [y].
Proof.
  rewrite insert_app_r_alt by lia. rewrite Nat.sub_diag. reflexivity.
Qed.

(** A pass whose edit changes the document, case by case. *)
Lemma attempt_body_changed nc formatted att st d0 d v0 v1 t0 now :
  heap st !! nc = Some (PyDict d0) ->
  dict_get d0 "version" = Some v0 ->
  py_add_1 v0 = Ok v1 ->
  dict_get d0 "last_timestamp" = Some t0 ->
  editor_returncode att = 0%Z ->
  json_loads (editor_saved att) = Ok (PyDict d) ->
  time_ms (time_time att) = Ok now ->
  json_dumps (PyDict d) <> json_dumps (PyDict d0) ->
  let doc := json_dumps (PyDict (reconciled v0 v1 t0 now d)) in
  let st1 :=
    {| heap := heap st ++ [PyDict (reconciled v0 v1 t0 now d)];
       edited_text := Some (editor_saved att);
       trace := trace st
                ++ run_editor (seed_text formatted st)
                   :: confirmation (split_nl (json_dumps (PyDict d0))) doc
                        (choice att) |} in
  attempt_body nc formatted att st =
  if String.eqb (choice att) "2" then (Ok Continue, st1)
  else if String.eqb (choice att) "3" then (Ok Break, st1)
  else
    match json_to_nodes_configuration doc with
    | Raise e =>
        (Ok (if negb (try_again att) then Break else Continue),
         logged st1 [encode_nodes_configuration doc;
                     print ("Error on serializing config: " +:+ str_exn e);
                     confirm_prompt (try_again att)])
    | Ok nc_bin =>
        match overwrite_result att with
        | Ok _ =>
            (Ok Break,
             logged st1 [encode_nodes_configuration doc;
                         overwrite_nodes_configuration nc_bin])
        | Raise e =>
            (Ok (if negb (try_again att) then Break else Continue),
             logged st1 [encode_nodes_configuration doc;
                         overwrite_nodes_configuration nc_bin;
                         print ("Error on overwriting config: " +:+ str_exn e);
                         confirm_prompt (try_again att)])
        end
    end.
Proof.
  intros Hnc Hv0 Hv1 Ht0 Hrc Hloads Hnow Hdiff. cbv zeta.
  assert (Hlt : nc < length (heap st)) by (eapply lookup_lt_Some; eauto).
  rewrite attempt_body_run. unfold attempt_try.
  pose proof (validate_parsed nc formatted att st _ _ Hnc Hrc Hloads) as Hval.
  cbv zeta in Hval.
  destruct (next_is_None _) eqn:Hcheck in Hval.
  { apply next_is_None_diff in Hcheck. contradiction. }
  rewrite (bind_ok _ _ _ _ _ Hval). clear Hval Hcheck. cbn [fst snd].
  erewrite bind_ok.
  2:{ eapply reconcile_run; simpl; try eassumption.
      - rewrite lookup_app_l by exact Hlt. exact Hnc.
      - apply list_lookup_middle. reflexivity.
      - lia. }
  rewrite confirm_and_apply_run. cbv zeta. simpl heap.
  rewrite insert_last.
  rewrite (list_lookup_middle (heap st) [] _ (length (heap st)) eq_refl).
  simpl default. unfold logged. simpl. unfold confirmation.
  destruct (String.eqb (choice att) "2");
    [rewrite <- !app_assoc; reflexivity|].
  destruct (String.eqb (choice att) "3");
    [rewrite <- !app_assoc; reflexivity|].
  destruct (json_to_nodes_configuration _) as [nc_bin|e].
  - destruct (overwrite_result att); cbv iota; simpl;
      repeat (rewrite <- !app_assoc; simpl); reflexivity.
  - cbv iota; simpl; repeat (rewrite <- !app_assoc; simpl); reflexivity.
Qed.

(** *** Writes *)

Lemma no_write_split (A T pre post : list (event LocationScope)) nc_bin :
  Forall no_write A ->
  A ++ T = pre ++ overwrite_nodes_configuration nc_bin :: post ->
  exists pre2,
    pre = A ++ pre2 /\ T = pre2 ++ overwrite_nodes_configuration nc_bin :: post.
Proof.
  intros HA. revert pre. induction HA as [|x A Hx HA IH]; intros pre Heq.
  - exists pre. split; [reflexivity|exact Heq].
  - destruct pre as [|y pre]; simpl in Heq.
    + injection Heq as -> _. destruct Hx.
    + injection Heq as -> Heq. destruct (IH _ Heq) as (pre2 & -> & ->).
      exists pre2. split; reflexivity.
Qed.

Lemma Forall_no_write_print (lines : list string) :
  Forall (no_write (LocationScope := LocationScope)) (map print lines).
Proof. induction lines; simpl; constructor; simpl; auto. Qed.

Lemma Forall_no_write_confirmation nc_list json_str c :
  Forall (no_write (LocationScope := LocationScope))
    (confirmation nc_list json_str c).
Proof.
  unfold confirmation. constructor; [exact I|].
  apply Forall_app. split; [apply Forall_no_write_print|].
  repeat constructor.
Qed.

Local Abbreviation confirmed_writes :=
  (confirmed_writes json_dumps json_to_nodes_configuration LocationScope).

Lemma confirmed_writes_none base evs :
  Forall no_write evs -> confirmed_writes base evs.
Proof.
  intros Hevs pre nc_bin post Heq. rewrite <- (app_nil_r evs) in Heq.
  destruct (no_write_split _ _ _ _ _ Hevs Heq) as (pre2 & _ & Hnil).
  destruct pre2; discriminate.
Qed.

Lemma confirmed_writes_after base A T :
  Forall no_write A -> confirmed_writes base T -> confirmed_writes base (A ++ T).
Proof.
  intros HA HT pre nc_bin post Heq.
  destruct (no_write_split _ _ _ _ _ HA Heq) as (pre2 & -> & HTeq).
  destruct (HT _ _ _ HTeq) as [(pre' & c & json_str & -> & Hc) Hpost].
  split; [|exact Hpost].
  exists (A ++ pre'), c, json_str. rewrite <- app_assoc. split; [reflexivity|exact Hc].
Qed.

Lemma confirmed_writes_write base A json_str c nc_bin T :
  Forall no_write A ->
  c <> "2" -> c <> "3" ->
  json_to_nodes_configuration json_str = Ok nc_bin ->
  confirmed_writes base T ->
  (T = [] \/ exists msg again T',
      T = print ("Error on overwriting config: " +:+ msg)
          :: confirm_prompt again :: T') ->
  confirmed_writes base
    (A ++ confirmation (split_nl (json_dumps base)) json_str c
       ++ [encode_nodes_configuration json_str;
           overwrite_nodes_configuration nc_bin] ++ T).
Proof.
  intros HA Hc2 Hc3 Hbin HT Hshape pre nc_bin' post Heq.
  assert (HA' : Forall no_write
                  (A ++ confirmation (split_nl (json_dumps base)) json_str c
                     ++ [encode_nodes_configuration json_str])).
  { apply Forall_app. split; [exact HA|].
    apply Forall_app. split; [apply Forall_no_write_confirmation|].
    repeat constructor. }
  assert (Heq' : (A ++ confirmation (split_nl (json_dumps base)) json_str c
                    ++ [encode_nodes_configuration json_str])
                 ++ overwrite_nodes_configuration nc_bin :: T
                 = pre ++ overwrite_nodes_configuration nc_bin' :: post).
  { rewrite <- Heq. rewrite <- !app_assoc. reflexivity. }
  destruct (no_write_split _ _ _ _ _ HA' Heq') as (pre2 & -> & Hrest).
  destruct pre2 as [|y pre2]; simpl in Hrest.
  - injection Hrest as -> ->. rewrite app_nil_r. split; [|exact Hshape].
    exists A, c, json_str. auto.
  - injection Hrest as <- ->.
    destruct (HT _ _ _ eq_refl) as [(pre' & c' & json_str' & -> & Hc') Hpost].
    split; [|exact Hpost].
    exists ((A ++ confirmation (split_nl (json_dumps base)) json_str c
               ++ [encode_nodes_configuration json_str])
            ++ overwrite_nodes_configuration nc_bin :: pre'), c', json_str'.
    split; [|exact Hc'].
    rewrite <- (app_assoc _ (overwrite_nodes_configuration nc_bin :: pre')).
    reflexivity.
Qed.

(** The writes of one pass: none, or one, of a document whose diff was
    shown and confirmed in the pass. *)
Lemma attempt_body_writes base nc formatted att st r st' :
  heap st !! nc = Some base ->
  attempt_body nc formatted att st = (r, st') ->
  exists evs,
    trace st' = trace st ++ evs
    /\ (Forall no_write evs
        \/ exists pre json_str nc_bin tail,
             evs = pre ++ confirmation (split_nl (json_dumps base)) json_str
                           (choice att)
                       ++ [encode_nodes_configuration json_str;
                           overwrite_nodes_configuration nc_bin] ++ tail
             /\ Forall no_write pre
             /\ choice att <> "2" /\ choice att <> "3"
             /\ json_to_nodes_configuration json_str = Ok nc_bin
             /\ ((tail = [] /\ r = Ok Break)
                 \/ (exists msg,
                       tail = [print ("Error on overwriting config: " +:+ msg);
                               confirm_prompt (try_again att)])
                    /\ r = Ok (if negb (try_again att) then Break
                               else Continue))).
Proof.
  intros Hnc. rewrite attempt_body_run. unfold attempt_try.
  assert (Hlt : nc < length (heap st)) by (eapply lookup_lt_Some; eauto).
  pose proof (validate_run json_loads json_dumps nc formatted att st) as Hval.
  cbv zeta in Hval.
  assert (Hcatch : forall e st1 evs,
            trace st1 = trace st ++ evs -> Forall no_write evs ->
            (r, st') = (Raise e, st1)
            \/ (r, st') = (Ok (if negb (try_again att) then Break else Continue),
                           logged st1 [print (str_exn e);
                                       confirm_prompt (try_again att)]) ->
            exists evs',
              trace st' = trace st ++ evs'
              /\ (Forall no_write evs'
                  \/ exists pre json_str nc_bin tail,
                       evs' = pre ++ confirmation (split_nl (json_dumps base))
                                       json_str (choice att)
                                  ++ [encode_nodes_configuration json_str;
                                      overwrite_nodes_configuration nc_bin]
                                  ++ tail
                       /\ Forall no_write pre
                       /\ choice att <> "2" /\ choice att <> "3"
                       /\ json_to_nodes_configuration json_str = Ok nc_bin
                       /\ ((tail = [] /\ r = Ok Break)
                           \/ (exists msg,
                                 tail = [print ("Error on overwriting config: "
                                                +:+ msg);
                                         confirm_prompt (try_again att)])
                              /\ r = Ok (if negb (try_again att) then Break
                                         else Continue)))).
  { intros e st1 evs Ht Hev [Heq|Heq]; inversion Heq; subst.
    - eauto.
    - exists (evs ++ [print (str_exn e); confirm_prompt (try_again att)]).
      simpl. rewrite Ht, <- app_assoc. split; [reflexivity|]. left.
      apply Forall_app. split; [exact Hev|repeat constructor]. }
  destruct (negb (editor_returncode att =? 0)%Z).
  { rewrite (bind_raise _ _ _ _ _ Hval). intros Hrun.
    apply (Hcatch (EditorError "Non-zero return code from editor")
             (logged st [run_editor (seed_text formatted st)])
             [run_editor (seed_text formatted st)]);
      [reflexivity|repeat constructor|right; symmetry; exact Hrun]. }
  destruct (json_loads (editor_saved att)) as [parsed|e].
  2:{ rewrite (bind_raise _ _ _ _ _ Hval). intros Hrun.
      apply (Hcatch e
               {| heap := heap st; edited_text := Some (editor_saved att);
                  trace := trace st ++ [run_editor (seed_text formatted st)] |}
               [run_editor (seed_text formatted st)]);
        [reflexivity|repeat constructor|].
      destruct e; (left; symmetry; exact Hrun) || (right; symmetry; exact Hrun). }
  rewrite lookup_app_l, Hnc in Hval by exact Hlt. simpl default in Hval.
  destruct (next_is_None _).
  { rewrite (bind_raise _ _ _ _ _ Hval). intros Hrun.
    apply (Hcatch (EditorError "No changes detected")
             {| heap := heap st ++ [parsed];
                edited_text := Some (editor_saved att);
                trace := trace st ++ [run_editor (seed_text formatted st)] |}
             [run_editor (seed_text formatted st)]);
      [reflexivity|repeat constructor|right; symmetry; exact Hrun]. }
  rewrite (bind_ok _ _ _ _ _ Hval). clear Hval. cbn [fst snd].
  match goal with |- context [bind (reconcile nc ?l att) ?k ?s] =>
    destruct (reconcile nc l att s) as [r1 st4] eqn:Hrec
  end.
  destruct (quiet_reconcile _ _ _ _ _ _ Hrec) as [Htr _]. simpl in Htr.
  destruct r1 as [[]|e].
  2:{ rewrite (bind_raise _ _ _ _ _ Hrec). intros Hrun.
      apply (Hcatch e st4 [run_editor (seed_text formatted st)]);
        [exact Htr|repeat constructor|].
      destruct e; (left; symmetry; exact Hrun) || (right; symmetry; exact Hrun). }
  rewrite (bind_ok _ _ _ _ _ Hrec).
  rewrite confirm_and_apply_run. cbv zeta.
  set (json_str := json_dumps (default PyNone (heap st4 !! length (heap st)))).
  change (print "You're going to apply the following diff:"
          :: map print (difflib.unified_diff (split_nl (json_dumps base))
                          (split_nl json_str))
          ++ [print (nl +:+ "What to do now?"); print "[1] Apply";
              print "[2] Edit"; print "[3] Cancel"; ask_prompt (choice att)])
    with (confirmation (LocationScope := LocationScope)
            (split_nl (json_dumps base)) json_str (choice att)).
  set (shown := confirmation (split_nl (json_dumps base)) json_str (choice att)).
  assert (Hshown : Forall no_write ([run_editor (seed_text formatted st)] ++ shown))
    by (constructor; [exact I|apply Forall_no_write_confirmation]).
  assert (Htr1 : forall evs,
            trace (logged st4 evs)
            = trace st ++ [run_editor (seed_text formatted st)] ++ evs).
  { intros evs. simpl. rewrite Htr, <- app_assoc. reflexivity. }
  destruct (String.eqb_spec (choice att) "2") as [|Hc2].
  { intros [= <- <-]. eauto. }
  destruct (String.eqb_spec (choice att) "3") as [|Hc3].
  { intros [= <- <-]. eauto. }
  rewrite !logged_logged.
  destruct (json_to_nodes_configuration json_str) as [nc_bin|e] eqn:Hbin.
  2:{ intros Hrun.
      apply (Hcatch (NCMError ("Error on serializing config: " +:+ str_exn e))
               (logged st4 (shown ++ [encode_nodes_configuration json_str]))
               ([run_editor (seed_text formatted st)]
                ++ shown ++ [encode_nodes_configuration json_str]));
        [apply Htr1| |right; symmetry; exact Hrun].
      rewrite app_assoc. apply Forall_app. split; [exact Hshown|].
      repeat constructor. }
  rewrite !logged_logged.
  destruct (overwrite_result att) as [[]|e].
  - intros [= <- <-].
    eexists. split; [apply Htr1|]. right.
    exists [run_editor (seed_text formatted st)], json_str, nc_bin, [].
    split; [unfold confirmation; cbn [app]; rewrite <- !app_assoc; reflexivity|].
    split; [repeat constructor|]. auto 10.
  - cbv iota. rewrite !logged_logged. intros [= <- <-].
    eexists. split; [apply Htr1|]. right.
    exists [run_editor (seed_text formatted st)], json_str, nc_bin,
      [print ("Error on overwriting config: " +:+ str_exn e);
       confirm_prompt (try_again att)].
    split; [unfold confirmation; cbn [app]; rewrite <- !app_assoc; reflexivity|].
    split; [repeat constructor|].
    repeat (split; [assumption|]). right. split; [eauto|reflexivity].
Qed.

Local Abbreviation loop_event :=
  (loop_event json_dumps json_to_nodes_configuration LocationScope).

Lemma edit_loop_writes base nc formatted script : forall st r st',
  heap st !! nc = Some base ->
  edit_loop nc formatted script st = (r, st') ->
  exists evs, trace st' = trace st ++ evs /\ confirmed_writes base evs.
Proof.
  induction script as [|att script IH]; intros st r st' Hnc Hrun; simpl in Hrun.
  - inversion Hrun; subst. exists []. rewrite app_nil_r.
    split; [reflexivity|apply confirmed_writes_none; constructor].
  - unfold bind in Hrun.
    destruct (attempt_body nc formatted att st) as [r1 st1] eqn:Hbody.
    destruct (attempt_body_inv json_loads json_dumps json_to_nodes_configuration
                base _ _ _ _ _ _ Hnc Hbody) as (Hnc1 & _).
    destruct (attempt_body_writes _ _ _ _ _ _ _ Hnc Hbody)
      as (evs1 & Htr1 & Hcases).
    assert (Hrest : exists evs2,
              trace st' = trace st1 ++ evs2 /\ confirmed_writes base evs2
              /\ (evs2 = [] \/ r1 = Ok Continue)).
    { destruct r1 as [[]|e].
      - destruct (IH _ _ _ Hnc1 Hrun) as (evs2 & Htr2 & Hev2). eauto.
      - inversion Hrun; subst. exists []. rewrite app_nil_r.
        split; [reflexivity|]. split; [apply confirmed_writes_none; constructor|].
        auto.
      - inversion Hrun; subst. exists []. rewrite app_nil_r.
        split; [reflexivity|]. split; [apply confirmed_writes_none; constructor|].
        auto. }
    destruct Hrest as (evs2 & Htr2 & Hev2 & Hend).
    exists (evs1 ++ evs2). rewrite Htr2, Htr1, app_assoc.
    split; [reflexivity|].
    destruct Hcases as [Hquiet|(pre & json_str & nc_bin & tail & -> & Hpre
                                & Hc2 & Hc3 & Hbin & Htail)].
    + apply confirmed_writes_after; assumption.
    + rewrite <- !app_assoc. simpl.
      apply (confirmed_writes_write base pre json_str (choice att) nc_bin
               (tail ++ evs2)); try assumption.
      * destruct Htail as [[-> _]|[[msg ->] _]]; [exact Hev2|].
        apply confirmed_writes_after; [repeat constructor|exact Hev2].
      * destruct Htail as [[-> ->]|[[msg ->] _]].
        -- destruct Hend as [->|Hcont]; [auto|discriminate].
        -- right. simpl. eauto.
Qed.

(** X5: the answers "2" and "3".  After a changed edit was reconciled and
    its diff shown, the answer "2" goes round the loop again and the answer
    "3" leaves it: the events of the pass are the editor, the diff, the menu
    and the answer, so nothing is encoded and nothing is written.  After
    "2" the editor opens on the text the operator saved, not on the
    reconciled document. *)
Theorem edit_and_cancel_write_nothing nc formatted att st d0 d v0 v1 t0 now :
  heap st !! nc = Some (PyDict d0) ->
  dict_get d0 "version" = Some v0 ->
  py_add_1 v0 = Ok v1 ->
  dict_get d0 "last_timestamp" = Some t0 ->
  editor_returncode att = 0%Z ->
  json_loads (editor_saved att) = Ok (PyDict d) ->
  time_ms (time_time att) = Ok now ->
  json_dumps (PyDict d) <> json_dumps (PyDict d0) ->
  let doc := json_dumps (PyDict (reconciled v0 v1 t0 now d)) in
  let st1 :=
    {| heap := heap st ++ [PyDict (reconciled v0 v1 t0 now d)];
       edited_text := Some (editor_saved att);
       trace := trace st
                ++ run_editor (seed_text formatted st)
                   :: confirmation (split_nl (json_dumps (PyDict d0))) doc
                        (choice att) |} in
  (choice att = "2" ->
   attempt_body nc formatted att st = (Ok Continue, st1)
   /\ (forall script,
         edit_loop nc formatted (att :: script) st
         = edit_loop nc formatted script st1)
   /\ forall att', exists evs,
        trace (snd (attempt_body nc formatted att' st1))
        = trace st1 ++ run_editor (editor_saved att) :: evs)
  /\ (choice att = "3" ->
      attempt_body nc formatted att st = (Ok Break, st1)
      /\ forall script,
           edit_loop nc formatted (att :: script) st = (Ok (Some tt), st1)).
Proof.
  intros Hnc Hv0 Hv1 Ht0 Hrc Hloads Hnow Hdiff. cbv zeta.
  pose proof (attempt_body_changed _ formatted _ _ _ _ _ _ _ _
                Hnc Hv0 Hv1 Ht0 Hrc Hloads Hnow Hdiff) as Hrun.
  cbv zeta in Hrun.
  split; intros Hc; rewrite Hc in Hrun; simpl in Hrun.
  - split; [rewrite Hc; exact Hrun|]. split.
    + intros script. simpl. unfold bind. rewrite Hrun, Hc. reflexivity.
    + intros att'.
      match goal with |- context [attempt_body nc formatted att' ?s] =>
        destruct (attempt_body_shape json_loads json_dumps
                    json_to_nodes_configuration nc formatted att' s) as [_ Hev]
      end.
      exact Hev.
  - split; [rewrite Hc; exact Hrun|].
    intros script. simpl. unfold bind. rewrite Hrun, Hc. reflexivity.
Qed.

(** X6: what is confirmed is what is written.  For an answer other than
    "2" and "3" (the code does not test for "1"), the pass encodes the
    reconciled document, the very string whose diff against the baseline it
    has just shown, and writes the encoding; when the write succeeds the
    loop is left there, whatever passes the script still holds. *)
Theorem confirmed_document_is_written nc formatted att st d0 d v0 v1 t0 now
    nc_bin :
  heap st !! nc = Some (PyDict d0) ->
  dict_get d0 "version" = Some v0 ->
  py_add_1 v0 = Ok v1 ->
  dict_get d0 "last_timestamp" = Some t0 ->
  editor_returncode att = 0%Z ->
  json_loads (editor_saved att) = Ok (PyDict d) ->
  time_ms (time_time att) = Ok now ->
  json_dumps (PyDict d) <> json_dumps (PyDict d0) ->
  choice att <> "2" -> choice att <> "3" ->
  json_to_nodes_configuration (json_dumps (PyDict (reconciled v0 v1 t0 now d)))
  = Ok nc_bin ->
  overwrite_result att = Ok tt ->
  let doc := json_dumps (PyDict (reconciled v0 v1 t0 now d)) in
  let st2 :=
    {| heap := heap st ++ [PyDict (reconciled v0 v1 t0 now d)];
       edited_text := Some (editor_saved att);
       trace := trace st
                ++ run_editor (seed_text formatted st)
                   :: confirmation (split_nl (json_dumps (PyDict d0))) doc
                        (choice att)
                   ++ [encode_nodes_configuration doc;
                       overwrite_nodes_configuration nc_bin] |} in
  attempt_body nc formatted att st = (Ok Break, st2)
  /\ forall script,
       edit_loop nc formatted (att :: script) st = (Ok (Some tt), st2).
Proof.
  intros Hnc Hv0 Hv1 Ht0 Hrc Hloads Hnow Hdiff Hc2 Hc3 Hbin Hwrite. cbv zeta.
  pose proof (attempt_body_changed _ formatted _ _ _ _ _ _ _ _
                Hnc Hv0 Hv1 Ht0 Hrc Hloads Hnow Hdiff) as Hrun.
  cbv zeta in Hrun.
  destruct (String.eqb_spec (choice att) "2") as [|_]; [contradiction|].
  destruct (String.eqb_spec (choice att) "3") as [|_]; [contradiction|].
  rewrite Hbin, Hwrite in Hrun. unfold logged in Hrun. simpl in Hrun.
  rewrite <- app_assoc in Hrun. simpl in Hrun.
  split; [exact Hrun|].
  intros script. simpl. unfold bind. rewrite Hrun. reflexivity.
Qed.

(** X7: a failure of the encoder or of the write is reported and leads to
    "Try again?".  When [json_to_nodes_configuration] raises, the pass
    prints "Error on serializing config: " and the error, and no write is
    attempted; when [overwrite_nodes_configuration] raises, it prints
    "Error on overwriting config: " and the error.  Either way the loop
    goes on if and only if the operator agrees, with [edited_text] the text
    last saved. *)
Theorem apply_failures_are_reported nc formatted att st d0 d v0 v1 t0 now :
  heap st !! nc = Some (PyDict d0) ->
  dict_get d0 "version" = Some v0 ->
  py_add_1 v0 = Ok v1 ->
  dict_get d0 "last_timestamp" = Some t0 ->
  editor_returncode att = 0%Z ->
  json_loads (editor_saved att) = Ok (PyDict d) ->
  time_ms (time_time att) = Ok now ->
  json_dumps (PyDict d) <> json_dumps (PyDict d0) ->
  choice att <> "2" -> choice att <> "3" ->
  let doc := json_dumps (PyDict (reconciled v0 v1 t0 now d)) in
  let after evs :=
    {| heap := heap st ++ [PyDict (reconciled v0 v1 t0 now d)];
       edited_text := Some (editor_saved att);
       trace := trace st
                ++ run_editor (seed_text formatted st)
                   :: confirmation (split_nl (json_dumps (PyDict d0))) doc
                        (choice att)
                   ++ encode_nodes_configuration doc :: evs |} in
  (forall e,
     json_to_nodes_configuration doc = Raise e ->
     attempt_body nc formatted att st
     = (Ok (if negb (try_again att) then Break else Continue),
        after [print ("Error on serializing config: " +:+ str_exn e);
               confirm_prompt (try_again att)]))
  /\ (forall nc_bin e,
        json_to_nodes_configuration doc = Ok nc_bin ->
        overwrite_result att = Raise e ->
        attempt_body nc formatted att st
        = (Ok (if negb (try_again att) then Break else Continue),
           after [overwrite_nodes_configuration nc_bin;
                  print ("Error on overwriting config: " +:+ str_exn e);
                  confirm_prompt (try_again att)])).
Proof.
  intros Hnc Hv0 Hv1 Ht0 Hrc Hloads Hnow Hdiff Hc2 Hc3. cbv zeta.
  pose proof (attempt_body_changed _ formatted _ _ _ _ _ _ _ _
                Hnc Hv0 Hv1 Ht0 Hrc Hloads Hnow Hdiff) as Hrun.
  cbv zeta in Hrun.
  destruct (String.eqb_spec (choice att) "2") as [|_]; [contradiction|].
  destruct (String.eqb_spec (choice att) "3") as [|_]; [contradiction|].
  split.
  - intros e Hbin. rewrite Hbin in Hrun. unfold logged in Hrun. simpl in Hrun.
    rewrite <- app_assoc in Hrun. exact Hrun.
  - intros nc_bin e Hbin Hwrite. rewrite Hbin, Hwrite in Hrun.
    unfold logged in Hrun. simpl in Hrun.
    rewrite <- app_assoc in Hrun. exact Hrun.
Qed.

(** One turn of the loop. *)
Lemma edit_loop_cons nc formatted att script st :
  edit_loop nc formatted (att :: script) st =
  match attempt_body nc formatted att st with
  | (Ok Continue, st1) => edit_loop nc formatted script st1
  | (Ok Break, st1) => (Ok (Some tt), st1)
  | (Raise e, st1) => (Raise e, st1)
  end.
Proof.
  simpl. unfold bind.
  destruct (attempt_body nc formatted att st) as [[[]|e] st1]; reflexivity.
Qed.

End Passes.

(** ** The baseline of a session *)
Section Baseline.
Variable json_loads : string -> result pyobj.
Variable json_dumps : pyobj -> string.
Variable nodes_configuration_to_json : string -> result string.
Variable json_to_nodes_configuration : string -> result string.
Variable LocationScope : Type.
Implicit Types (st : state LocationScope).

Local Abbreviation fetched := (fetched json_loads nodes_configuration_to_json).
Local Abbreviation validate := (validate json_loads json_dumps LocationScope).
Local Abbreviation attempt_try :=
  (attempt_try json_loads json_dumps json_to_nodes_configuration LocationScope).
Local Abbreviation attempt_body :=
  (attempt_body json_loads json_dumps json_to_nodes_configuration LocationScope).
Local Abbreviation edit_loop :=
  (edit_loop json_loads json_dumps json_to_nodes_configuration LocationScope).
Local Abbreviation edit :=
  (edit json_loads json_dumps nodes_configuration_to_json
     json_to_nodes_configuration LocationScope).
Local Abbreviation loop_event :=
  (loop_event json_dumps json_to_nodes_configuration LocationScope).
Local Abbreviation reconciled_against := (reconciled_against json_dumps).
Local Abbreviation shown_against := (shown_against json_dumps LocationScope).

Lemma no_ask_split (A T pre post : list (event LocationScope)) c :
  Forall no_ask A ->
  A ++ T = pre ++ ask_prompt c :: post ->
  exists pre2, pre = A ++ pre2 /\ T = pre2 ++ ask_prompt c :: post.
Proof.
  intros HA. revert pre. induction HA as [|x A Hx HA IH]; intros pre Heq.
  - exists pre. split; [reflexivity|exact Heq].
  - destruct pre as [|y pre]; simpl in Heq.
    + injection Heq as -> _. destruct Hx.
    + injection Heq as -> Heq. destruct (IH _ Heq) as (pre2 & -> & ->).
      exists pre2. split; reflexivity.
Qed.

Lemma Forall_no_ask_print (lines : list string) :
  Forall (no_ask (LocationScope := LocationScope)) (map print lines).
Proof. induction lines; simpl; constructor; simpl; auto. Qed.

(** The lines of the confirmation before the operator's answer. *)
Lemma confirmation_ask nc_list json_str c :
  exists body : list (event LocationScope),
    confirmation nc_list json_str c = body ++ [ask_prompt c]
    /\ Forall no_ask body.
Proof.
  exists (print "You're going to apply the following diff:"
          :: map print (difflib.unified_diff nc_list (split_nl json_str))
          ++ [print (nl +:+ "What to do now?"); print "[1] Apply";
              print "[2] Edit"; print "[3] Cancel"]).
  split.
  - unfold confirmation. cbn [app]. rewrite <- app_assoc. reflexivity.
  - constructor; [exact I|]. apply Forall_app.
    split; [apply Forall_no_ask_print|repeat constructor].
Qed.

Lemma shown_against_none base evs :
  Forall no_ask evs -> shown_against base evs.
Proof.
  intros Hevs pre c post Heq. rewrite <- (app_nil_r evs) in Heq.
  destruct (no_ask_split _ _ _ _ _ Hevs Heq) as (pre2 & _ & Hnil).
  destruct pre2; discriminate.
Qed.

Lemma shown_against_after base A T :
  Forall no_ask A -> shown_against base T -> shown_against base (A ++ T).
Proof.
  intros HA HT pre c post Heq.
  destruct (no_ask_split _ _ _ _ _ HA Heq) as (pre2 & -> & HTeq).
  destruct (HT _ _ _ HTeq) as (pre' & json_str & Hpre & Hrec).
  exists (A ++ pre'), json_str. split; [|exact Hrec].
  rewrite <- !app_assoc. rewrite Hpre. reflexivity.
Qed.

Lemma shown_against_shown base A json_str c T :
  Forall no_ask A ->
  reconciled_against base json_str ->
  shown_against base T ->
  shown_against base
    (A ++ confirmation (split_nl (json_dumps base)) json_str c ++ T).
Proof.
  intros HA Hrec HT pre c' post Heq.
  destruct (confirmation_ask (split_nl (json_dumps base)) json_str c)
    as (body & Hbody & Hquiet).
  rewrite Hbody in Heq.
  assert (HA' : Forall no_ask (A ++ body))
    by (apply Forall_app; split; assumption).
  assert (Heq' : (A ++ body) ++ ask_prompt c :: T = pre ++ ask_prompt c' :: post).
  { rewrite <- Heq. rewrite <- !app_assoc. reflexivity. }
  destruct (no_ask_split _ _ _ _ _ HA' Heq') as (pre2 & -> & Hrest).
  destruct pre2 as [|y pre2]; simpl in Hrest.
  - injection Hrest as -> ->. rewrite app_nil_r.
    exists A, json_str. split; [|exact Hrec].
    rewrite Hbody, <- !app_assoc. reflexivity.
  - injection Hrest as <- ->.
    destruct (HT _ _ _ eq_refl) as (pre' & json_str' & Hpre & Hrec').
    exists ((A ++ body) ++ ask_prompt c :: pre'), json_str'.
    split; [|exact Hrec'].
    rewrite <- !app_assoc. cbn [app]. rewrite <- Hpre. reflexivity.
Qed.

(** The menu of one pass: not reached, or reached once, after the diff of
    a reconciled document against the baseline. *)
Lemma attempt_body_asks base nc formatted att st r st' :
  heap st !! nc = Some base ->
  attempt_body nc formatted att st = (r, st') ->
  exists evs,
    trace st' = trace st ++ evs
    /\ (Forall no_ask evs
        \/ exists json_str tail,
             evs = run_editor (seed_text formatted st)
                   :: confirmation (split_nl (json_dumps base)) json_str
                        (choice att)
                   ++ tail
             /\ reconciled_against base json_str
             /\ Forall no_ask tail).
Proof.
  intros Hnc. rewrite (attempt_body_run json_loads json_dumps). unfold attempt_try.
  assert (Hlt : nc < length (heap st)) by (eapply lookup_lt_Some; eauto).
  pose proof (validate_run json_loads json_dumps nc formatted att st) as Hval.
  cbv zeta in Hval.
  assert (Hcatch : forall e st1 evs,
            trace st1 = trace st ++ evs -> Forall no_ask evs ->
            (r, st') = (Raise e, st1)
            \/ (r, st') = (Ok (if negb (try_again att) then Break else Continue),
                           logged st1 [print (str_exn e);
                                       confirm_prompt (try_again att)]) ->
            exists evs',
              trace st' = trace st ++ evs'
              /\ (Forall no_ask evs'
                  \/ exists json_str tail,
                       evs' = run_editor (seed_text formatted st)
                              :: confirmation (split_nl (json_dumps base))
                                   json_str (choice att)
                              ++ tail
                       /\ reconciled_against base json_str
                       /\ Forall no_ask tail)).
  { intros e st1 evs Ht Hev [Heq|Heq]; inversion Heq; subst.
    - eauto.
    - exists (evs ++ [print (str_exn e); confirm_prompt (try_again att)]).
      simpl. rewrite Ht, <- app_assoc. split; [reflexivity|]. left.
      apply Forall_app. split; [exact Hev|repeat constructor]. }
  destruct (negb (editor_returncode att =? 0)%Z).
  { rewrite (bind_raise _ _ _ _ _ Hval). intros Hrun.
    apply (Hcatch (EditorError "Non-zero return code from editor")
             (logged st [run_editor (seed_text formatted st)])
             [run_editor (seed_text formatted st)]);
      [reflexivity|repeat constructor|right; symmetry; exact Hrun]. }
  destruct (json_loads (editor_saved att)) as [parsed|e].
  2:{ rewrite (bind_raise _ _ _ _ _ Hval). intros Hrun.
      apply (Hcatch e
               {| heap := heap st; edited_text := Some (editor_saved att);
                  trace := trace st ++ [run_editor (seed_text formatted st)] |}
               [run_editor (seed_text formatted st)]);
        [reflexivity|repeat constructor|].
      destruct e; (left; symmetry; exact Hrun) || (right; symmetry; exact Hrun). }
  assert (Hnc3 : (heap st ++ [parsed]) !! nc = Some base)
    by (rewrite lookup_app_l by exact Hlt; exact Hnc).
  rewrite Hnc3 in Hval. simpl default in Hval.
  destruct (next_is_None _).
  { rewrite (bind_raise _ _ _ _ _ Hval). intros Hrun.
    apply (Hcatch (EditorError "No changes detected")
             {| heap := heap st ++ [parsed];
                edited_text := Some (editor_saved att);
                trace := trace st ++ [run_editor (seed_text formatted st)] |}
             [run_editor (seed_text formatted st)]);
      [reflexivity|repeat constructor|right; symmetry; exact Hrun]. }
  rewrite (bind_ok _ _ _ _ _ Hval). clear Hval. cbn [fst snd].
  match goal with |- context [bind (reconcile nc ?l att) ?k ?s] =>
    destruct (reconcile nc l att s) as [r1 st4] eqn:Hrec
  end.
  pose proof Hrec as Hrec'.
  apply reconcile_inv in Hrec'; [|lia].
  destruct Hrec' as (Htr & _ & _ & _ & Hok). simpl in Htr.
  destruct r1 as [[]|e].
  2:{ rewrite (bind_raise _ _ _ _ _ Hrec). intros Hrun.
      apply (Hcatch e st4 [run_editor (seed_text formatted st)]);
        [exact Htr|repeat constructor|].
      destruct e; (left; symmetry; exact Hrun) || (right; symmetry; exact Hrun). }
  rewrite (bind_ok _ _ _ _ _ Hrec).
  destruct (Hok eq_refl)
    as (d0 & d & v0 & v1 & t0 & now & Hb & Hd & Hv0 & Ht0 & Hv1 & Hed).
  simpl in Hb. rewrite Hnc3 in Hb. injection Hb as Hb.
  rewrite (confirm_and_apply_run json_dumps). cbv zeta. rewrite Hed. simpl default.
  set (json_str := json_dumps (PyDict (reconciled v0 v1 t0 now d))).
  assert (Hdoc : reconciled_against base json_str).
  { exists d0, d, v0, v1, t0, now. repeat split; assumption. }
  change (print "You're going to apply the following diff:"
          :: map print (difflib.unified_diff (split_nl (json_dumps base))
                          (split_nl json_str))
          ++ [print (nl +:+ "What to do now?"); print "[1] Apply";
              print "[2] Edit"; print "[3] Cancel"; ask_prompt (choice att)])
    with (confirmation (LocationScope := LocationScope)
            (split_nl (json_dumps base)) json_str (choice att)).
  remember (confirmation (split_nl (json_dumps base)) json_str (choice att))
    as shown eqn:Hshown.
  assert (Hleaf : forall (p : result control * state LocationScope) tail,
            Forall no_ask tail ->
            (exists c, p = (Ok c, logged st4 (shown ++ tail)))
            \/ (exists c e tail0,
                  tail = tail0 ++ [print (str_exn e);
                                   confirm_prompt (try_again att)]
                  /\ p = (Ok c, logged (logged st4 (shown ++ tail0))
                                  [print (str_exn e);
                                   confirm_prompt (try_again att)])) ->
            p = (r, st') ->
            exists evs',
              trace st' = trace st ++ evs'
              /\ (Forall no_ask evs'
                  \/ exists json_str tail,
                       evs' = run_editor (seed_text formatted st)
                              :: confirmation (split_nl (json_dumps base))
                                   json_str (choice att)
                              ++ tail
                       /\ reconciled_against base json_str
                       /\ Forall no_ask tail)).
  { intros p tail Htail Hp Heq.
    exists (run_editor (seed_text formatted st) :: shown ++ tail).
    split.
    - destruct Hp as [[c ->]|(c & e & tail0 & -> & ->)];
        inversion Heq; subst r st'; simpl; rewrite Htr;
        rewrite <- ?app_assoc; reflexivity.
    - right. exists json_str, tail. rewrite Hshown. auto. }
  destruct (String.eqb (choice att) "2").
  { apply (Hleaf _ []); [constructor|]. left. rewrite app_nil_r. eauto. }
  destruct (String.eqb (choice att) "3").
  { apply (Hleaf _ []); [constructor|]. left. rewrite app_nil_r. eauto. }
  rewrite !logged_logged.
  destruct (json_to_nodes_configuration json_str) as [nc_bin|e] eqn:Hbin.
  2:{ cbv iota.
      apply (Hleaf _ ([encode_nodes_configuration json_str]
                      ++ [print (str_exn (NCMError ("Error on serializing config: "
                                                    +:+ str_exn e)));
                          confirm_prompt (try_again att)]));
        [repeat constructor|].
      right. eexists _, (NCMError _), [encode_nodes_configuration json_str].
      split; reflexivity. }
  rewrite !logged_logged.
  destruct (overwrite_result att) as [[]|e].
  - apply (Hleaf _ ([encode_nodes_configuration json_str]
                    ++ [overwrite_nodes_configuration nc_bin]));
      [repeat constructor|].
    left. rewrite <- app_assoc. eauto.
  - cbv iota.
    apply (Hleaf _ (([encode_nodes_configuration json_str]
                     ++ [overwrite_nodes_configuration nc_bin])
                    ++ [print (str_exn (NCMError ("Error on overwriting config: "
                                                  +:+ str_exn e)));
                        confirm_prompt (try_again att)]));
      [repeat constructor|].
    right. eexists _, (NCMError _), _. split; [reflexivity|].
    rewrite <- app_assoc. reflexivity.
Qed.

Lemma edit_loop_asks base nc formatted script : forall st r st',
  heap st !! nc = Some base ->
  edit_loop nc formatted script st = (r, st') ->
  exists evs, trace st' = trace st ++ evs /\ shown_against base evs.
Proof.
  induction script as [|att script IH]; intros st r st' Hnc Hrun; simpl in Hrun.
  - inversion Hrun; subst. exists []. rewrite app_nil_r.
    split; [reflexivity|apply shown_against_none; constructor].
  - unfold bind in Hrun.
    destruct (attempt_body nc formatted att st) as [r1 st1] eqn:Hbody.
    destruct (attempt_body_inv json_loads json_dumps json_to_nodes_configuration
                base _ _ _ _ _ _ Hnc Hbody) as (Hnc1 & _).
    destruct (attempt_body_asks _ _ _ _ _ _ _ Hnc Hbody)
      as (evs1 & Htr1 & Hcases).
    assert (Hrest : exists evs2,
              trace st' = trace st1 ++ evs2 /\ shown_against base evs2).
    { destruct r1 as [[]|e].
      - apply (IH _ _ _ Hnc1 Hrun).
      - inversion Hrun; subst. exists []. rewrite app_nil_r.
        split; [reflexivity|apply shown_against_none; constructor].
      - inversion Hrun; subst. exists []. rewrite app_nil_r.
        split; [reflexivity|apply shown_against_none; constructor]. }
    destruct Hrest as (evs2 & Htr2 & Hev2).
    exists (evs1 ++ evs2). rewrite Htr2, Htr1, app_assoc.
    split; [reflexivity|].
    destruct Hcases as [Hquiet|(json_str & tail & -> & Hrec & Htail)].
    + apply shown_against_after; assumption.
    + change (run_editor (seed_text formatted st)
              :: confirmation (split_nl (json_dumps base)) json_str (choice att)
              ++ tail)
        with ([run_editor (seed_text formatted st)]
              ++ confirmation (split_nl (json_dumps base)) json_str (choice att)
              ++ tail).
      rewrite <- !app_assoc.
      apply shown_against_shown; [repeat constructor|exact Hrec|].
      apply shown_against_after; assumption.
Qed.

(** C8: a session that gets its baseline fetches once, before the loop:
    [edit] is the loop run on the object fetched, after the events
    [build_client] and [get_nodes_configuration].  However many passes of
    the script have been made, the object [nc] still holds the document
    fetched, the passes have fetched nothing, every document they handed to
    the encoder was reconciled against it, and every answer to the menu
    followed the diff of such a document against the lines of the document
    fetched; the rest of the script runs from there.  In the pass made
    next, whatever the operator does in it, the check for changes is made
    on the diff against the lines of the document fetched, which are the
    lines handed on, and the diff shown is the diff against those lines of
    the edit reconciled with the version and timestamp of the document
    fetched. *)
Theorem baseline_is_fetched_once (w : world) st base :
  fetched w = Ok base ->
  let nc := length (heap st) in
  let formatted := json_dumps base in
  let nc_list := split_nl (json_dumps base) in
  let st1 :=
    {| heap := heap st ++ [base]; edited_text := None;
       trace := trace st ++ [build_client; get_nodes_configuration] |} in
  edit w st
  = match edit_loop nc formatted (attempts w) st1 with
    | (Ok (Some _), st2) => (Ok (Some (Some 0%Z)), st2)
    | (Ok None, st2) => (Ok None, st2)
    | (Raise e, st2) => (Raise e, st2)
    end
  /\ forall pre post,
       attempts w = pre ++ post ->
       let st2 := snd (edit_loop nc formatted pre st1) in
       heap st2 !! nc = Some base
       /\ (exists evs,
             trace st2 = trace st1 ++ evs
             /\ Forall (loop_event base) evs
             /\ ~ In get_nodes_configuration evs
             /\ ~ In build_client evs
             /\ shown_against base evs)
       /\ edit_loop nc formatted (attempts w) st1
          = match edit_loop nc formatted pre st1 with
            | (Ok None, st2) => edit_loop nc formatted post st2
            | other => other
            end
       /\ (forall att parsed,
             editor_returncode att = 0%Z ->
             json_loads (editor_saved att) = Ok parsed ->
             validate nc formatted att st2
             = let st3 :=
                 {| heap := heap st2 ++ [parsed];
                    edited_text := Some (editor_saved att);
                    trace := trace st2
                             ++ [run_editor (seed_text formatted st2)] |} in
               if next_is_None
                    (difflib.unified_diff nc_list
                       (split_nl (json_dumps parsed)))
               then (Raise (EditorError "No changes detected"), st3)
               else (Ok (length (heap st2), nc_list), st3))
       /\ (forall att d0 d v0 v1 t0 now,
             base = PyDict d0 ->
             dict_get d0 "version" = Some v0 ->
             py_add_1 v0 = Ok v1 ->
             dict_get d0 "last_timestamp" = Some t0 ->
             editor_returncode att = 0%Z ->
             json_loads (editor_saved att) = Ok (PyDict d) ->
             time_ms (time_time att) = Ok now ->
             json_dumps (PyDict d) <> json_dumps base ->
             exists tail,
               trace (snd (attempt_body nc formatted att st2))
               = trace st2
                 ++ run_editor (seed_text formatted st2)
                    :: confirmation nc_list
                         (json_dumps (PyDict (reconciled v0 v1 t0 now d)))
                         (choice att)
                    ++ tail).
Proof.
  intros Hfetched. cbv zeta.
  split.
  { rewrite edit_run, Hfetched.
    rewrite (fetched_events json_loads nodes_configuration_to_json
               LocationScope _ _ Hfetched).
    reflexivity. }
  intros pre post Hscript.
  destruct (edit_loop (length (heap st)) (json_dumps base) pre _)
    as [r st2] eqn:Hloop.
  pose proof Hloop as Hinv.
  apply edit_loop_inv with (base := base) in Hinv.
  2:{ simpl. apply list_lookup_middle. reflexivity. }
  destruct Hinv as (Hnc & evs & Htr & Hev).
  pose proof Hloop as Hasks.
  apply edit_loop_asks with (base := base) in Hasks.
  2:{ simpl. apply list_lookup_middle. reflexivity. }
  destruct Hasks as (evs' & Htr' & Hshown).
  assert (evs' = evs) as ->.
  { rewrite Htr in Htr'. apply app_inv_head in Htr'. symmetry. exact Htr'. }
  cbn [snd].
  split; [exact Hnc|].
  split.
  { exists evs. split; [exact Htr|]. split; [exact Hev|].
    rewrite List.Forall_forall in Hev.
    split; [intros Hin; apply (Hev _ Hin)|].
    split; [intros Hin; apply (Hev _ Hin)|exact Hshown]. }
  split.
  { rewrite Hscript, edit_loop_app, Hloop. reflexivity. }
  split.
  { intros att parsed Hrc Hloads.
    apply (validate_parsed json_loads json_dumps _ _ _ _ _ _ Hnc Hrc Hloads). }
  intros att d0 d v0 v1 t0 now -> Hv0 Hv1 Ht0 Hrc Hloads Hnow Hdiff.
  rewrite (attempt_body_changed json_loads json_dumps
             json_to_nodes_configuration _ (json_dumps (PyDict d0)) _ _ _ _ _ _ _ _
             Hnc Hv0 Hv1 Ht0 Hrc Hloads Hnow Hdiff).
  cbv zeta.
  destruct (String.eqb (choice att) "2");
    [exists []; cbn [snd trace]; rewrite app_nil_r; reflexivity|].
  destruct (String.eqb (choice att) "3");
    [exists []; cbn [snd trace]; rewrite app_nil_r; reflexivity|].
  destruct (json_to_nodes_configuration _) as [nc_bin|e];
    [destruct (overwrite_result att)|];
    eexists; cbn [snd trace logged]; rewrite <- app_assoc; reflexivity.
Qed.

End Baseline.

Lemma baseline_is_fetched_once_witness :
  let base := PyDict Sample.base_items in
  let saved := Sample.json_dumps (PyDict Sample.edited_items) in
  let first := Sample.answers 0 saved Sample.clock "2" (Ok tt) false in
  let second := Sample.answers 0 saved Sample.clock "1" (Ok tt) false in
  let w := Sample.cluster [first; second] (Ok tt) in
  let formatted := Sample.json_dumps base in
  let loop :=
    edit_loop Sample.json_loads Sample.json_dumps
      Sample.json_to_nodes_configuration Sample.LocationScope 0 formatted in
  let st1 : state Sample.LocationScope :=
    {| heap := [base]; edited_text := None;
       trace := [build_client; get_nodes_configuration] |} in
  let st2 := snd (loop [first] st1) in
  fetched Sample.json_loads Sample.nodes_configuration_to_json w = Ok base
  /\ Sample.edit w initial
     = match loop (attempts w) st1 with
       | (Ok (Some _), st2) => (Ok (Some (Some 0%Z)), st2)
       | (Ok None, st2) => (Ok None, st2)
       | (Raise e, st2) => (Raise e, st2)
       end
  /\ heap st2 !! 0 = Some base
  /\ seed_text formatted st2 = saved
  /\ exists tail,
       trace (snd (attempt_body Sample.json_loads Sample.json_dumps
                     Sample.json_to_nodes_configuration Sample.LocationScope
                     0 formatted second st2))
       = trace st2
         ++ run_editor (seed_text formatted st2)
            :: confirmation (split_nl (Sample.json_dumps base))
                 (Sample.json_dumps
                    (PyDict (reconciled (PyInt 5) (PyInt 6) (PyInt 1000)
                               1610612736000 Sample.edited_items)))
                 "1"
            ++ tail.
Proof.
  cbv zeta.
  assert (Hfetched :
            fetched Sample.json_loads Sample.nodes_configuration_to_json
              (Sample.cluster
                 [Sample.answers 0
                    (Sample.json_dumps (PyDict Sample.edited_items))
                    Sample.clock "2" (Ok tt) false;
                  Sample.answers 0
                    (Sample.json_dumps (PyDict Sample.edited_items))
                    Sample.clock "1" (Ok tt) false] (Ok tt))
            = Ok (PyDict Sample.base_items))
    by (vm_compute; reflexivity).
  split; [exact Hfetched|].
  destruct (baseline_is_fetched_once Sample.json_loads Sample.json_dumps
              Sample.nodes_configuration_to_json
              Sample.json_to_nodes_configuration Sample.LocationScope
              _ initial _ Hfetched) as [Hedit Hpasses].
  split; [exact Hedit|].
  destruct (Hpasses
              [Sample.answers 0 (Sample.json_dumps (PyDict Sample.edited_items))
                 Sample.clock "2" (Ok tt) false]
              [Sample.answers 0 (Sample.json_dumps (PyDict Sample.edited_items))
                 Sample.clock "1" (Ok tt) false]
              eq_refl) as (Hnc & _ & _ & _ & Hshown).
  split; [exact Hnc|].
  split; [vm_compute; reflexivity|].
  apply (Hshown
           (Sample.answers 0 (Sample.json_dumps (PyDict Sample.edited_items))
              Sample.clock "1" (Ok tt) false)
           Sample.base_items Sample.edited_items
           (PyInt 5) (PyInt 6) (PyInt 1000) 1610612736000%Z);
    try reflexivity.
  vm_compute. discriminate.
Defined.

(** ** More on the commands *)
Section Whole.
Variable json_loads : string -> result pyobj.
Variable json_dumps : pyobj -> string.
Variable nodes_configuration_to_json : string -> result string.
Variable json_to_nodes_configuration : string -> result string.
Variable highlight : string -> string.
Variable str_upper : string -> string.
Variable LocationScope : Type.
Variable LocationScope_getitem : string -> option LocationScope.
Variable LocationScope_eqb : LocationScope -> LocationScope -> bool.
Implicit Types (st : state LocationScope).

Local Abbreviation fetched := (fetched json_loads nodes_configuration_to_json).
Local Abbreviation attempt_body :=
  (attempt_body json_loads json_dumps json_to_nodes_configuration LocationScope).
Local Abbreviation edit_loop :=
  (edit_loop json_loads json_dumps json_to_nodes_configuration LocationScope).
Local Abbreviation edit :=
  (edit json_loads json_dumps nodes_configuration_to_json
     json_to_nodes_configuration LocationScope).
Local Abbreviation show :=
  (show json_loads json_dumps nodes_configuration_to_json highlight LocationScope).
Local Abbreviation fetch_events := (fetch_events LocationScope).
Local Abbreviation confirmed_writes :=
  (confirmed_writes json_dumps json_to_nodes_configuration LocationScope).

Lemma lookup_first (l : list pyobj) x y : (l ++ [x; y]) !! length l = Some x.
Proof. apply (list_lookup_middle l [y] x). reflexivity. Qed.

Lemma lookup_second (l : list pyobj) x y :
  (l ++ [x; y]) !! S (length l) = Some y.
Proof.
  rewrite (app_assoc l [x] [y] : l ++ [x; y] = (l ++ [x]) ++ [y]).
  apply list_lookup_middle. rewrite length_app. simpl. lia.
Qed.

(** The first pass of a session whose edit parses and changes the
    document, up to reconciliation. *)
Lemma first_pass_reconciles (w : world) st base parsed att script :
  fetched w = Ok base ->
  attempts w = att :: script ->
  editor_returncode att = 0%Z ->
  json_loads (editor_saved att) = Ok parsed ->
  json_dumps parsed <> json_dumps base ->
  forall e st2,
    reconcile (length (heap st)) (S (length (heap st))) att
      {| heap := heap st ++ [base; parsed];
         edited_text := Some (editor_saved att);
         trace := trace st ++ [build_client; get_nodes_configuration;
                               run_editor (json_dumps base)] |}
    = (Raise e, st2) ->
    (forall msg, e <> EditorError msg) ->
    (forall msg, e <> JSONDecodeError msg) ->
    (forall msg, e <> NCMError msg) ->
    edit w st = (Raise e, st2).
Proof.
  intros Hfetched Hscript Hrc Hloads Hdiff e st2 Hrec He1 He2 He3.
  rewrite edit_run, Hfetched,
    (fetched_events json_loads nodes_configuration_to_json LocationScope
       _ _ Hfetched), Hscript.
  rewrite edit_loop_cons, attempt_body_run. unfold attempt_try.
  erewrite bind_ok.
  2:{ erewrite validate_parsed; try eassumption.
      2:{ simpl. apply list_lookup_middle. reflexivity. }
      cbv zeta. destruct (next_is_None _) eqn:Hcheck.
      - apply next_is_None_diff in Hcheck. contradiction.
      - reflexivity. }
  cbn [fst snd]. erewrite bind_raise.
  2:{ simpl. rewrite length_app. simpl. rewrite Nat.add_1_r.
      rewrite <- !app_assoc. simpl. exact Hrec. }
  destruct e; try reflexivity; exfalso; [eapply He1|eapply He3|eapply He2];
    reflexivity.
Qed.

(** X3: an edit that is not a JSON object ends the command with an
    exception.  When the text saved parses to a list, a number, a string,
    a boolean or [null] (and so differs from the baseline), [edited_nc.get]
    raises [AttributeError]; the [except] of the loop does not catch it, so
    [edit] neither prints an error nor asks "Try again?": the exception
    leaves the command right after the editor. *)
Theorem non_object_edit_escapes (w : world) st base parsed att script :
  fetched w = Ok base ->
  attempts w = att :: script ->
  editor_returncode att = 0%Z ->
  json_loads (editor_saved att) = Ok parsed ->
  (forall d, parsed <> PyDict d) ->
  json_dumps parsed <> json_dumps base ->
  exists msg,
    edit w st
    = (Raise (AttributeError msg),
       {| heap := heap st ++ [base; parsed];
          edited_text := Some (editor_saved att);
          trace := trace st ++ [build_client; get_nodes_configuration;
                                run_editor (json_dumps base)] |}).
Proof.
  intros Hfetched Hscript Hrc Hloads Hshape Hdiff.
  eexists. eapply first_pass_reconciles; try eassumption; try discriminate.
  unfold reconcile, get_eq, bind, read. simpl.
  rewrite lookup_second.
  destruct parsed; try reflexivity. exfalso. eapply Hshape. reflexivity.
Qed.

(** X4: a baseline without a version ends the command with an exception.
    When the document fetched is an object that has no key ["version"],
    the first edit that changes it makes [nc["version"]] raise [KeyError];
    the loop does not catch it, and [edit] ends there without a message of
    its own and without asking "Try again?". *)
Theorem baseline_without_version_escapes (w : world) st d0 d att script :
  fetched w = Ok (PyDict d0) ->
  dict_get d0 "version" = None ->
  attempts w = att :: script ->
  editor_returncode att = 0%Z ->
  json_loads (editor_saved att) = Ok (PyDict d) ->
  json_dumps (PyDict d) <> json_dumps (PyDict d0) ->
  edit w st
  = (Raise (KeyError "version"),
     {| heap := heap st ++ [PyDict d0; PyDict d];
        edited_text := Some (editor_saved att);
        trace := trace st ++ [build_client; get_nodes_configuration;
                              run_editor (json_dumps (PyDict d0))] |}).
Proof.
  intros Hfetched Hversion Hscript Hrc Hloads Hdiff.
  eapply first_pass_reconciles; try eassumption; try discriminate.
  unfold reconcile, get_eq, getitem, bind, read. simpl.
  rewrite lookup_second. simpl. rewrite lookup_first. simpl.
  rewrite Hversion. reflexivity.
Qed.

(** X8: nothing is written that was not confirmed.  In every run of
    [edit], each call of [overwrite_nodes_configuration] hands over the
    encoding of a document that was encoded just before, whose diff against
    the baseline fetched was printed with the menu just before that, and to
    which the operator answered something other than "2" and "3"; what
    follows a write is nothing at all or the report of its failure.  When
    the baseline cannot be fetched nothing is written. *)
Theorem writes_are_confirmed (w : world) st :
  exists evs,
    trace (snd (edit w st)) = trace st ++ evs
    /\ match fetched w with
       | Ok base => confirmed_writes base evs
       | Raise _ => Forall no_write evs
       end.
Proof.
  rewrite edit_run. destruct (fetched w) as [base|e] eqn:Hfetched.
  - rewrite (fetched_events json_loads nodes_configuration_to_json
               LocationScope _ _ Hfetched).
    destruct (edit_loop _ _ _ _) as [r st2] eqn:Hloop.
    apply (edit_loop_writes json_loads json_dumps json_to_nodes_configuration
             base) in Hloop.
    2:{ simpl. apply list_lookup_middle. reflexivity. }
    destruct Hloop as (evs & Htr & Hev). simpl in Htr.
    exists ([build_client; get_nodes_configuration] ++ evs). split.
    + rewrite app_assoc, <- Htr. destruct r as [[[]|]|e]; reflexivity.
    + apply confirmed_writes_after; [repeat constructor|exact Hev].
  - eexists. split; [reflexivity|].
    apply Forall_app. split; [|repeat constructor].
    unfold fetch_events.
    destruct (client_result w); repeat constructor.
Qed.

(** X9: [show] prints what [edit] opens.  When the configuration can be
    fetched, [show] prints the highlighted form of the string on which the
    first pass of [edit] opens the editor, and returns 0; when it cannot,
    the two commands do the same: the error is printed, 1 is returned, and
    neither an editor nor a write follows. *)
Theorem show_prints_what_edit_opens (w : world) st :
  match fetched w with
  | Ok base =>
      show w st
      = (Ok (Some 0%Z),
         {| heap := heap st ++ [base]; edited_text := edited_text st;
            trace := trace st ++ [build_client; get_nodes_configuration;
                                  print (highlight (json_dumps base))] |})
      /\ forall att script,
           attempts w = att :: script ->
           exists evs,
             trace (snd (edit w st))
             = trace st ++ [build_client; get_nodes_configuration;
                            run_editor (json_dumps base)] ++ evs
  | Raise e =>
      show w st
      = (Ok (Some 1%Z), logged st (fetch_events w ++ [print (str_exn e)]))
      /\ edit w st
         = (Ok (Some (Some 1%Z)),
            logged st (fetch_events w ++ [print (str_exn e)]))
  end.
Proof.
  rewrite show_run, edit_run.
  destruct (fetched w) as [base|e] eqn:Hfetched; [|split; reflexivity].
  rewrite (fetched_events json_loads nodes_configuration_to_json
             LocationScope _ _ Hfetched).
  split; [rewrite <- app_assoc; reflexivity|].
  intros att script ->. rewrite edit_loop_cons.
  match goal with |- context [attempt_body ?nc ?f att ?s] =>
    destruct (attempt_body nc f att s) as [r1 st1] eqn:Hbody;
    pose proof (attempt_body_shape json_loads json_dumps
                  json_to_nodes_configuration nc f att s) as [_ [evs1 Hshape]];
    pose proof (attempt_body_inv json_loads json_dumps
                  json_to_nodes_configuration base nc f att s r1 st1) as Hinv
  end.
  rewrite Hbody in Hshape. simpl in Hshape.
  destruct Hinv as [Hnc1 _];
    [simpl; apply list_lookup_middle; reflexivity|exact Hbody|].
  assert (Hfirst : trace st1
                   = trace st ++ [build_client; get_nodes_configuration;
                                  run_editor (json_dumps base)] ++ evs1).
  { rewrite Hshape, <- app_assoc. reflexivity. }
  destruct r1 as [[]|e].
  - destruct (edit_loop _ _ script st1) as [r st2] eqn:Hloop.
    apply (edit_loop_inv json_loads json_dumps json_to_nodes_configuration
             base) in Hloop; [|exact Hnc1].
    destruct Hloop as (_ & evs2 & Htr2 & _).
    exists (evs1 ++ evs2).
    assert (Hst2 : trace st2
                   = trace st ++ [build_client; get_nodes_configuration;
                                  run_editor (json_dumps base)]
                              ++ evs1 ++ evs2).
    { rewrite Htr2, Hfirst, <- !app_assoc. reflexivity. }
    destruct r as [[[]|]|e]; exact Hst2.
  - exists evs1. exact Hfirst.
  - exists evs1. exact Hfirst.
Qed.

End Whole.

(** ** The replication property of [bootstrap] *)
Section Scopes.
Variable str_upper : string -> string.
Variable LocationScope : Type.
Variable LocationScope_getitem : string -> option LocationScope.
Variable LocationScope_eqb : LocationScope -> LocationScope -> bool.
Hypothesis LocationScope_eqb_spec :
  forall s t, LocationScope_eqb s t = true <-> s = t.
Implicit Types (st : state LocationScope).

Local Abbreviation scope_set := (scope_set LocationScope LocationScope_eqb).
Local Abbreviation scope_get := (scope_get LocationScope LocationScope_eqb).
Local Abbreviation factor_of :=
  (factor_of str_upper LocationScope LocationScope_getitem LocationScope_eqb).
Local Abbreviation scopes_loop :=
  (scopes_loop str_upper LocationScope LocationScope_getitem LocationScope_eqb).
Local Abbreviation first_invalid_scope :=
  (first_invalid_scope str_upper LocationScope LocationScope_getitem).
Local Abbreviation bootstrap :=
  (bootstrap str_upper LocationScope LocationScope_getitem LocationScope_eqb).

Lemma LocationScope_eqb_refl s : LocationScope_eqb s s = true.
Proof. apply LocationScope_eqb_spec. reflexivity. Qed.

Lemma scope_get_set rp s f s' :
  scope_get (scope_set rp s f) s'
  = if LocationScope_eqb s s' then Some f else scope_get rp s'.
Proof.
  induction rp as [|[s0 f0] rp IH]; simpl; [reflexivity|].
  destruct (LocationScope_eqb s0 s) eqn:Hs0; simpl.
  - apply LocationScope_eqb_spec in Hs0. subst s0.
    destruct (LocationScope_eqb s s'); reflexivity.
  - rewrite IH.
    destruct (LocationScope_eqb s0 s') eqn:Hs0'; [|reflexivity].
    destruct (LocationScope_eqb s s') eqn:Hs'; [|reflexivity].
    apply LocationScope_eqb_spec in Hs0', Hs'. subst.
    rewrite LocationScope_eqb_refl in Hs0. discriminate.
Qed.

Lemma scope_set_keys rp s f x :
  In x (map fst (scope_set rp s f)) <-> x = s \/ In x (map fst rp).
Proof.
  induction rp as [|[s0 f0] rp IH]; simpl.
  - intuition.
  - destruct (LocationScope_eqb s0 s) eqn:Hs0; simpl.
    + apply LocationScope_eqb_spec in Hs0. subst s0. intuition.
    + rewrite IH. intuition.
Qed.

Lemma scope_set_NoDup rp s f :
  NoDup (map fst rp) -> NoDup (map fst (scope_set rp s f)).
Proof.
  induction rp as [|[s0 f0] rp IH]; simpl; intros Hnd.
  - apply NoDup_cons_2; [apply not_elem_of_nil|apply NoDup_nil_2].
  - apply NoDup_cons in Hnd. destruct Hnd as [Hnotin Hnd].
    destruct (LocationScope_eqb s0 s) eqn:Hs0; simpl.
    + apply NoDup_cons_2; assumption.
    + apply NoDup_cons_2; [|apply IH; exact Hnd].
      rewrite list_elem_of_In, scope_set_keys. intros [->|Hin].
      * rewrite LocationScope_eqb_refl in Hs0. discriminate.
      * apply Hnotin. apply list_elem_of_In. exact Hin.
Qed.

(** The loop over a mapping whose names are all scopes. *)
Lemma scopes_loop_valid items : forall rp st,
  first_invalid_scope items = None ->
  exists rp',
    scopes_loop items rp st = (Ok (inr rp'), st)
    /\ (forall scope, scope_get rp' scope = factor_of items scope (scope_get rp scope))
    /\ (NoDup (map fst rp) -> NoDup (map fst rp'))
    /\ (items = [] -> rp' = rp).
Proof.
  induction items as [|[scope_str factor] items IH]; intros rp st Hvalid;
    simpl in *.
  - exists rp. auto.
  - destruct (LocationScope_getitem (str_upper scope_str)) as [s|];
      [|discriminate].
    destruct (IH (scope_set rp s factor) st Hvalid) as (rp' & Hrun & Hget & Hnd & _).
    exists rp'. split; [exact Hrun|]. split; [|split; [|discriminate]].
    + intros scope. rewrite Hget, scope_get_set. reflexivity.
    + intros H. apply Hnd, scope_set_NoDup, H.
Qed.

(** The factor found is that of the last item that names the scope. *)
Lemma factor_of_last items : forall scope found f,
  first_invalid_scope items = None ->
  factor_of items scope found = Some f <->
  (exists pre scope_str post,
     items = pre ++ (scope_str, f) :: post
     /\ LocationScope_getitem (str_upper scope_str) = Some scope
     /\ forall name, In name (map fst post) ->
          LocationScope_getitem (str_upper name) <> Some scope)
  \/ (found = Some f
      /\ forall name, In name (map fst items) ->
           LocationScope_getitem (str_upper name) <> Some scope).
Proof.
  induction items as [|[scope_str factor] items IH]; intros scope found f Hvalid;
    simpl in *.
  - split.
    + intros ->. right. split; [reflexivity|intros name []].
    + intros [(pre & name & post & Heq & _)|[-> _]]; [|reflexivity].
      destruct pre; discriminate.
  - destruct (LocationScope_getitem (str_upper scope_str)) as [s|] eqn:Hs;
      [|discriminate].
    rewrite (IH _ _ _ Hvalid). split.
    + intros [(pre & name & post & -> & Hname & Hpost)|[Hfound Hnone]].
      * left. exists ((scope_str, factor) :: pre), name, post. auto.
      * destruct (LocationScope_eqb s scope) eqn:Heq.
        -- apply LocationScope_eqb_spec in Heq. subst s.
           injection Hfound as ->.
           left. exists [], scope_str, items. auto.
        -- right. split; [exact Hfound|].
           intros name [<-|Hin]; [|apply Hnone; exact Hin].
           rewrite Hs. intros [= ->].
           rewrite LocationScope_eqb_refl in Heq. discriminate.
    + intros [(pre & name & post & Heq & Hname & Hpost)|[-> Hnone]].
      * destruct pre as [|p pre]; simpl in Heq.
        -- injection Heq as -> -> ->. right.
           rewrite Hs in Hname. injection Hname as ->.
           rewrite LocationScope_eqb_refl. auto.
        -- injection Heq as <- ->. left. exists pre, name, post. auto.
      * right. split.
        -- destruct (LocationScope_eqb s scope) eqn:Heq; [|reflexivity].
           apply LocationScope_eqb_spec in Heq. subst s.
           exfalso. apply (Hnone scope_str); auto.
        -- intros name Hin. apply Hnone. right. exact Hin.
Qed.

(** X10: the replication property is a mapping.  When every name of
    [metadata_replicate_across] is a scope and the admin client is
    obtained, [bootstrap] issues one [bootstrapCluster] call, with a
    timeout of 60, and reports its outcome.  The property sent holds every
    scope at most once, and the factor of a scope is that of the last item
    of the mapping whose upper-cased name denotes it; for an empty mapping
    the property is empty and the call is still made. *)
Theorem bootstrap_replication_property (w : world) items st :
  first_invalid_scope items = None ->
  admin_client_result w = Ok tt ->
  exists rp,
    bootstrap w items st
    = (match rpc_result w with
       | Ok _ => Ok None
       | Raise _ => Ok (Some 1%Z)
       end,
       logged st [get_cluster_admin_client; bootstrapCluster rp 60;
                  print (match rpc_result w with
                         | Ok _ => "Successfully bootstrapped the cluster"
                         | Raise e => str_exn e
                         end)])
    /\ NoDup (map fst rp)
    /\ (items = [] -> rp = [])
    /\ forall scope f,
         scope_get rp scope = Some f <->
         exists pre scope_str post,
           items = pre ++ (scope_str, f) :: post
           /\ LocationScope_getitem (str_upper scope_str) = Some scope
           /\ forall name, In name (map fst post) ->
                LocationScope_getitem (str_upper name) <> Some scope.
Proof.
  intros Hvalid Hadmin.
  destruct (scopes_loop_valid items [] st Hvalid) as (rp & Hloop & Hget & Hnd & Hnil).
  exists rp. split; [|split; [apply Hnd; apply NoDup_nil_2|split; [exact Hnil|]]].
  - unfold bootstrap. unfold bind at 1. rewrite Hloop.
    unfold bind, try_except, emit, lift, ret, logged. simpl.
    rewrite Hadmin.
    destruct (rpc_result w) as [[]|e]; simpl; rewrite <- !app_assoc; reflexivity.
  - intros scope f. rewrite Hget. simpl.
    rewrite (factor_of_last _ _ _ _ Hvalid). split; [|auto].
    intros [H|[H _]]; [exact H|discriminate].
Qed.

End Scopes.

(** ** What reconciliation leaves alone *)

Lemma dict_set_keeps d k v k' :
  is_Some (dict_get d k') -> is_Some (dict_get (dict_set d k v) k').
Proof.
  intros Hsome. destruct (String.eqb_spec k k') as [->|Hne].
  - rewrite dict_get_set_eq. eauto.
  - rewrite dict_get_set_ne by exact Hne. exact Hsome.
Qed.

Lemma reconciled_other v0 v1 t0 now d k :
  k <> "version" -> k <> "last_timestamp" ->
  dict_get (reconciled v0 v1 t0 now d) k = dict_get d k.
Proof.
  intros Hv Ht. unfold reconciled.
  destruct (same_as d "version" v0);
    match goal with |- context [if ?c then _ else _] => destruct c end;
    rewrite ?dict_get_set_ne by congruence; reflexivity.
Qed.

Lemma reconciled_keeps v0 v1 t0 now d k :
  is_Some (dict_get d k) -> is_Some (dict_get (reconciled v0 v1 t0 now d) k).
Proof.
  intros Hsome. unfold reconciled.
  destruct (same_as d "version" v0);
    match goal with |- context [if ?c then _ else _] => destruct c end;
    repeat apply dict_set_keeps; exact Hsome.
Qed.

(** X11: reconciliation touches two keys of one object.  Lines 139 to
    146 change nothing but the values of ["version"] and
    ["last_timestamp"] in the edited document: every other key keeps its
    value, no key is removed, the baseline and every other object stay as
    they are, and nothing is printed. *)
Theorem reconcile_touches_two_keys {LocationScope : Type} nc edited_nc att
    (st : state LocationScope) d0 d v0 v1 t0 now :
  heap st !! nc = Some (PyDict d0) ->
  heap st !! edited_nc = Some (PyDict d) ->
  nc <> edited_nc ->
  dict_get d0 "version" = Some v0 ->
  py_add_1 v0 = Ok v1 ->
  dict_get d0 "last_timestamp" = Some t0 ->
  time_ms (time_time att) = Ok now ->
  exists st' d',
    reconcile nc edited_nc att st = (Ok tt, st')
    /\ heap st' !! edited_nc = Some (PyDict d')
    /\ (forall k, k <> "version" -> k <> "last_timestamp" ->
          dict_get d' k = dict_get d k)
    /\ (forall k, is_Some (dict_get d k) -> is_Some (dict_get d' k))
    /\ (forall l, l <> edited_nc -> heap st' !! l = heap st !! l)
    /\ length (heap st') = length (heap st)
    /\ trace st' = trace st
    /\ edited_text st' = edited_text st.
Proof.
  intros Hnc Hed Hne Hv0 Hv1 Ht0 Hnow.
  eexists. exists (reconciled v0 v1 t0 now d).
  split; [eapply reconcile_run; eassumption|]. simpl.
  split; [apply list_lookup_insert_eq; eapply lookup_lt_Some; eauto|].
  split; [intros k; apply reconciled_other|].
  split; [intros k; apply reconciled_keeps|].
  split; [intros l Hl; apply list_lookup_insert_ne; congruence|].
  split; [apply length_insert|]. split; reflexivity.
Qed.

(** ** How the loop is left *)
Section Leaving.
Variable json_loads : string -> result pyobj.
Variable json_dumps : pyobj -> string.
Variable nodes_configuration_to_json : string -> result string.
Variable json_to_nodes_configuration : string -> result string.
Context {LocationScope : Type}.
Implicit Types (st : state LocationScope).

Local Abbreviation attempt_try :=
  (attempt_try json_loads json_dumps json_to_nodes_configuration LocationScope).
Local Abbreviation attempt_body :=
  (attempt_body json_loads json_dumps json_to_nodes_configuration LocationScope).
Local Abbreviation edit_loop :=
  (edit_loop json_loads json_dumps json_to_nodes_configuration LocationScope).
Local Abbreviation edit :=
  (edit json_loads json_dumps nodes_configuration_to_json
     json_to_nodes_configuration LocationScope).

(** A pass that leaves the loop ends on the answer "3", on a refusal to
    try again, or on a write. *)
Lemma attempt_body_break nc formatted att st st' :
  attempt_body nc formatted att st = (Ok Break, st') ->
  exists evs e,
    trace st' = trace st ++ evs ++ [e]
    /\ (e = ask_prompt "3" \/ e = confirm_prompt false
        \/ exists nc_bin, e = overwrite_nodes_configuration nc_bin).
Proof.
  rewrite attempt_body_run. unfold attempt_try.
  pose proof (validate_run json_loads json_dumps nc formatted att st) as Hval.
  cbv zeta in Hval.
  assert (Hcatch : forall e st1 evs,
            trace st1 = trace st ++ evs ->
            (Ok Break, st') = (Raise e, st1)
            \/ (Ok Break, st')
               = (Ok (if negb (try_again att) then Break else Continue),
                  logged st1 [print (str_exn e);
                              confirm_prompt (try_again att)]) ->
            exists evs' e',
              trace st' = trace st ++ evs' ++ [e']
              /\ (e' = ask_prompt "3" \/ e' = confirm_prompt false
                  \/ exists nc_bin, e' = overwrite_nodes_configuration nc_bin)).
  { intros e st1 evs Ht [Heq|Heq]; [discriminate|].
    destruct (try_again att); [discriminate|].
    injection Heq as ->.
    exists (evs ++ [print (str_exn e)]), (confirm_prompt false).
    simpl. rewrite Ht, <- !app_assoc. auto. }
  destruct (negb (editor_returncode att =? 0)%Z).
  { rewrite (bind_raise _ _ _ _ _ Hval). intros Hrun.
    apply (Hcatch (EditorError "Non-zero return code from editor")
             (logged st [run_editor (seed_text formatted st)])
             [run_editor (seed_text formatted st)]);
      [reflexivity|right; symmetry; exact Hrun]. }
  destruct (json_loads (editor_saved att)) as [parsed|e].
  2:{ rewrite (bind_raise _ _ _ _ _ Hval). intros Hrun.
      apply (Hcatch e
               {| heap := heap st; edited_text := Some (editor_saved att);
                  trace := trace st ++ [run_editor (seed_text formatted st)] |}
               [run_editor (seed_text formatted st)]); [reflexivity|].
      destruct e; (left; symmetry; exact Hrun) || (right; symmetry; exact Hrun). }
  destruct (next_is_None _).
  { rewrite (bind_raise _ _ _ _ _ Hval). intros Hrun.
    apply (Hcatch (EditorError "No changes detected")
             {| heap := heap st ++ [parsed];
                edited_text := Some (editor_saved att);
                trace := trace st ++ [run_editor (seed_text formatted st)] |}
             [run_editor (seed_text formatted st)]);
      [reflexivity|right; symmetry; exact Hrun]. }
  rewrite (bind_ok _ _ _ _ _ Hval). clear Hval. cbn [fst snd].
  match goal with |- context [bind (reconcile nc ?l att) ?k ?s] =>
    destruct (reconcile nc l att s) as [r1 st4] eqn:Hrec
  end.
  destruct (quiet_reconcile _ _ _ _ _ _ Hrec) as [Htr _]. simpl in Htr.
  destruct r1 as [[]|e].
  2:{ rewrite (bind_raise _ _ _ _ _ Hrec). intros Hrun.
      apply (Hcatch e st4 [run_editor (seed_text formatted st)]);
        [exact Htr|].
      destruct e; (left; symmetry; exact Hrun) || (right; symmetry; exact Hrun). }
  rewrite (bind_ok _ _ _ _ _ Hrec).
  rewrite confirm_and_apply_run. cbv zeta.
  set (json_str := json_dumps (default PyNone (heap st4 !! length (heap st)))).
  remember (print "You're going to apply the following diff:" :: _)
    as shown eqn:Hshown.
  assert (Htr1 : forall evs,
            trace (logged st4 evs)
            = trace st ++ [run_editor (seed_text formatted st)] ++ evs).
  { intros evs. simpl. rewrite Htr, <- app_assoc. reflexivity. }
  destruct (String.eqb (choice att) "2"); [discriminate|].
  destruct (String.eqb_spec (choice att) "3") as [Hc3|_].
  { intros [= <-]. rewrite Htr1, Hshown, Hc3.
    eexists (run_editor (seed_text formatted st)
             :: print "You're going to apply the following diff:"
             :: map print _
             ++ [print (nl +:+ "What to do now?"); print "[1] Apply";
                 print "[2] Edit"; print "[3] Cancel"]), (ask_prompt "3").
    split; [|auto]. cbn [app]. rewrite <- !app_assoc. reflexivity. }
  rewrite !logged_logged.
  destruct (json_to_nodes_configuration json_str) as [nc_bin|e] eqn:Hbin.
  2:{ intros Hrun.
      apply (Hcatch (NCMError ("Error on serializing config: " +:+ str_exn e))
               (logged st4 (shown ++ [encode_nodes_configuration json_str]))
               ([run_editor (seed_text formatted st)]
                ++ shown ++ [encode_nodes_configuration json_str]));
        [apply Htr1|right; symmetry; exact Hrun]. }
  rewrite !logged_logged.
  destruct (overwrite_result att) as [[]|e].
  - intros [= <-].
    exists ([run_editor (seed_text formatted st)]
            ++ shown ++ [encode_nodes_configuration json_str]),
      (overwrite_nodes_configuration nc_bin).
    split; [|eauto]. rewrite Htr1, <- !app_assoc. reflexivity.
  - cbv iota. intros Hrun.
    apply (Hcatch (NCMError ("Error on overwriting config: " +:+ str_exn e))
             (logged st4 ((shown ++ [encode_nodes_configuration json_str])
                          ++ [overwrite_nodes_configuration nc_bin]))
             ([run_editor (seed_text formatted st)]
              ++ (shown ++ [encode_nodes_configuration json_str])
              ++ [overwrite_nodes_configuration nc_bin]));
      [apply Htr1|right; symmetry; exact Hrun].
Qed.

Lemma edit_loop_left nc formatted script : forall st st',
  edit_loop nc formatted script st = (Ok (Some tt), st') ->
  exists evs e,
    trace st' = trace st ++ evs ++ [e]
    /\ (e = ask_prompt "3" \/ e = confirm_prompt false
        \/ exists nc_bin, e = overwrite_nodes_configuration nc_bin).
Proof.
  induction script as [|att script IH]; intros st st' Hrun; [discriminate|].
  rewrite edit_loop_cons in Hrun.
  destruct (attempt_body nc formatted att st) as [[[]|e] st1] eqn:Hbody;
    [| |discriminate].
  - destruct (attempt_body_shape json_loads json_dumps
                json_to_nodes_configuration nc formatted att st) as [_ [evs1 Htr1]].
    rewrite Hbody in Htr1. simpl in Htr1.
    destruct (IH _ _ Hrun) as (evs & e & Htr & He).
    exists ((run_editor (seed_text formatted st) :: evs1) ++ evs), e.
    split; [|exact He]. rewrite Htr, Htr1, <- !app_assoc. reflexivity.
  - injection Hrun as <-. eapply attempt_body_break. exact Hbody.
Qed.

(** X12: the loop of [edit] is left by the operator or by a write.  When
    [edit] returns 0, the last thing it did was to take the answer "3" to
    the menu, to take "no" for an answer to "Try again?", or to call
    [overwrite_nodes_configuration]: the command never gives up, or
    declares success, on its own. *)
Theorem edit_returns_after_a_decision (w : world) st :
  fst (edit w st) = Ok (Some (Some 0%Z)) ->
  exists evs e,
    trace (snd (edit w st)) = trace st ++ evs ++ [e]
    /\ (e = ask_prompt "3" \/ e = confirm_prompt false
        \/ exists nc_bin, e = overwrite_nodes_configuration nc_bin).
Proof.
  rewrite edit_run.
  destruct (fetched json_loads nodes_configuration_to_json w)
    as [base|e0]; [|discriminate].
  destruct (edit_loop _ _ _ _) as [[[[]|]|e0] st2] eqn:Hloop; try discriminate.
  intros _. apply edit_loop_left in Hloop.
  destruct Hloop as (evs & e & Htr & He). simpl in Htr.
  exists (fetch_events LocationScope w ++ evs), e.
  split; [|exact He]. simpl. rewrite Htr, <- !app_assoc. reflexivity.
Qed.

End Leaving.

(** ** The calls of each command *)
Section Calls.
Variable json_loads : string -> result pyobj.
Variable json_dumps : pyobj -> string.
Variable nodes_configuration_to_json : string -> result string.
Variable json_to_nodes_configuration : string -> result string.
Variable highlight : string -> string.
Variable str_upper : string -> string.
Variable LocationScope : Type.
Variable LocationScope_getitem : string -> option LocationScope.
Variable LocationScope_eqb : LocationScope -> LocationScope -> bool.
Implicit Types (st : state LocationScope).

Local Abbreviation fetched := (fetched json_loads nodes_configuration_to_json).
Local Abbreviation edit_loop :=
  (edit_loop json_loads json_dumps json_to_nodes_configuration LocationScope).
Local Abbreviation edit :=
  (edit json_loads json_dumps nodes_configuration_to_json
     json_to_nodes_configuration LocationScope).
Local Abbreviation show :=
  (show json_loads json_dumps nodes_configuration_to_json highlight LocationScope).
Local Abbreviation bootstrap :=
  (bootstrap str_upper LocationScope LocationScope_getitem LocationScope_eqb).
Local Abbreviation shrink := (shrink LocationScope).
Local Abbreviation fetch_events := (fetch_events LocationScope).
Local Abbreviation first_invalid_scope :=
  (first_invalid_scope str_upper LocationScope LocationScope_getitem).
Local Abbreviation loop_event :=
  (loop_event json_dumps json_to_nodes_configuration LocationScope).

Lemma loop_event_no_admin base (e : event LocationScope) :
  loop_event base e -> ~ admin_call e.
Proof. destruct e; simpl; auto. Qed.

(** X13: each command keeps to its own calls.  [show] only builds the
    client, fetches and prints: it opens no editor and writes nothing.
    [edit] never asks for the admin client and never issues
    [bootstrapCluster] or [removeNodes].  [bootstrap] and [shrink] only ask
    for the admin client, issue their own call and print: they never fetch
    the configuration, open an editor, encode or write. *)
Theorem commands_keep_to_their_calls (w : world) st items node_indexes :
  (exists evs,
     trace (snd (show w st)) = trace st ++ evs /\ Forall fetch_or_print evs)
  /\ (exists evs,
        trace (snd (edit w st)) = trace st ++ evs
        /\ Forall (fun e => ~ admin_call e) evs)
  /\ (exists evs,
        trace (snd (bootstrap w items st)) = trace st ++ evs
        /\ Forall (fun e => (admin_call e \/ exists line, e = print line)
                            /\ forall ids t, e <> removeNodes ids t) evs)
  /\ (exists evs,
        trace (snd (shrink w node_indexes st)) = trace st ++ evs
        /\ Forall (fun e => (admin_call e \/ exists line, e = print line)
                            /\ forall rp t, e <> bootstrapCluster rp t) evs).
Proof.
  assert (Hfetch : Forall (fetch_or_print (LocationScope := LocationScope))
                     (fetch_events w))
    by (unfold fetch_events; destruct (client_result w); repeat constructor).
  assert (Hfetch' : Forall (fun e : event LocationScope => ~ admin_call e)
                      (fetch_events w))
    by (unfold fetch_events; destruct (client_result w);
        repeat constructor; simpl; auto).
  split; [|split; [|split]].
  - rewrite show_run. destruct (fetched w) as [base|e]; simpl.
    + eexists. split; [rewrite <- app_assoc; reflexivity|].
      apply Forall_app. split; [exact Hfetch|repeat constructor].
    + eexists. split; [reflexivity|].
      apply Forall_app. split; [exact Hfetch|repeat constructor].
  - rewrite edit_run. destruct (fetched w) as [base|e]; simpl.
    + destruct (edit_loop _ _ _ _) as [r st2] eqn:Hloop.
      apply (edit_loop_inv json_loads json_dumps json_to_nodes_configuration
               base) in Hloop.
      2:{ simpl. apply list_lookup_middle. reflexivity. }
      destruct Hloop as (_ & evs & Htr & Hev). simpl in Htr.
      exists (fetch_events w ++ evs). split.
      * rewrite app_assoc, <- Htr. destruct r as [[[]|]|e]; reflexivity.
      * apply Forall_app. split; [exact Hfetch'|].
        eapply Forall_impl; [exact Hev|].
        intros e He. simpl. eapply loop_event_no_admin. exact He.
    + eexists. split; [reflexivity|].
      apply Forall_app. split; [exact Hfetch'|].
      repeat constructor. simpl. auto.
  - destruct (bootstrap_run str_upper LocationScope LocationScope_getitem
                LocationScope_eqb w items st) as [rp ->].
    destruct (first_invalid_scope items);
      [|destruct (admin_client_result w); [destruct (rpc_result w)|]];
      simpl; eexists; (split; [reflexivity|]);
      repeat constructor; simpl; eauto; discriminate.
  - rewrite shrink_run.
    destruct (admin_client_result w); [destruct (rpc_result w)|];
      simpl; eexists; (split; [reflexivity|]);
      repeat constructor; simpl; eauto; discriminate.
Qed.

End Calls.

(** ** The further properties on the sample cluster *)

Lemma no_change_check_is_exact_witness :
  let base := PyDict Sample.base_items in
  let parsed := PyDict Sample.edited_items in
  let st : state unit :=
    {| heap := [base]; edited_text := None; trace := [] |} in
  let att := Sample.answers 0 (Sample.json_dumps parsed) Sample.clock "1"
               (Ok tt) false in
  (heap st !! 0 = Some base
   /\ editor_returncode att = 0%Z
   /\ Sample.json_loads (editor_saved att) = Ok parsed)
  /\ fst (validate Sample.json_loads Sample.json_dumps unit 0
            (Sample.json_dumps base) att st)
     = Ok (1, split_nl (Sample.json_dumps base)).
Proof.
  cbv zeta.
  split; [repeat split; vm_compute; reflexivity|].
  refine (proj2 (no_change_check_is_exact Sample.json_loads Sample.json_dumps
                   0 (Sample.json_dumps (PyDict Sample.base_items))
                   (Sample.answers 0
                      (Sample.json_dumps (PyDict Sample.edited_items))
                      Sample.clock "1" (Ok tt) false)
                   {| heap := [PyDict Sample.base_items]; edited_text := None;
                      trace := [] |}
                   (PyDict Sample.base_items) (PyDict Sample.edited_items)
                   _ _ _) _);
    vm_compute; (reflexivity || discriminate).
Defined.

Lemma unparsable_text_is_kept_witness :
  let base := PyDict Sample.base_items in
  let st : state unit :=
    {| heap := [base]; edited_text := None; trace := [] |} in
  let att := Sample.answers 0 "" Sample.clock "1" (Ok tt) true in
  (editor_returncode att = 0%Z
   /\ Sample.json_loads (editor_saved att)
      = Raise (JSONDecodeError "Expecting value"))
  /\ attempt_body Sample.json_loads Sample.json_dumps
       Sample.json_to_nodes_configuration unit 0 (Sample.json_dumps base) att st
     = (Ok Continue,
        {| heap := [base]; edited_text := Some "";
           trace := [run_editor (Sample.json_dumps base);
                     print "Expecting value"; confirm_prompt true] |}).
Proof.
  cbv zeta.
  split; [split; vm_compute; reflexivity|].
  refine (proj1 (unparsable_text_is_kept Sample.json_loads Sample.json_dumps
                   Sample.json_to_nodes_configuration 0
                   (Sample.json_dumps (PyDict Sample.base_items))
                   (Sample.answers 0 "" Sample.clock "1" (Ok tt) true)
                   {| heap := [PyDict Sample.base_items]; edited_text := None;
                      trace := [] |}
                   "Expecting value" _ _));
    vm_compute; reflexivity.
Defined.

Lemma non_object_edit_escapes_witness :
  let w := Sample.cluster [Sample.answers 0 "[]" Sample.clock "1" (Ok tt) true]
             (Ok tt) in
  let base := PyDict Sample.base_items in
  (fetched Sample.json_loads Sample.nodes_configuration_to_json w = Ok base
   /\ attempts w = [Sample.answers 0 "[]" Sample.clock "1" (Ok tt) true]
   /\ Sample.json_loads "[]" = Ok (PyList [])
   /\ (forall d, PyList [] <> PyDict d)
   /\ Sample.json_dumps (PyList []) <> Sample.json_dumps base)
  /\ exists msg,
       Sample.edit w initial
       = (Raise (AttributeError msg),
          {| heap := [base; PyList []]; edited_text := Some "[]";
             trace := [build_client; get_nodes_configuration;
                       run_editor (Sample.json_dumps base)] |}).
Proof.
  cbv zeta.
  split; [repeat split; try (vm_compute; reflexivity); try discriminate;
          vm_compute; discriminate|].
  apply (non_object_edit_escapes Sample.json_loads Sample.json_dumps
           Sample.nodes_configuration_to_json Sample.json_to_nodes_configuration
           Sample.LocationScope
           (Sample.cluster [Sample.answers 0 "[]" Sample.clock "1" (Ok tt) true]
              (Ok tt))
           initial (PyDict Sample.base_items) (PyList [])
           (Sample.answers 0 "[]" Sample.clock "1" (Ok tt) true) []);
    try (vm_compute; reflexivity); try discriminate; vm_compute; discriminate.
Defined.

Lemma baseline_without_version_escapes_witness :
  let d0 := [("nodes", PyList [PyInt 1])] in
  let d := [("nodes", PyList [PyInt 1; PyInt 2])] in
  let att := Sample.answers 0 (Sample.json_dumps (PyDict d)) Sample.clock "1"
               (Ok tt) true in
  let w := {| client_result := Ok tt;
              fetch_result := Ok (Sample.json_dumps (PyDict d0));
              attempts := [att];
              admin_client_result := Ok tt;
              rpc_result := Ok tt |} in
  (fetched Sample.json_loads Sample.nodes_configuration_to_json w
   = Ok (PyDict d0)
   /\ dict_get d0 "version" = None
   /\ Sample.json_loads (editor_saved att) = Ok (PyDict d)
   /\ Sample.json_dumps (PyDict d) <> Sample.json_dumps (PyDict d0))
  /\ Sample.edit w initial
     = (Raise (KeyError "version"),
        {| heap := [PyDict d0; PyDict d];
           edited_text := Some (Sample.json_dumps (PyDict d));
           trace := [build_client; get_nodes_configuration;
                     run_editor (Sample.json_dumps (PyDict d0))] |}).
Proof.
  cbv zeta.
  split; [repeat split; try (vm_compute; reflexivity); vm_compute; discriminate|].
  apply (baseline_without_version_escapes Sample.json_loads Sample.json_dumps
           Sample.nodes_configuration_to_json Sample.json_to_nodes_configuration
           Sample.LocationScope _ initial
           [("nodes", PyList [PyInt 1])] [("nodes", PyList [PyInt 1; PyInt 2])]
           (Sample.answers 0
              (Sample.json_dumps (PyDict [("nodes", PyList [PyInt 1; PyInt 2])]))
              Sample.clock "1" (Ok tt) true) []);
    try (vm_compute; reflexivity); vm_compute; discriminate.
Defined.

Lemma edit_and_cancel_write_nothing_witness :
  let base := PyDict Sample.base_items in
  let st : state unit :=
    {| heap := [base]; edited_text := None; trace := [] |} in
  let att := Sample.answers 0 (Sample.json_dumps (PyDict Sample.edited_items))
               Sample.clock "3" (Ok tt) true in
  let d' := reconciled (PyInt 5) (PyInt 6) (PyInt 1000) 1610612736000
              Sample.edited_items in
  (heap st !! 0 = Some base
   /\ dict_get Sample.base_items "version" = Some (PyInt 5)
   /\ py_add_1 (PyInt 5) = Ok (PyInt 6)
   /\ dict_get Sample.base_items "last_timestamp" = Some (PyInt 1000)
   /\ editor_returncode att = 0%Z
   /\ Sample.json_loads (editor_saved att) = Ok (PyDict Sample.edited_items)
   /\ time_ms (time_time att) = Ok 1610612736000%Z
   /\ Sample.json_dumps (PyDict Sample.edited_items) <> Sample.json_dumps base)
  /\ attempt_body Sample.json_loads Sample.json_dumps
       Sample.json_to_nodes_configuration unit 0 (Sample.json_dumps base) att st
     = (Ok Break,
        {| heap := [base; PyDict d'];
           edited_text := Some (Sample.json_dumps (PyDict Sample.edited_items));
           trace := run_editor (Sample.json_dumps base)
                    :: confirmation (split_nl (Sample.json_dumps base))
                         (Sample.json_dumps (PyDict d')) "3" |}).
Proof.
  cbv zeta.
  split; [repeat split; try (vm_compute; reflexivity); vm_compute; discriminate|].
  refine (proj1 (proj2 (edit_and_cancel_write_nothing Sample.json_loads
                          Sample.json_dumps Sample.json_to_nodes_configuration
                          0 (Sample.json_dumps (PyDict Sample.base_items))
                          (Sample.answers 0
                             (Sample.json_dumps (PyDict Sample.edited_items))
                             Sample.clock "3" (Ok tt) true)
                          {| heap := [PyDict Sample.base_items];
                             edited_text := None; trace := [] |}
                          Sample.base_items Sample.edited_items
                          (PyInt 5) (PyInt 6) (PyInt 1000) 1610612736000%Z
                          _ _ _ _ _ _ _ _) eq_refl));
    try (vm_compute; reflexivity); vm_compute; discriminate.
Defined.

Lemma confirmed_document_is_written_witness :
  let base := PyDict Sample.base_items in
  let st : state unit :=
    {| heap := [base]; edited_text := None; trace := [] |} in
  let att := Sample.answers 0 (Sample.json_dumps (PyDict Sample.edited_items))
               Sample.clock "1" (Ok tt) true in
  let d' := reconciled (PyInt 5) (PyInt 6) (PyInt 1000) 1610612736000
              Sample.edited_items in
  (heap st !! 0 = Some base
   /\ dict_get Sample.base_items "version" = Some (PyInt 5)
   /\ py_add_1 (PyInt 5) = Ok (PyInt 6)
   /\ dict_get Sample.base_items "last_timestamp" = Some (PyInt 1000)
   /\ editor_returncode att = 0%Z
   /\ Sample.json_loads (editor_saved att) = Ok (PyDict Sample.edited_items)
   /\ time_ms (time_time att) = Ok 1610612736000%Z
   /\ Sample.json_dumps (PyDict Sample.edited_items) <> Sample.json_dumps base
   /\ choice att <> "2" /\ choice att <> "3"
   /\ Sample.json_to_nodes_configuration (Sample.json_dumps (PyDict d'))
      = Ok (Sample.json_dumps (PyDict d'))
   /\ overwrite_result att = Ok tt)
  /\ attempt_body Sample.json_loads Sample.json_dumps
       Sample.json_to_nodes_configuration unit 0 (Sample.json_dumps base) att st
     = (Ok Break,
        {| heap := [base; PyDict d'];
           edited_text := Some (Sample.json_dumps (PyDict Sample.edited_items));
           trace := run_editor (Sample.json_dumps base)
                    :: confirmation (split_nl (Sample.json_dumps base))
                         (Sample.json_dumps (PyDict d')) "1"
                    ++ [encode_nodes_configuration
                          (Sample.json_dumps (PyDict d'));
                        overwrite_nodes_configuration
                          (Sample.json_dumps (PyDict d'))] |}).
Proof.
  cbv zeta.
  split; [repeat split; try (vm_compute; reflexivity); try discriminate;
          vm_compute; discriminate|].
  refine (proj1 (confirmed_document_is_written Sample.json_loads
                   Sample.json_dumps Sample.json_to_nodes_configuration
                   0 (Sample.json_dumps (PyDict Sample.base_items))
                   (Sample.answers 0
                      (Sample.json_dumps (PyDict Sample.edited_items))
                      Sample.clock "1" (Ok tt) true)
                   {| heap := [PyDict Sample.base_items];
                      edited_text := None; trace := [] |}
                   Sample.base_items Sample.edited_items
                   (PyInt 5) (PyInt 6) (PyInt 1000) 1610612736000%Z
                   _ _ _ _ _ _ _ _ _ _ _ _ _));
    try (vm_compute; reflexivity); try discriminate; vm_compute; discriminate.
Defined.

Lemma apply_failures_are_reported_witness :
  let base := PyDict Sample.base_items in
  let st : state unit :=
    {| heap := [base]; edited_text := None; trace := [] |} in
  let att := Sample.answers 0 (Sample.json_dumps (PyDict Sample.edited_items))
               Sample.clock "1" (Raise (Exception "version mismatch")) true in
  let d' := reconciled (PyInt 5) (PyInt 6) (PyInt 1000) 1610612736000
              Sample.edited_items in
  (heap st !! 0 = Some base
   /\ dict_get Sample.base_items "version" = Some (PyInt 5)
   /\ py_add_1 (PyInt 5) = Ok (PyInt 6)
   /\ dict_get Sample.base_items "last_timestamp" = Some (PyInt 1000)
   /\ editor_returncode att = 0%Z
   /\ Sample.json_loads (editor_saved att) = Ok (PyDict Sample.edited_items)
   /\ time_ms (time_time att) = Ok 1610612736000%Z
   /\ Sample.json_dumps (PyDict Sample.edited_items) <> Sample.json_dumps base
   /\ choice att <> "2" /\ choice att <> "3")
  /\ attempt_body Sample.json_loads Sample.json_dumps
       Sample.json_to_nodes_configuration unit 0 (Sample.json_dumps base) att st
     = (Ok Continue,
        {| heap := [base; PyDict d'];
           edited_text := Some (Sample.json_dumps (PyDict Sample.edited_items));
           trace := run_editor (Sample.json_dumps base)
                    :: confirmation (split_nl (Sample.json_dumps base))
                         (Sample.json_dumps (PyDict d')) "1"
                    ++ [encode_nodes_configuration
                          (Sample.json_dumps (PyDict d'));
                        overwrite_nodes_configuration
                          (Sample.json_dumps (PyDict d'));
                        print "Error on overwriting config: version mismatch";
                        confirm_prompt true] |}).
Proof.
  cbv zeta.
  split; [repeat split; try (vm_compute; reflexivity); try discriminate;
          vm_compute; discriminate|].
  refine (proj2 (apply_failures_are_reported Sample.json_loads
                   Sample.json_dumps Sample.json_to_nodes_configuration
                   0 (Sample.json_dumps (PyDict Sample.base_items))
                   (Sample.answers 0
                      (Sample.json_dumps (PyDict Sample.edited_items))
                      Sample.clock "1" (Raise (Exception "version mismatch"))
                      true)
                   {| heap := [PyDict Sample.base_items];
                      edited_text := None; trace := [] |}
                   Sample.base_items Sample.edited_items
                   (PyInt 5) (PyInt 6) (PyInt 1000) 1610612736000%Z
                   _ _ _ _ _ _ _ _ _ _)
                _ (Exception "version mismatch") eq_refl eq_refl);
    try (vm_compute; reflexivity); try discriminate; vm_compute; discriminate.
Defined.

Lemma bootstrap_replication_property_witness :
  let items := [("rack", 2%Z); ("node", 3%Z); ("RACK", 4%Z)] in
  ((forall s t, Sample.LocationScope_eqb s t = true <-> s = t)
   /\ first_invalid_scope Sample.str_upper Sample.LocationScope
        Sample.LocationScope_getitem items = None
   /\ admin_client_result (Sample.cluster [] (Ok tt)) = Ok tt)
  /\ exists rp,
       Sample.bootstrap (Sample.cluster [] (Ok tt)) items initial
       = (Ok None,
          logged initial
            [get_cluster_admin_client; bootstrapCluster rp 60;
             print "Successfully bootstrapped the cluster"])
       /\ NoDup (map fst rp).
Proof.
  cbv zeta.
  assert (Hspec : forall s t, Sample.LocationScope_eqb s t = true <-> s = t)
    by (intros [] []; split; (reflexivity || discriminate)).
  split; [repeat split; try apply Hspec; reflexivity|].
  destruct (bootstrap_replication_property Sample.str_upper
              Sample.LocationScope Sample.LocationScope_getitem
              Sample.LocationScope_eqb Hspec (Sample.cluster [] (Ok tt))
              [("rack", 2%Z); ("node", 3%Z); ("RACK", 4%Z)] initial
              eq_refl eq_refl) as (rp & Hrun & Hnd & _).
  exists rp. split; [exact Hrun|exact Hnd].
Defined.

Lemma reconcile_touches_two_keys_witness :
  let st := Sample.two_objects Sample.base_items Sample.edited_items in
  let att := Sample.answers 0 "" Sample.clock "1" (Ok tt) false in
  (heap st !! 0 = Some (PyDict Sample.base_items)
   /\ heap st !! 1 = Some (PyDict Sample.edited_items)
   /\ 0 <> 1
   /\ dict_get Sample.base_items "version" = Some (PyInt 5)
   /\ py_add_1 (PyInt 5) = Ok (PyInt 6)
   /\ dict_get Sample.base_items "last_timestamp" = Some (PyInt 1000)
   /\ time_ms (time_time att) = Ok 1610612736000%Z)
  /\ exists st' d',
       reconcile 0 1 att st = (Ok tt, st')
       /\ heap st' !! 1 = Some (PyDict d')
       /\ dict_get d' "nodes" = dict_get Sample.edited_items "nodes".
Proof.
  cbv zeta.
  split; [repeat split; (reflexivity || discriminate)|].
  destruct (reconcile_touches_two_keys 0 1
              (Sample.answers 0 "" Sample.clock "1" (Ok tt) false)
              (Sample.two_objects Sample.base_items Sample.edited_items)
              Sample.base_items Sample.edited_items
              (PyInt 5) (PyInt 6) (PyInt 1000) 1610612736000%Z
              eq_refl eq_refl ltac:(discriminate) eq_refl eq_refl eq_refl eq_refl)
    as (st' & d' & Hrun & Hd' & Hother & _).
  exists st', d'. split; [exact Hrun|]. split; [exact Hd'|].
  apply Hother; discriminate.
Defined.

Lemma edit_returns_after_a_decision_witness :
  let w := Sample.cluster
             [Sample.answers 0 (Sample.json_dumps (PyDict Sample.edited_items))
                Sample.clock "3" (Ok tt) true] (Ok tt) in
  fst (Sample.edit w initial) = Ok (Some (Some 0%Z))
  /\ exists evs e,
       trace (snd (Sample.edit w initial)) = trace initial ++ evs ++ [e]
       /\ (e = ask_prompt "3" \/ e = confirm_prompt false
           \/ exists nc_bin, e = overwrite_nodes_configuration nc_bin).
Proof.
  cbv zeta. split; [vm_compute; reflexivity|].
  apply (edit_returns_after_a_decision Sample.json_loads Sample.json_dumps
           Sample.nodes_configuration_to_json Sample.json_to_nodes_configuration
           (LocationScope := Sample.LocationScope)).
  vm_compute. reflexivity.
Defined.
